(** * Radar-Client: the zone occupancy engine and the connection manager

    A shallow embedding of the logic of [src/screens/MainScreen.js], of
    the zone-creation path and the zone states of
    [src/components/RadarVisualization.js], and of the sensitivity slider
    of [src/components/DeviceSettings.js].

    Conventions of the embedding.
    - A JavaScript number that carries a coordinate is an IEEE-754 binary64
      value, Rocq's primitive [float]; comparisons and arithmetic are the
      primitive ones, so rounding, infinities and NaN behave as in the
      program.
    - Counters and clock readings ([Date.now()]) are [Z]; timer delays
      are rationals, since the backoff delay has a fractional part.
    - The component's [useState] cells and [useRef] cells form one record,
      [Store].  A handler is a function from the store to the store:
      refs are read from the store it is applied to, and [setX(f)] applies
      [f] to the cell.
    - A handler that a socket or a timer keeps, or that [useCallback]
      memoises, is the instance made in one render, and a state variable
      it mentions by name has the value of that render.  Where the
      instance can outlive the render, the handler takes these values as a
      [Closure]; the handlers made and called within one render read the
      store.
    - A plain object used as a map is a finite map of its own properties
      together with the names it inherits from [Object.prototype].
    - Timers, the animation-frame queue and the frames written to the
      socket are part of the store, so that arming, clearing and firing can
      be observed. *)

From Stdlib Require Import PrimFloat ZArith QArith Qminmax Qround Qpower Ascii String.
From stdpp Require Import base option list gmap strings pretty.
From Stdlib Require SpecFloat FloatOps Uint63.

Set Warnings "-clear-no-such-hyp".

Local Open Scope Z_scope.

(** ** JavaScript values used by the program *)

Abbreviation number := float (only parsing).

(** [a > b] and [a < b] on numbers; both are false when an operand is NaN. *)
Definition js_gt (a b : number) : bool := PrimFloat.ltb b a.
Definition js_lt (a b : number) : bool := PrimFloat.ltb a b.

(** The outcome of running a piece of code that may raise: reading a
    property of [undefined] raises a TypeError. *)
Inductive completion (A : Type) : Type :=
  | Return (v : A)
  | TypeError
  | OutOfFuel.
Arguments Return {A} v.
Arguments TypeError {A}.
Arguments OutOfFuel {A}.

(** [arr[k]]: [undefined] (here [None]) outside [0 .. length-1]. *)
Definition at_index {A : Type} (arr : list A) (k : Z) : option A :=
  if k <? 0 then None else arr !! Z.to_nat k.

Module Point.
Record t : Type := mk { x : number; y : number }.
End Point.

Module Target.
Record t : Type := mk { id : string; x : number; y : number }.
End Target.

Module Zone.
Record t : Type := mk { id : string; name : string; points : list Point.t }.
End Zone.

(** ** Geometry: [isTargetInZone] *)

(** The body of the [for] loop: one edge, from vertex [j] to vertex [i]. *)
Definition edge_test (target : Target.t) (pi pj : Point.t) : bool :=
  let xi := Point.x pi in let yi := Point.y pi in
  let xj := Point.x pj in let yj := Point.y pj in
  xorb (js_gt yi (Target.y target)) (js_gt yj (Target.y target))
  && js_lt (Target.x target)
           ((xj - xi) * (Target.y target - yi) / (yj - yi) + xi)%float.

(** [for (let i = 0, j = length - 1; i < length; j = i++) { ... }] *)
Fixpoint isTargetInZone_loop (fuel : nat) (target : Target.t)
    (points : list Point.t) (i j : Z) (inside : bool) : completion bool :=
  match fuel with
  | O => OutOfFuel
  | S fuel' =>
      if i <? Z.of_nat (length points) then
        match at_index points i, at_index points j with
        | Some pi, Some pj =>
            let inside' := if edge_test target pi pj then negb inside else inside in
            isTargetInZone_loop fuel' target points (i + 1) i inside'
        | _, _ => TypeError
        end
      else Return inside
  end.

Definition isTargetInZone (target : Target.t) (zone : Zone.t) : completion bool :=
  let points := Zone.points zone in
  isTargetInZone_loop (S (length points)) target points
    0 (Z.of_nat (length points) - 1) false.

(** *** The ray-crossing rule, as the specification words it *)

(** The edges of a polygon with wrap-around: every vertex paired with its
    predecessor, the first vertex with the last. *)
Definition polygon_edges (points : list Point.t) : list (Point.t * Point.t) :=
  match last points with
  | None => []
  | Some pn => zip points (pn :: points)
  end.

(** The x-coordinate where the edge [a]-[b] meets the horizontal line
    through height [py]. *)
Definition x_intersection (a b : Point.t) (py : number) : number :=
  ((Point.x b - Point.x a) * (py - Point.y a) / (Point.y b - Point.y a)
   + Point.x a)%float.

(** An edge counts as a crossing when exactly one endpoint is strictly
    above the point and the intersection lies strictly to its right. *)
Definition crosses (target : Target.t) (e : Point.t * Point.t) : bool :=
  let '(a, b) := e in
  xorb (js_gt (Point.y a) (Target.y target)) (js_gt (Point.y b) (Target.y target))
  && js_lt (Target.x target) (x_intersection a b (Target.y target)).

Definition toggle (target : Target.t) (inside : bool) (e : Point.t * Point.t) : bool :=
  if crosses target e then negb inside else inside.

Definition ray_crossing_rule (target : Target.t) (points : list Point.t) : bool :=
  fold_left (toggle target) (polygon_edges points) false.

Definition unit_square : Zone.t :=
  Zone.mk "zone_1" "square"
    [Point.mk 0 0; Point.mk 1 0; Point.mk 1 1; Point.mk 0 1].

(** A zone with two vertices, and a target level with the segment. *)
Definition two_vertex_zone : Zone.t :=
  Zone.mk "zone_2" "segment" [Point.mk 0 0; Point.mk 1 3].

Definition target_beside_segment : Target.t :=
  Target.mk "t1" 0x1.5555555555555p-2 1.

(** A target above both ends of the segment, and a zone of one vertex. *)
Definition target_above : Target.t := Target.mk "t2" 5 7.

Definition one_vertex_zone : Zone.t := Zone.mk "zone_3" "dot" [Point.mk 1 1].

(** ** Session data *)

Inductive LogType : Type := occupied | unoccupied.

(** [timestamp] is the instant read by [new Date()]; the program stores its
    ISO-8601 rendering. *)
Module ZoneLogEntry.
Record t : Type := mk {
  timestamp : Z;
  type : LogType;
  targetCount : nat;
  targets : list Target.t
}.
End ZoneLogEntry.

Module FallLog.
Record t : Type := mk { timestamp : string; event_type : string; target_id : string }.
End FallLog.

Inductive ReadyState : Type := CONNECTING | OPEN | CLOSING | CLOSED.

Record WebSocket : Type := { readyState : ReadyState }.

(** The texts shown by [setConnectionStatus]. *)
Inductive Status : Type :=
  | NotConnected
  | Connecting
  | Connected
  | Disconnected
  | MaxAttemptsReached
  | Reconnecting (seconds : Z)
  | ConnectionError.

(** Outbound frames, by their [type] field. *)
Inductive OutMsg : Type :=
  | request_zones
  | request_logs (zone_id : option string)
  | new_zone (zone : Zone.t)
  | delete_zone (zoneId : string)
  | fall_logs (start_time end_time : Z)
  | ping.

(** Inbound frames after [JSON.parse], by their [type] field; an optional
    field is [None] when it is absent or falsy. *)
Inductive Data : Type :=
  | zones_response (zs : option (list (string * Zone.t)))
  | zone_deleted (success : bool) (zoneId : option string)
  | zones_data (zs : option (list (string * Zone.t)))
  | zone_logs_response (logs : option (gmap string (list ZoneLogEntry.t)))
  | fall_logs_response (logs : option (list FallLog.t))
  | target_update (ts : option (list Target.t))
  | fall_event
  | zone_event
  | pong
  | error (e : string)
  | unhandled (messageType : string).

(** [event.data]: text on which [JSON.parse] raises, or a parsed frame. *)
Inductive Frame : Type :=
  | malformed
  | json (data : Data).

(** What the closures of one render keep of the state.  [connectWebSocket]
    is memoised on [connectionAttempts] and on
    [handleZoneDeleteConfirmation], itself memoised on [selectedZone]; the
    handlers it installs on a socket, the timers it arms and the instance
    of [forceReconnect] made in the same render read these two values as
    they were in that render, not as the cells are when they run. *)
Record Closure : Type := {
  captured_connectionAttempts : Z;
  captured_selectedZone : option Zone.t
}.

(** What a timer runs when it fires: [connectWebSocket], the instance of
    the render that armed the timer, or the callback of the pending-response
    timer. *)
Inductive TimerCallback : Type :=
  | CallConnectWebSocket (env : Closure)
  | ResponseTimeout.

#[global] Instance ResponseTimeout_dec (cb : TimerCallback) : Decision (cb = ResponseTimeout).
Proof. destruct cb; [right; discriminate|left; reflexivity]. Defined.

Record Timer : Type := { callback : TimerCallback; delay : Q }.

(** The closure handed to [requestAnimationFrame] by the occupancy effect:
    it captures [newLogs] and [currentActiveZones]. *)
Record BatchedUpdates : Type := {
  batch_newLogs : gmap string (list ZoneLogEntry.t);
  batch_currentActiveZones : gset string
}.

(** The cells of [MainScreen].  Cells that only drive the presentation
    ([statusColor], [debugInfo], [showMenu], [activeView],
    [showDeviceSettings], [serverHealthStatus]) are left out. *)
Record Store : Type := mkStore {
  (* useState cells *)
  connectionStatus : Status;
  socket : option WebSocket;
  targets : list Target.t;
  zones : list Zone.t;
  activeZones : gset string;
  deletingZones : gset string;
  zoneLogs : gmap string (list ZoneLogEntry.t);
  receivedZoneLogs : bool;
  selectedZone : option Zone.t;
  showLogs : bool;
  showFallAlert : bool;
  fallLogs : list FallLog.t;
  connectionAttempts : Z;
  newFallDetected : bool;
  pendingZones : gset string;
  (* useRef cells *)
  prevActiveZonesRef : gset string;
  retryTimeoutRef : option positive;
  isConnectingRef : bool;
  lastConnectionAttemptRef : Z;
  messageResponseTimeoutRef : option positive;
  lastMessageSentTimeRef : Z;
  lastMessageReceivedTimeRef : Z;
  lastMessageTimeRef : Z;
  (* the runtime: live timers, animation-frame queue, frames written *)
  timers : gmap positive Timer;
  nextTimer : positive;
  frames : list BatchedUpdates;
  sent : list OutMsg
}.

(** Writing one cell. *)
Definition set_connectionStatus (v : Status) (st : Store) : Store :=
  let 'mkStore a1 a2 a3 a4 a5 a6 a7 a8 a9 a10 a11 a12 a13 a14 a15 a16 a17 a18
      a19 a20 a21 a22 a23 a24 a25 a26 a27 := st in
  mkStore v a2 a3 a4 a5 a6 a7 a8 a9 a10 a11 a12 a13 a14 a15 a16 a17 a18 a19
    a20 a21 a22 a23 a24 a25 a26 a27.
Definition set_socket (v : option WebSocket) (st : Store) : Store :=
  let 'mkStore a1 a2 a3 a4 a5 a6 a7 a8 a9 a10 a11 a12 a13 a14 a15 a16 a17 a18
      a19 a20 a21 a22 a23 a24 a25 a26 a27 := st in
  mkStore a1 v a3 a4 a5 a6 a7 a8 a9 a10 a11 a12 a13 a14 a15 a16 a17 a18 a19
    a20 a21 a22 a23 a24 a25 a26 a27.
Definition set_targets (v : list Target.t) (st : Store) : Store :=
  let 'mkStore a1 a2 a3 a4 a5 a6 a7 a8 a9 a10 a11 a12 a13 a14 a15 a16 a17 a18
      a19 a20 a21 a22 a23 a24 a25 a26 a27 := st in
  mkStore a1 a2 v a4 a5 a6 a7 a8 a9 a10 a11 a12 a13 a14 a15 a16 a17 a18 a19
    a20 a21 a22 a23 a24 a25 a26 a27.
Definition set_zones (v : list Zone.t) (st : Store) : Store :=
  let 'mkStore a1 a2 a3 a4 a5 a6 a7 a8 a9 a10 a11 a12 a13 a14 a15 a16 a17 a18
      a19 a20 a21 a22 a23 a24 a25 a26 a27 := st in
  mkStore a1 a2 a3 v a5 a6 a7 a8 a9 a10 a11 a12 a13 a14 a15 a16 a17 a18 a19
    a20 a21 a22 a23 a24 a25 a26 a27.
Definition set_activeZones (v : gset string) (st : Store) : Store :=
  let 'mkStore a1 a2 a3 a4 a5 a6 a7 a8 a9 a10 a11 a12 a13 a14 a15 a16 a17 a18
      a19 a20 a21 a22 a23 a24 a25 a26 a27 := st in
  mkStore a1 a2 a3 a4 v a6 a7 a8 a9 a10 a11 a12 a13 a14 a15 a16 a17 a18 a19
    a20 a21 a22 a23 a24 a25 a26 a27.
Definition set_deletingZones (v : gset string) (st : Store) : Store :=
  let 'mkStore a1 a2 a3 a4 a5 a6 a7 a8 a9 a10 a11 a12 a13 a14 a15 a16 a17 a18
      a19 a20 a21 a22 a23 a24 a25 a26 a27 := st in
  mkStore a1 a2 a3 a4 a5 v a7 a8 a9 a10 a11 a12 a13 a14 a15 a16 a17 a18 a19
    a20 a21 a22 a23 a24 a25 a26 a27.
Definition set_zoneLogs (v : gmap string (list ZoneLogEntry.t)) (st : Store) : Store :=
  let 'mkStore a1 a2 a3 a4 a5 a6 a7 a8 a9 a10 a11 a12 a13 a14 a15 a16 a17 a18
      a19 a20 a21 a22 a23 a24 a25 a26 a27 := st in
  mkStore a1 a2 a3 a4 a5 a6 v a8 a9 a10 a11 a12 a13 a14 a15 a16 a17 a18 a19
    a20 a21 a22 a23 a24 a25 a26 a27.
Definition set_receivedZoneLogs (v : bool) (st : Store) : Store :=
  let 'mkStore a1 a2 a3 a4 a5 a6 a7 a8 a9 a10 a11 a12 a13 a14 a15 a16 a17 a18
      a19 a20 a21 a22 a23 a24 a25 a26 a27 := st in
  mkStore a1 a2 a3 a4 a5 a6 a7 v a9 a10 a11 a12 a13 a14 a15 a16 a17 a18 a19
    a20 a21 a22 a23 a24 a25 a26 a27.
Definition set_selectedZone (v : option Zone.t) (st : Store) : Store :=
  let 'mkStore a1 a2 a3 a4 a5 a6 a7 a8 a9 a10 a11 a12 a13 a14 a15 a16 a17 a18
      a19 a20 a21 a22 a23 a24 a25 a26 a27 := st in
  mkStore a1 a2 a3 a4 a5 a6 a7 a8 v a10 a11 a12 a13 a14 a15 a16 a17 a18 a19
    a20 a21 a22 a23 a24 a25 a26 a27.
Definition set_showLogs (v : bool) (st : Store) : Store :=
  let 'mkStore a1 a2 a3 a4 a5 a6 a7 a8 a9 a10 a11 a12 a13 a14 a15 a16 a17 a18
      a19 a20 a21 a22 a23 a24 a25 a26 a27 := st in
  mkStore a1 a2 a3 a4 a5 a6 a7 a8 a9 v a11 a12 a13 a14 a15 a16 a17 a18 a19 a20
    a21 a22 a23 a24 a25 a26 a27.
Definition set_showFallAlert (v : bool) (st : Store) : Store :=
  let 'mkStore a1 a2 a3 a4 a5 a6 a7 a8 a9 a10 a11 a12 a13 a14 a15 a16 a17 a18
      a19 a20 a21 a22 a23 a24 a25 a26 a27 := st in
  mkStore a1 a2 a3 a4 a5 a6 a7 a8 a9 a10 v a12 a13 a14 a15 a16 a17 a18 a19 a20
    a21 a22 a23 a24 a25 a26 a27.
Definition set_fallLogs (v : list FallLog.t) (st : Store) : Store :=
  let 'mkStore a1 a2 a3 a4 a5 a6 a7 a8 a9 a10 a11 a12 a13 a14 a15 a16 a17 a18
      a19 a20 a21 a22 a23 a24 a25 a26 a27 := st in
  mkStore a1 a2 a3 a4 a5 a6 a7 a8 a9 a10 a11 v a13 a14 a15 a16 a17 a18 a19 a20
    a21 a22 a23 a24 a25 a26 a27.
Definition set_connectionAttempts (v : Z) (st : Store) : Store :=
  let 'mkStore a1 a2 a3 a4 a5 a6 a7 a8 a9 a10 a11 a12 a13 a14 a15 a16 a17 a18
      a19 a20 a21 a22 a23 a24 a25 a26 a27 := st in
  mkStore a1 a2 a3 a4 a5 a6 a7 a8 a9 a10 a11 a12 v a14 a15 a16 a17 a18 a19 a20
    a21 a22 a23 a24 a25 a26 a27.
Definition set_newFallDetected (v : bool) (st : Store) : Store :=
  let 'mkStore a1 a2 a3 a4 a5 a6 a7 a8 a9 a10 a11 a12 a13 a14 a15 a16 a17 a18
      a19 a20 a21 a22 a23 a24 a25 a26 a27 := st in
  mkStore a1 a2 a3 a4 a5 a6 a7 a8 a9 a10 a11 a12 a13 v a15 a16 a17 a18 a19 a20
    a21 a22 a23 a24 a25 a26 a27.
Definition set_pendingZones (v : gset string) (st : Store) : Store :=
  let 'mkStore a1 a2 a3 a4 a5 a6 a7 a8 a9 a10 a11 a12 a13 a14 a15 a16 a17 a18
      a19 a20 a21 a22 a23 a24 a25 a26 a27 := st in
  mkStore a1 a2 a3 a4 a5 a6 a7 a8 a9 a10 a11 a12 a13 a14 v a16 a17 a18 a19 a20
    a21 a22 a23 a24 a25 a26 a27.
Definition set_prevActiveZonesRef (v : gset string) (st : Store) : Store :=
  let 'mkStore a1 a2 a3 a4 a5 a6 a7 a8 a9 a10 a11 a12 a13 a14 a15 a16 a17 a18
      a19 a20 a21 a22 a23 a24 a25 a26 a27 := st in
  mkStore a1 a2 a3 a4 a5 a6 a7 a8 a9 a10 a11 a12 a13 a14 a15 v a17 a18 a19 a20
    a21 a22 a23 a24 a25 a26 a27.
Definition set_retryTimeoutRef (v : option positive) (st : Store) : Store :=
  let 'mkStore a1 a2 a3 a4 a5 a6 a7 a8 a9 a10 a11 a12 a13 a14 a15 a16 a17 a18
      a19 a20 a21 a22 a23 a24 a25 a26 a27 := st in
  mkStore a1 a2 a3 a4 a5 a6 a7 a8 a9 a10 a11 a12 a13 a14 a15 a16 v a18 a19 a20
    a21 a22 a23 a24 a25 a26 a27.
Definition set_isConnectingRef (v : bool) (st : Store) : Store :=
  let 'mkStore a1 a2 a3 a4 a5 a6 a7 a8 a9 a10 a11 a12 a13 a14 a15 a16 a17 a18
      a19 a20 a21 a22 a23 a24 a25 a26 a27 := st in
  mkStore a1 a2 a3 a4 a5 a6 a7 a8 a9 a10 a11 a12 a13 a14 a15 a16 a17 v a19 a20
    a21 a22 a23 a24 a25 a26 a27.
Definition set_lastConnectionAttemptRef (v : Z) (st : Store) : Store :=
  let 'mkStore a1 a2 a3 a4 a5 a6 a7 a8 a9 a10 a11 a12 a13 a14 a15 a16 a17 a18
      a19 a20 a21 a22 a23 a24 a25 a26 a27 := st in
  mkStore a1 a2 a3 a4 a5 a6 a7 a8 a9 a10 a11 a12 a13 a14 a15 a16 a17 a18 v a20
    a21 a22 a23 a24 a25 a26 a27.
Definition set_messageResponseTimeoutRef (v : option positive) (st : Store) : Store :=
  let 'mkStore a1 a2 a3 a4 a5 a6 a7 a8 a9 a10 a11 a12 a13 a14 a15 a16 a17 a18
      a19 a20 a21 a22 a23 a24 a25 a26 a27 := st in
  mkStore a1 a2 a3 a4 a5 a6 a7 a8 a9 a10 a11 a12 a13 a14 a15 a16 a17 a18 a19 v
    a21 a22 a23 a24 a25 a26 a27.
Definition set_lastMessageSentTimeRef (v : Z) (st : Store) : Store :=
  let 'mkStore a1 a2 a3 a4 a5 a6 a7 a8 a9 a10 a11 a12 a13 a14 a15 a16 a17 a18
      a19 a20 a21 a22 a23 a24 a25 a26 a27 := st in
  mkStore a1 a2 a3 a4 a5 a6 a7 a8 a9 a10 a11 a12 a13 a14 a15 a16 a17 a18 a19
    a20 v a22 a23 a24 a25 a26 a27.
Definition set_lastMessageReceivedTimeRef (v : Z) (st : Store) : Store :=
  let 'mkStore a1 a2 a3 a4 a5 a6 a7 a8 a9 a10 a11 a12 a13 a14 a15 a16 a17 a18
      a19 a20 a21 a22 a23 a24 a25 a26 a27 := st in
  mkStore a1 a2 a3 a4 a5 a6 a7 a8 a9 a10 a11 a12 a13 a14 a15 a16 a17 a18 a19
    a20 a21 v a23 a24 a25 a26 a27.
Definition set_lastMessageTimeRef (v : Z) (st : Store) : Store :=
  let 'mkStore a1 a2 a3 a4 a5 a6 a7 a8 a9 a10 a11 a12 a13 a14 a15 a16 a17 a18
      a19 a20 a21 a22 a23 a24 a25 a26 a27 := st in
  mkStore a1 a2 a3 a4 a5 a6 a7 a8 a9 a10 a11 a12 a13 a14 a15 a16 a17 a18 a19
    a20 a21 a22 v a24 a25 a26 a27.
Definition set_timers (v : gmap positive Timer) (st : Store) : Store :=
  let 'mkStore a1 a2 a3 a4 a5 a6 a7 a8 a9 a10 a11 a12 a13 a14 a15 a16 a17 a18
      a19 a20 a21 a22 a23 a24 a25 a26 a27 := st in
  mkStore a1 a2 a3 a4 a5 a6 a7 a8 a9 a10 a11 a12 a13 a14 a15 a16 a17 a18 a19
    a20 a21 a22 a23 v a25 a26 a27.
Definition set_nextTimer (v : positive) (st : Store) : Store :=
  let 'mkStore a1 a2 a3 a4 a5 a6 a7 a8 a9 a10 a11 a12 a13 a14 a15 a16 a17 a18
      a19 a20 a21 a22 a23 a24 a25 a26 a27 := st in
  mkStore a1 a2 a3 a4 a5 a6 a7 a8 a9 a10 a11 a12 a13 a14 a15 a16 a17 a18 a19
    a20 a21 a22 a23 a24 v a26 a27.
Definition set_frames (v : list BatchedUpdates) (st : Store) : Store :=
  let 'mkStore a1 a2 a3 a4 a5 a6 a7 a8 a9 a10 a11 a12 a13 a14 a15 a16 a17 a18
      a19 a20 a21 a22 a23 a24 a25 a26 a27 := st in
  mkStore a1 a2 a3 a4 a5 a6 a7 a8 a9 a10 a11 a12 a13 a14 a15 a16 a17 a18 a19
    a20 a21 a22 a23 a24 a25 v a27.
Definition set_sent (v : list OutMsg) (st : Store) : Store :=
  let 'mkStore a1 a2 a3 a4 a5 a6 a7 a8 a9 a10 a11 a12 a13 a14 a15 a16 a17 a18
      a19 a20 a21 a22 a23 a24 a25 a26 a27 := st in
  mkStore a1 a2 a3 a4 a5 a6 a7 a8 a9 a10 a11 a12 a13 a14 a15 a16 a17 a18 a19
    a20 a21 a22 a23 a24 a25 a26 v.

(** The component at mount, the clock reading 0. *)
Definition initialStore : Store :=
  {| connectionStatus := NotConnected; socket := None; targets := [];
     zones := []; activeZones := ∅; deletingZones := ∅; zoneLogs := ∅;
     receivedZoneLogs := false; selectedZone := None; showLogs := false;
     showFallAlert := false; fallLogs := []; connectionAttempts := 0;
     newFallDetected := false; pendingZones := ∅; prevActiveZonesRef := ∅;
     retryTimeoutRef := None; isConnectingRef := false;
     lastConnectionAttemptRef := 0; messageResponseTimeoutRef := None;
     lastMessageSentTimeRef := 0; lastMessageReceivedTimeRef := 0;
     lastMessageTimeRef := 0; timers := ∅; nextTimer := 1%positive;
     frames := []; sent := [] |}.

(** The component mounted when the clock reads [now]: [lastMessageTimeRef]
    starts as [Date.now()]. *)
Definition mountedAt (now : Z) : Store := set_lastMessageTimeRef now initialStore.

(** The closures of the render of the component in the store [st]. *)
Definition closureOf (st : Store) : Closure :=
  {| captured_connectionAttempts := connectionAttempts st;
     captured_selectedZone := selectedZone st |}.

Definition maxReconnectAttempts : Z := 5.
Definition maxReconnectDelay : Q := 30000.

(** ** Timers *)

Definition setTimeout (cb : TimerCallback) (ms : Q) (st : Store) : positive * Store :=
  let h := nextTimer st in
  (h, set_nextTimer (h + 1)%positive
        (set_timers (<[h := {| callback := cb; delay := ms |}]> (timers st)) st)).

Definition clearTimeout (h : positive) (st : Store) : Store :=
  set_timers (delete h (timers st)) st.

(** [socket && socket.readyState === WebSocketState.OPEN] *)
Definition socket_open (st : Store) : bool :=
  match socket st with
  | Some {| readyState := OPEN |} => true
  | _ => false
  end.

(** ** Connection manager *)

(** [sendWebSocketMessage]: the frame is written only on an open socket;
    the pending-response timer is cleared and armed again.  The callback of
    the timer is [ResponseTimeout], run by [fireTimer] below.  On an open
    socket [JSON.stringify] and [socket.send] do not raise for the frames
    of [OutMsg], so the [catch] branch has no counterpart. *)
Definition sendWebSocketMessage (message : OutMsg) (now : Z) (st : Store) : bool * Store :=
  if socket_open st then
    let st := set_sent (sent st ++ [message]) st in
    let st := set_lastMessageSentTimeRef now st in
    let st := match messageResponseTimeoutRef st with
              | Some h => clearTimeout h st
              | None => st
              end in
    let '(h, st) := setTimeout ResponseTimeout 15000 st in
    (true, set_messageResponseTimeoutRef (Some h) st)
  else (false, st).

(** [socket.close(..)] on the socket object. *)
Definition ws_close (ws : WebSocket) : WebSocket :=
  match readyState ws with
  | CONNECTING | OPEN => {| readyState := CLOSING |}
  | CLOSING | CLOSED => ws
  end.

(** [forceReconnect], the instance of the render [env]: the counter it
    tests and the [connectWebSocket] it schedules are those of that
    render.  The socket it closes is taken to be the one in the cell. *)
Definition forceReconnect (env : Closure) (now : Z) (st : Store) : Store :=
  let st := match socket st with
            | Some ws => set_socket (Some (ws_close ws)) st
            | None => st
            end in
  let st := match retryTimeoutRef st with
            | Some h => set_retryTimeoutRef None (clearTimeout h st)
            | None => st
            end in
  let st := set_lastConnectionAttemptRef (now - 25000) st in
  let st := if captured_connectionAttempts env >? 3
            then set_connectionAttempts 3 st else st in
  snd (setTimeout (CallConnectWebSocket env) 1000 st).

(** [connectWebSocket], the instance of the render [env], up to the
    installation of the socket's handlers, which are [ws_onopen],
    [ws_onclose env] and [ws_onmessage env] below: the handlers of the
    socket it builds keep [env].  [constructorThrows] tells whether
    [new WebSocket(..)] raises. *)
Definition connectWebSocket (env : Closure) (constructorThrows : bool) (now : Z)
    (st : Store) : Store :=
  let timeSinceLastAttempt := now - lastConnectionAttemptRef st in
  if timeSinceLastAttempt <? 5000 then st
  else if isConnectingRef st then st
  else if captured_connectionAttempts env >=? maxReconnectAttempts then
    set_connectionStatus MaxAttemptsReached st
  else
    let st := set_isConnectingRef true st in
    let st := set_lastConnectionAttemptRef now st in
    let st := set_connectionStatus Connecting st in
    let st := match retryTimeoutRef st with
              | Some h => set_retryTimeoutRef None (clearTimeout h st)
              | None => st
              end in
    if constructorThrows then
      let st := set_isConnectingRef false st in
      let st := set_connectionStatus ConnectionError st in
      snd (setTimeout (CallConnectWebSocket env) 3000 st)
    else st.

Definition ws_onopen (st : Store) : Store :=
  let st := set_connectionStatus Connected st in
  let st := set_connectionAttempts 0 st in
  let st := set_isConnectingRef false st in
  set_socket (Some {| readyState := OPEN |}) st.

(** [Math.round]: the nearest integer, halves upwards. *)
Definition Math_round (q : Q) : Z := Qfloor (q + (1 # 2)).

(** [Math.min(5000 * Math.pow(1.5, connectionAttempts), maxReconnectDelay)].
    The powers of 1.5 reached by the counter are dyadic and exact in
    binary64, so the delay is kept as the rational it denotes. *)
Definition retryDelay (attempts : Z) : Q :=
  Qmin (5000 * (3 # 2) ^ attempts) maxReconnectDelay.

(** [ws.onclose] of a socket built by the instance [env] of
    [connectWebSocket]: the guard and the delay read the counter of that
    render; [setConnectionAttempts(prev => prev + 1)] reads the cell. *)
Definition ws_onclose (env : Closure) (code : Z) (st : Store) : Store :=
  let attempts := captured_connectionAttempts env in
  let st := set_socket None st in
  let st := set_isConnectingRef false st in
  if (code =? 1000) || (code =? 1001) || (attempts >=? maxReconnectAttempts) then
    set_connectionStatus Disconnected st
  else
    let st := set_connectionAttempts (connectionAttempts st + 1) st in
    let d := retryDelay attempts in
    let st := set_connectionStatus (Reconnecting (Math_round (d / 1000))) st in
    let '(h, st) := setTimeout (CallConnectWebSocket env) d st in
    set_retryTimeoutRef (Some h) st.

(** The five-minute interval that resets the failure counter. *)
Definition resetTimer_tick (st : Store) : Store :=
  match connectionStatus st with
  | Connected => set_connectionAttempts 0 st
  | _ => st
  end.

(** A timer fires at time [now]: it leaves the table and its callback
    runs.  [fr] is the render of the [forceReconnect] that the callback of
    a pending-response timer holds (the one of the [sendWebSocketMessage]
    that armed it). *)
Definition fireTimer (fr : Closure) (constructorThrows : bool) (h : positive) (now : Z)
    (st : Store) : Store :=
  match timers st !! h with
  | None => st
  | Some t =>
      let st := set_timers (delete h (timers st)) st in
      match callback t with
      | CallConnectWebSocket env => connectWebSocket env constructorThrows now st
      | ResponseTimeout =>
          if now - lastMessageReceivedTimeRef st >? 15000
          then forceReconnect fr now st
          else st
      end
  end.

(** The effect on [connectWebSocket] (lines 655-667).  It runs after the
    first render, and again after every render that made a new instance of
    [connectWebSocket], that is whenever [connectionAttempts] or
    [selectedZone] changed; before each re-run the cleanup of the previous
    run is called.  The cleanup closes the socket that was in the cell in
    the render of that previous run: [closesSocket] tells whether this is
    the object now in the cell.  It clears the retry timer and leaves the
    ref as it is. *)
Definition connectionCleanup (closesSocket : bool) (st : Store) : Store :=
  let st := match socket st with
            | Some ws => if closesSocket then set_socket (Some (ws_close ws)) st else st
            | None => st
            end in
  match retryTimeoutRef st with
  | Some h => clearTimeout h st
  | None => st
  end.

Definition connectionEffect (closesSocket : bool) (constructorThrows : bool) (now : Z)
    (st : Store) : Store :=
  connectWebSocket (closureOf st) constructorThrows now (connectionCleanup closesSocket st).

(** ** Dispatcher *)

(** [handleZoneDeleteConfirmation], the instance of a render in which
    [selectedZone] was [selected]: the four functional updates read the
    cells, the test on the selected zone reads the captured value. *)
Definition handleZoneDeleteConfirmation (selected : option Zone.t) (zoneId : string)
    (st : Store) : Store :=
  let st := set_zones (filter (λ zone, Zone.id zone ≠ zoneId) (zones st)) st in
  let st := set_activeZones (activeZones st ∖ {[zoneId]}) st in
  let st := set_deletingZones (deletingZones st ∖ {[zoneId]}) st in
  let st := set_zoneLogs (delete zoneId (zoneLogs st)) st in
  match selected with
  | Some zone =>
      if bool_decide (Zone.id zone = zoneId)
      then set_showLogs false (set_selectedZone None st)
      else st
  | None => st
  end.

(** A string is truthy when it is not empty. *)
Definition truthy (s : option string) : option string :=
  match s with
  | Some s' => if bool_decide (s' = "") then None else Some s'
  | None => None
  end.

(** [Object.values] of an id-keyed object, in property order. *)
Definition Object_values {A : Type} (obj : list (string * A)) : list A := obj.*2.

(** The [switch (messageType)] block; the source has it twice, letter for
    letter, in [handleWebSocketMessage] and in [ws.onmessage].  [env] is
    the render whose [handleZoneDeleteConfirmation] the block calls. *)
Definition dispatch (env : Closure) (data : Data) (st : Store) : Store :=
  match data with
  | zones_response (Some zs) => set_zones (Object_values zs) st
  | zones_response None => st
  | zone_deleted success zoneId =>
      match success, truthy zoneId with
      | true, Some zid =>
          handleZoneDeleteConfirmation (captured_selectedZone env) zid st
      | _, _ => st
      end
  | zones_data (Some zs) => set_zones (Object_values zs) st
  | zones_data None => st
  | zone_logs_response (Some logs) =>
      set_receivedZoneLogs true (set_zoneLogs logs st)
  | zone_logs_response None => st
  | fall_logs_response (Some logs) => set_fallLogs logs st
  | fall_logs_response None => st
  | target_update (Some ts) => set_targets ts st
  | target_update None => st
  | fall_event => set_newFallDetected true (set_showFallAlert true st)
  | zone_event => st
  | pong => st
  | error _ => st
  | unhandled _ => st
  end.

(** [handleWebSocketMessage] (lines 137-220): declared, never installed.
    Its dependency list is empty, so it keeps the closures of the first
    render. *)
Definition handleWebSocketMessage (frame : Frame) (now : Z) (st : Store) : Store :=
  match frame with
  | malformed => st
  | json data =>
      let st := set_lastMessageReceivedTimeRef now st in
      let st := set_lastMessageTimeRef now st in
      let st := match messageResponseTimeoutRef st with
                | Some h => set_messageResponseTimeoutRef None (clearTimeout h st)
                | None => st
                end in
      dispatch (closureOf initialStore) data st
  end.

(** [ws.onmessage] (lines 562-640), the handler run by a socket built by
    the instance [env] of [connectWebSocket]. *)
Definition ws_onmessage (env : Closure) (frame : Frame) (now : Z) (st : Store) : Store :=
  match frame with
  | malformed => st
  | json data =>
      let st := set_lastMessageReceivedTimeRef now st in
      let st := set_lastMessageTimeRef now st in
      dispatch env data st
  end.

(** ** Zone deletion and creation intents *)

Inductive AlertButton : Type := Cancel | Delete.

(** [handleZoneDelete]: the alert, then the pressed button's action. *)
Definition handleZoneDelete (button : AlertButton) (zoneId : string) (now : Z)
    (st : Store) : Store :=
  match button with
  | Cancel => st
  | Delete =>
      let st := set_deletingZones ({[zoneId]} ∪ deletingZones st) st in
      if socket_open st
      then snd (sendWebSocketMessage (delete_zone zoneId) now st)
      else st
  end.

(** [handleZoneLogsRequest] and [handleZonePress]: open the log view of a
    zone and ask the server for its logs. *)
Definition handleZoneLogsRequest (zoneId : string) (now : Z) (st : Store) : Store :=
  if socket_open st
  then snd (sendWebSocketMessage (request_logs (Some zoneId)) now st)
  else st.

Definition handleZonePress (zone : Zone.t) (now : Z) (st : Store) : Store :=
  let st := set_selectedZone (Some zone) st in
  let st := set_showLogs true st in
  handleZoneLogsRequest (Zone.id zone) now st.

(** [arr.findIndex(p)]: the first index satisfying [p], or -1. *)
Fixpoint findIndex_from {A : Type} (p : A → bool) (arr : list A) (i : Z) : Z :=
  match arr with
  | [] => -1
  | a :: arr' => if p a then i else findIndex_from p arr' (i + 1)
  end.
Definition findIndex {A : Type} (p : A → bool) (arr : list A) : Z :=
  findIndex_from p arr 0.

Definition handleNewZone (zoneData : Zone.t) (skipWebSocketSend : bool) (now : Z)
    (st : Store) : Store :=
  let prev := zones st in
  let existingZoneIndex :=
    findIndex (λ zone, bool_decide (Zone.id zone = Zone.id zoneData)) prev in
  let st := set_zones (if negb (existingZoneIndex =? -1) then prev
                       else prev ++ [zoneData]) st in
  if negb skipWebSocketSend && socket_open st then
    let '(success, st) := sendWebSocketMessage (new_zone zoneData) now st in
    if success then set_pendingZones ({[Zone.id zoneData]} ∪ pendingZones st) st
    else st
  else st.

(** ** Occupancy engine *)

#[global] Instance completion_ret : MRet completion := λ A v, Return v.
#[global] Instance completion_bind : MBind completion := λ A B k c,
  match c with
  | Return v => k v
  | TypeError => TypeError
  | OutOfFuel => OutOfFuel
  end.

(** [arr.filter(p)] for a predicate that may raise. *)
Fixpoint filter_c {A : Type} (p : A → completion bool) (arr : list A) : completion (list A) :=
  match arr with
  | [] => Return []
  | a :: arr' =>
      b ← p a;
      kept ← filter_c p arr';
      Return (if b : bool then a :: kept else kept)
  end.

(** [arr.forEach(f)] threading the variables [f] assigns. *)
Fixpoint forEach_c {A S : Type} (f : A → S → completion S) (arr : list A) (s : S) : completion S :=
  match arr with
  | [] => Return s
  | a :: arr' => s' ← f a s; forEach_c f arr' s'
  end.

(** The three locals the [zones.forEach] callback assigns. *)
Record ZoneScan : Type := {
  currentActiveZones : gset string;
  newLogs : gmap string (list ZoneLogEntry.t);
  hasChanges : bool
}.

(** [newLogs] and [updatedLogs] are plain objects: a finite map holds
    their own properties, and reading a key that is not an own property
    goes to [Object.prototype].  These are the names found there; what is
    read under them is a function or an object, truthy and without a
    [push] method. *)
Definition Object_prototype_names : list string :=
  ["constructor"; "__proto__"; "hasOwnProperty"; "isPrototypeOf";
   "propertyIsEnumerable"; "toLocaleString"; "toString"; "valueOf";
   "__defineGetter__"; "__defineSetter__"; "__lookupGetter__"; "__lookupSetter__"].

Definition inherited (key : string) : bool :=
  bool_decide (key ∈ Object_prototype_names).

(** [if (!obj[key]) obj[key] = []; obj[key].push(...entries)] on a plain
    object whose own properties are arrays: an own array, even an empty
    one, is truthy and is pushed to; an inherited name is truthy too, the
    initialisation is skipped and the call of [push] raises. *)
Definition push_entries (key : string) (entries : list ZoneLogEntry.t)
    (obj : gmap string (list ZoneLogEntry.t))
    : completion (gmap string (list ZoneLogEntry.t)) :=
  match obj !! key with
  | Some own => Return (<[key := own ++ entries]> obj)
  | None => if inherited key then TypeError else Return (<[key := entries]> obj)
  end.

(** The callback once [targetsInZone] is known. *)
Definition scan_step (now : Z) (prev : gset string) (zone : Zone.t)
    (targetsInZone : list Target.t) (acc : ZoneScan) : completion ZoneScan :=
  let isActive := (0 <? length targetsInZone)%nat in
  let wasActive := bool_decide (Zone.id zone ∈ prev) in
  let current := if isActive then {[Zone.id zone]} ∪ currentActiveZones acc
                 else currentActiveZones acc in
  if negb (Bool.eqb isActive wasActive) then
    let logEntry :=
      {| ZoneLogEntry.timestamp := now;
         ZoneLogEntry.type := if isActive then occupied else unoccupied;
         ZoneLogEntry.targetCount := length targetsInZone;
         ZoneLogEntry.targets :=
           (λ t, Target.mk (Target.id t) (Target.x t) (Target.y t)) <$> targetsInZone |} in
    logs ← push_entries (Zone.id zone) [logEntry] (newLogs acc);
    Return {| currentActiveZones := current;
              newLogs := logs;
              hasChanges := true |}
  else
    Return {| currentActiveZones := current;
              newLogs := newLogs acc;
              hasChanges := hasChanges acc |}.

Definition scan_zone (now : Z) (ts : list Target.t) (prev : gset string)
    (zone : Zone.t) (acc : ZoneScan) : completion ZoneScan :=
  targetsInZone ← filter_c (λ target, isTargetInZone target zone) ts;
  scan_step now prev zone targetsInZone acc.

(** [batchedUpdates]: append the new entries per zone id, replace the
    active set.  The keys of [newLogs] are visited one after the other;
    the outcome does not depend on the order. *)
Definition append_logs (prevLogs new : gmap string (list ZoneLogEntry.t))
    : completion (gmap string (list ZoneLogEntry.t)) :=
  foldr (λ '(zoneId, entries) acc,
           updatedLogs ← acc; push_entries zoneId entries updatedLogs)
        (Return prevLogs) (map_to_list new).

Definition batchedUpdates (b : BatchedUpdates) (st : Store) : completion Store :=
  logs ← append_logs (zoneLogs st) (batch_newLogs b);
  Return (set_activeZones (batch_currentActiveZones b) (set_zoneLogs logs st)).

Definition requestAnimationFrame (b : BatchedUpdates) (st : Store) : Store :=
  set_frames (frames st ++ [b]) st.

(** The effect with dependencies [zones, targets] (lines 238-298); one
    clock reading [now] stands for the [new Date()] of its log entries. *)
Definition occupancyEffect (now : Z) (st : Store) : completion Store :=
  if Nat.eqb (length (zones st)) 0 || Nat.eqb (length (targets st)) 0 then Return st
  else
    scan ← forEach_c (scan_zone now (targets st) (prevActiveZonesRef st)) (zones st)
              {| currentActiveZones := ∅; newLogs := ∅; hasChanges := false |};
    let st := if hasChanges scan
              then requestAnimationFrame
                     {| batch_newLogs := newLogs scan;
                        batch_currentActiveZones := currentActiveZones scan |} st
              else st in
    Return (set_prevActiveZonesRef (currentActiveZones scan) st).

(** The next animation frame runs the queued callbacks in order. *)
Definition runAnimationFrame (st : Store) : completion Store :=
  forEach_c batchedUpdates (frames st) (set_frames [] st).

(** An update of one of the two lists, the effect it triggers, and the
    frame that follows. *)
Inductive Update : Type :=
  | setTargets (ts : list Target.t)
  | setZones (zs : list Zone.t).

Definition applyUpdate (u : Update) (st : Store) : Store :=
  match u with
  | setTargets ts => set_targets ts st
  | setZones zs => set_zones zs st
  end.

Definition engineStep (now : Z) (u : Update) (st : Store) : completion Store :=
  st' ← occupancyEffect now (applyUpdate u st);
  runAnimationFrame st'.

Fixpoint engineRun (updates : list (Z * Update)) (st : Store) : completion Store :=
  match updates with
  | [] => Return st
  | (now, u) :: rest => st' ← engineStep now u st; engineRun rest st'
  end.

(** [zoneLogs[id] || []], as the log view reads it for an id that is not
    a name of [Object.prototype]. *)
Definition logsOf (st : Store) (zoneId : string) : list ZoneLogEntry.t :=
  default [] (zoneLogs st !! zoneId).

(** *** Occupancy transitions, as the specification words them *)

Definition inZone (target : Target.t) (zone : Zone.t) : bool :=
  match isTargetInZone target zone with
  | Return inside => inside
  | _ => false
  end.

Definition targetsInside (zone : Zone.t) (ts : list Target.t) : list Target.t :=
  List.filter (λ target, inZone target zone) ts.

(** The occupancy boolean of a zone for a list of targets. *)
Definition isOccupied (zone : Zone.t) (ts : list Target.t) : bool :=
  (0 <? length (targetsInside zone ts))%nat.

(** The entry that records a transition of [zone] at time [now]. *)
Definition transitionEntry (now : Z) (zone : Zone.t) (ts : list Target.t) : ZoneLogEntry.t :=
  {| ZoneLogEntry.timestamp := now;
     ZoneLogEntry.type := if isOccupied zone ts then occupied else unoccupied;
     ZoneLogEntry.targetCount := length (targetsInside zone ts);
     ZoneLogEntry.targets := targetsInside zone ts |}.

(** The set of ids of the zones that contain at least one target. *)
Definition occupiedZones (zs : list Zone.t) (ts : list Target.t) : gset string :=
  list_to_set (Zone.id <$> List.filter (λ zone, isOccupied zone ts) zs).

(** The engine skips a snapshot in which either list is empty. *)
Definition skipped (zs : list Zone.t) (ts : list Target.t) : bool :=
  Nat.eqb (length zs) 0 || Nat.eqb (length ts) 0.

Definition zonesAfter (u : Update) (zs : list Zone.t) : list Zone.t :=
  match u with setZones zs' => zs' | setTargets _ => zs end.

Definition targetsAfter (u : Update) (ts : list Target.t) : list Target.t :=
  match u with setTargets ts' => ts' | setZones _ => ts end.

(** The entries a zone id is owed along a sequence of updates: one per
    flip of its occupancy boolean between consecutive snapshots that are
    not skipped; [was] is the boolean at the last such snapshot.  A zone
    absent from a snapshot gets nothing and counts as unoccupied from
    there on. *)
Fixpoint expectedLog (zoneId : string) (was : bool) (zs : list Zone.t)
    (ts : list Target.t) (updates : list (Z * Update)) : list ZoneLogEntry.t :=
  match updates with
  | [] => []
  | (now, u) :: rest =>
      let zs' := zonesAfter u zs in
      let ts' := targetsAfter u ts in
      if skipped zs' ts' then expectedLog zoneId was zs' ts' rest
      else
        match List.find (λ zone, bool_decide (Zone.id zone = zoneId)) zs' with
        | None => expectedLog zoneId false zs' ts' rest
        | Some zone =>
            (if Bool.eqb (isOccupied zone ts') was then []
             else [transitionEntry now zone ts'])
            ++ expectedLog zoneId (isOccupied zone ts') zs' ts' rest
        end
  end.

(** Every snapshot of the zone list along the updates has distinct ids. *)
Definition distinctIds (zs : list Zone.t) : Prop := NoDup (Zone.id <$> zs).

Definition updatesDistinctIds (updates : list (Z * Update)) : Prop :=
  Forall (λ nu, match nu.2 with
                | setZones zs => distinctIds zs
                | setTargets _ => True
                end) updates.

(** No zone id is a name of [Object.prototype]; the ids the component
    makes itself, "zone_" followed by digits, are of this kind. *)
Definition plainIds (zs : list Zone.t) : Prop :=
  Forall (λ zone, inherited (Zone.id zone) = false) zs.

Definition updatesPlainIds (updates : list (Z * Update)) : Prop :=
  Forall (λ nu, match nu.2 with
                | setZones zs => plainIds zs
                | setTargets _ => True
                end) updates.

(** Whether the scan of [zone] sees a change of state. *)
Definition flips (prev : gset string) (zone : Zone.t) (ts : list Target.t) : bool :=
  negb (Bool.eqb (isOccupied zone ts) (bool_decide (Zone.id zone ∈ prev))).

Definition emptyScan : ZoneScan :=
  {| currentActiveZones := ∅; newLogs := ∅; hasChanges := false |}.

(** What the callback leaves in its three locals when [push] does not
    raise, with [targetsInZone] spelled out. *)
Definition scanned (now : Z) (prev : gset string) (ts : list Target.t) (zone : Zone.t)
    (acc : ZoneScan) : ZoneScan :=
  {| currentActiveZones :=
       if isOccupied zone ts then {[Zone.id zone]} ∪ currentActiveZones acc
       else currentActiveZones acc;
     newLogs :=
       if flips prev zone ts
       then <[Zone.id zone := default [] (newLogs acc !! Zone.id zone)
                              ++ [transitionEntry now zone ts]]> (newLogs acc)
       else newLogs acc;
     hasChanges := flips prev zone ts || hasChanges acc |}.

(** The [forEach] over the zones when no [push] raises. *)
Definition scan (now : Z) (prev : gset string) (ts : list Target.t)
    (zs : list Zone.t) (acc : ZoneScan) : ZoneScan :=
  fold_left (λ acc zone, scanned now prev ts zone acc) zs acc.

(** The store after the effect when no [push] raises. *)
Definition observed (now : Z) (st : Store) : Store :=
  if skipped (zones st) (targets st) then st
  else
    let sc := scan now (prevActiveZonesRef st) (targets st) (zones st) emptyScan in
    set_prevActiveZonesRef (currentActiveZones sc)
      (if hasChanges sc
       then requestAnimationFrame
              {| batch_newLogs := newLogs sc;
                 batch_currentActiveZones := currentActiveZones sc |} st
       else st).

(** The zone logs after a batch whose [push] calls do not raise. *)
Definition appended (prevLogs new : gmap string (list ZoneLogEntry.t))
    : gmap string (list ZoneLogEntry.t) :=
  union_with (λ old entries, Some (old ++ entries)) prevLogs new.

(** The entries one scan produces under a zone id, in order. *)
Definition flipEntries (now : Z) (prev : gset string) (ts : list Target.t)
    (zs : list Zone.t) (zoneId : string) : list ZoneLogEntry.t :=
  flat_map (λ zone, if bool_decide (Zone.id zone = zoneId) && flips prev zone ts
                    then [transitionEntry now zone ts] else []) zs.

#[global] Instance completion_fmap : FMap completion := λ A B f c,
  match c with
  | Return v => Return (f v)
  | TypeError => TypeError
  | OutOfFuel => OutOfFuel
  end.

(** *** Stores used in the examples *)

Definition target_a : Target.t := Target.mk "a" 0.5 0.5.
Definition target_far : Target.t := Target.mk "b" 2 2.

(** One zone, the unit square, and nothing observed yet. *)
Definition watching : Store := set_zones [unit_square] initialStore.

(** The same after [target_a] has been seen inside the square. *)
Definition watching_occupied : Store :=
  set_prevActiveZonesRef {["zone_1"]} (set_targets [target_a] watching).

(** ** Zone creation in [RadarVisualization] *)

(** [trim] and [toLowerCase] as they act on a string whose characters
    are all ASCII: the white space that [trim] strips is then U+0009 to
    U+000D and the space, and [toLowerCase] maps A-Z to a-z and nothing
    else.  Outside ASCII the methods do more (U+00A0 is white space, and
    other letters have lower-case forms), so a statement about them
    assumes [asciiOnly] of the strings it applies them to. *)
Definition asciiOnly (s : string) : bool :=
  forallb (λ c, Nat.ltb (nat_of_ascii c) 128) (list_ascii_of_string s).

Definition is_white_space (c : ascii) : bool :=
  let n := nat_of_ascii c in
  (Nat.eqb n 32 || (Nat.leb 9 n && Nat.leb n 13))%nat.

Fixpoint trimStart (s : string) : string :=
  match s with
  | EmptyString => EmptyString
  | String c s' => if is_white_space c then trimStart s' else s
  end.

Definition trim (s : string) : string :=
  String.rev (trimStart (String.rev (trimStart s))).

Definition lower_ascii (c : ascii) : ascii :=
  let n := nat_of_ascii c in
  if (Nat.leb 65 n && Nat.leb n 90)%nat then ascii_of_nat (n + 32) else c.

Fixpoint toLowerCase (s : string) : string :=
  match s with
  | EmptyString => EmptyString
  | String c s' => String (lower_ascii c) (toLowerCase s')
  end.

Inductive SubmitResult : Type :=
  | AlertShown (title : string)
  | ZoneCreated (zoneData : Zone.t).

(** [handleNameSubmit(name)] with the component's [zones] and [zonePoints];
    [ZoneCreated zoneData] stands for the call [onZoneCreated(zoneData)]. *)
Definition handleNameSubmit (name : string) (now : Z) (zonePoints : list Point.t)
    (zs : list Zone.t) : SubmitResult :=
  if bool_decide (trim name = "") then AlertShown "Invalid Name"
  else if existsb (λ zone, String.eqb (toLowerCase (Zone.name zone)) (toLowerCase name)) zs
  then AlertShown "Name Already Exists"
  else ZoneCreated {| Zone.id := "zone_" +:+ pretty now;
                      Zone.name := trim name;
                      Zone.points := zonePoints |}.

(** ** The component as a transition system *)

(** What can happen to the component: the connection effect (its first
    run at mount, and its re-runs), transport events, timers, user
    intents, the occupancy effect and the animation frame.  An event that
    runs a handler held by a socket or a timer names the render whose
    closures the handler keeps; any render may be named, so that every
    run of the component is a run of these events.  The periodic checks of
    the connected socket act through [Send] and [ForceReconnect]; the
    trimming of the target list and the toggles of the presentation are
    left out. *)
Inductive Event : Type :=
  | Mount (constructorThrows : bool)
  | ConnectionEffectReruns (closesSocket constructorThrows : bool)
  | Open
  | Close (env : Closure) (code : Z)
  | Message (env : Closure) (frame : Frame)
  | TimerFires (fr : Closure) (constructorThrows : bool) (h : positive)
  | ResetTick
  | ForceReconnect (env : Closure)
  | Send (message : OutMsg)
  | ZoneDeletePressed (button : AlertButton) (zoneId : string)
  | ZonePressed (zone : Zone.t)
  | NewZone (zoneData : Zone.t) (skipWebSocketSend : bool)
  | EffectRuns
  | AnimationFrame.

Definition step (e : Event) (now : Z) (st : Store) : completion Store :=
  match e with
  | Mount throws => Return (connectWebSocket (closureOf st) throws now st)
  | ConnectionEffectReruns closes throws => Return (connectionEffect closes throws now st)
  | Open => Return (ws_onopen st)
  | Close env code => Return (ws_onclose env code st)
  | Message env frame => Return (ws_onmessage env frame now st)
  | TimerFires fr throws h => Return (fireTimer fr throws h now st)
  | ResetTick => Return (resetTimer_tick st)
  | ForceReconnect env => Return (forceReconnect env now st)
  | Send message => Return (sendWebSocketMessage message now st).2
  | ZoneDeletePressed button zoneId => Return (handleZoneDelete button zoneId now st)
  | ZonePressed zone => Return (handleZonePress zone now st)
  | NewZone zoneData skip => Return (handleNewZone zoneData skip now st)
  | EffectRuns => occupancyEffect now st
  | AnimationFrame => runAnimationFrame st
  end.

(** Stores reachable from a mount, whatever the clock reads then. *)
Inductive reachable : Store → Prop :=
  | reachable_initial now : reachable (mountedAt now)
  | reachable_step e now st st' :
      reachable st → step e now st = Return st' → reachable st'.

(** The live timers that wait for a response. *)
Definition responseTimers (st : Store) : list positive :=
  (map_to_list (filter (λ ht, callback ht.2 = ResponseTimeout) (timers st))).*1.

(** *** Stores used in the examples, continued *)

(** Connected, a ping written at time 1000, its response awaited. *)
Definition awaiting_pong : Store :=
  (sendWebSocketMessage ping 1000 (ws_onopen initialStore)).2.

(** The socket under construction in [st] closes abnormally before it
    opens; the counter changes, so the connection effect runs again at
    [t], with no socket to close, and connects anew.  The closing socket
    was built in the render of [st]. *)
Definition fail_and_reconnect (st : Store) (t : Z) : Store :=
  connectionEffect false false t (ws_onclose (closureOf st) 1006 st).

(** The component mounted at 6000, its connection effect run. *)
Definition mounted : Store :=
  connectWebSocket (closureOf (mountedAt 6000)) false 6000 (mountedAt 6000).

(** Five attempts in a row that end in an abnormal close, each at least
    five seconds after the one before. *)
Definition exhausted : Store :=
  fold_left fail_and_reconnect [40000; 80000; 120000; 160000; 200000] mounted.

(** The resync responses of the server, and their delivery in order. *)
Definition resyncResponses (zs : list (string * Zone.t))
    (logs : gmap string (list ZoneLogEntry.t)) (falls : list FallLog.t) : list Frame :=
  [json (zones_response (Some zs)); json (zone_logs_response (Some logs));
   json (fall_logs_response (Some falls))].

(** A forced reconnect in the exhausted store by the instance of the
    current render; the counter changes from 5 to 3, so the connection
    effect runs again. *)
Definition exhausted_render : Closure := closureOf exhausted.

Definition forced : Store := forceReconnect exhausted_render 300000 exhausted.

Definition forced_effect : Store := connectionEffect false false 300000 forced.

(** A response timer that outlives four failures.  The first socket
    opens and a ping is written at 7000, in a render whose counter is 0;
    the timer armed then holds the [forceReconnect] of that render.  The
    socket and the three built after it close abnormally, the attempts
    5100 ms apart; the response timer fires at 22000 with no frame
    received. *)
Definition sending : Store := (sendWebSocketMessage ping 7000 (ws_onopen mounted)).2.

Definition sending_render : Closure := closureOf sending.

Definition four_failures : Store :=
  fold_left fail_and_reconnect [11100; 16200; 21300; 21900] sending.

Definition stale_forced : Store :=
  match messageResponseTimeoutRef four_failures with
  | Some h => fireTimer sending_render false h 22000 four_failures
  | None => four_failures
  end.

(** The render of the component once the first socket is open. *)
Definition open_render : Closure := closureOf (ws_onopen initialStore).

Definition deliver (env : Closure) (now : Z) (frames : list Frame) (st : Store) : Store :=
  fold_left (λ st frame, ws_onmessage env frame now st) frames st.

(** The run on which the backoff goes wrong.  The first socket, built at
    mount, closes abnormally; the counter becomes 1, the connection
    effect runs again and builds a second socket, in a render whose
    counter is 1.  That socket opens: the counter is set to 0 and the
    effect runs once more, within five seconds of the attempt, so that
    nothing is built.  Then the second socket closes abnormally. *)
Definition first_failure : Store := ws_onclose (closureOf mounted) 1006 mounted.

Definition second_socket : Closure := closureOf first_failure.

Definition reopened : Store :=
  connectionEffect false false 12100
    (ws_onopen (connectionEffect false false 12000 first_failure)).

Definition second_failure : Store := ws_onclose second_socket 1006 reopened.

(** The square is open in the log view, active, with one log entry. *)
Definition square_selected : Store :=
  set_selectedZone (Some unit_square)
    (set_zoneLogs {["zone_1" := [transitionEntry 100 unit_square [target_a]]]}
       (set_activeZones {["zone_1"]} (ws_onopen watching_occupied))).

Definition delete_requested : Store :=
  handleZoneDelete Delete "zone_1" 500 (handleZoneDelete Delete "zone_1" 400 square_selected).

(** Two zones named within the same millisecond. *)
Definition kitchen : Zone.t :=
  Zone.mk "zone_1700000000000" "Kitchen" (Zone.points unit_square).
Definition hall : Zone.t :=
  Zone.mk "zone_1700000000000" "Hall" (Zone.points two_vertex_zone).

(** Every live response timer is the one the ref points to. *)
Definition oneResponseTimer (st : Store) : Prop :=
  ∀ h t, timers st !! h = Some t → callback t = ResponseTimeout →
         messageResponseTimeoutRef st = Some h.

(** [st'] has the pending-response ref of [st] and no response timer that
    [st] did not have. *)
Definition keepsResponseTimer (st st' : Store) : Prop :=
  messageResponseTimeoutRef st' = messageResponseTimeoutRef st
  ∧ ∀ h t, timers st' !! h = Some t → callback t = ResponseTimeout →
           timers st !! h = Some t.
(** ** Further definitions: occupancy *)

(** An entry as the engine builds it for [zone] out of the targets [ts]. *)
Definition entryOf (now : Z) (zone : Zone.t) (ts : list Target.t)
    (e : ZoneLogEntry.t) : Prop :=
  ZoneLogEntry.timestamp e = now
  ∧ ZoneLogEntry.targetCount e = length (ZoneLogEntry.targets e)
  ∧ (ZoneLogEntry.type e = occupied ↔ (0 < ZoneLogEntry.targetCount e)%nat)
  ∧ (∀ target, target ∈ ZoneLogEntry.targets e →
       target ∈ ts ∧ isTargetInZone target zone = Return true).

(** Entries whose types alternate; [was] is the state before the first. *)
Fixpoint alternates (was : bool) (es : list ZoneLogEntry.t) : Prop :=
  match es with
  | [] => True
  | e :: es' =>
      ZoneLogEntry.type e = (if was then unoccupied else occupied)
      ∧ alternates (negb was) es'
  end.

Definition onlyTargetUpdates (updates : list (Z * Update)) : Prop :=
  Forall (λ nu, match nu.2 with setTargets _ => True | setZones _ => False end) updates.

(** [zoneStates] of [RadarVisualization] (lines 117-124). *)
Module ZoneState.
Record t : Type := mk {
  id : string; name : string; points : list Point.t; isActive : bool }.
End ZoneState.

(** [arr.some(p)] for a predicate that may raise: stops at the first hit. *)
Fixpoint some_c {A : Type} (p : A → completion bool) (arr : list A) : completion bool :=
  match arr with
  | [] => Return false
  | a :: arr' => b ← p a; if b : bool then Return true else some_c p arr'
  end.

(** [arr.map(f)] for a function that may raise. *)
Fixpoint map_c {A B : Type} (f : A → completion B) (arr : list A) : completion (list B) :=
  match arr with
  | [] => Return []
  | a :: arr' => b ← f a; bs ← map_c f arr'; Return (b :: bs)
  end.

Definition zoneStates (zs : list Zone.t) (ts : list Target.t)
    : completion (list ZoneState.t) :=
  map_c (λ zone,
           active ← some_c (λ target, isTargetInZone target zone) ts;
           Return {| ZoneState.id := Zone.id zone;
                     ZoneState.name := Zone.name zone;
                     ZoneState.points := Zone.points zone;
                     ZoneState.isActive := active |}) zs.
(** ** Further definitions: the target list and the zone list *)

Definition MAX_TARGETS : Z := 20.

(** [arr.slice(start)]: a negative [start] counts from the end. *)
Definition slice_from {A : Type} (start : Z) (arr : list A) : list A :=
  let len := Z.of_nat (length arr) in
  let k := if start <? 0 then Z.max (len + start) 0 else Z.min start len in
  drop (Z.to_nat k) arr.

(** [cleanupTargets] (lines 301-308). *)
Definition cleanupTargets (st : Store) : Store :=
  let prev := targets st in
  set_targets (if Z.of_nat (length prev) >? MAX_TARGETS
               then slice_from (- MAX_TARGETS) prev
               else prev) st.

(** Zone names pairwise different, letter case ignored. *)
Definition distinctNames (zs : list Zone.t) : Prop :=
  NoDup ((λ zone, toLowerCase (Zone.name zone)) <$> zs).
(** ** Further definitions: runs of events and the periodic checks *)

Fixpoint runEvents (events : list (Event * Z)) (st : Store) : completion Store :=
  match events with
  | [] => Return st
  | (e, now) :: rest => st' ← step e now st; runEvents rest st'
  end.

(** The callback of the 30-second timer armed while zones are pending
    (lines 811-823); [env] is the render of the [forceReconnect] it
    holds, as in the two checks below that force a reconnect. *)
Definition longPendingTimeout (env : Closure) (now : Z) (st : Store) : Store :=
  if (0 <? size (pendingZones st))%nat then forceReconnect env now st else st.

(** [handleFallLogsRequest] (lines 766-779): the last 24 hours. *)
Definition handleFallLogsRequest (now : Z) (st : Store) : Store :=
  if socket_open st
  then snd (sendWebSocketMessage (fall_logs (now - 24 * 60 * 60 * 1000) now) now st)
  else st.

(** The two stages of the request of initial data (lines 74-88): the
    callback due 100 ms after the status became 'Connected', and the one
    it schedules 500 ms later. *)
Definition requestInitialZones (now : Z) (st : Store) : Store :=
  if socket_open st then snd (sendWebSocketMessage request_zones now st) else st.

Definition requestInitialLogs (now : Z) (st : Store) : Store :=
  if socket_open st
  then handleFallLogsRequest now (snd (sendWebSocketMessage (request_logs None) now st))
  else st.

(** The three 30-second intervals of the connected socket (lines 91-124). *)
Definition heartbeat (env : Closure) (now : Z) (st : Store) : Store :=
  if socket_open st then snd (sendWebSocketMessage ping now st)
  else match connectionStatus st with
       | Connected => forceReconnect env now st
       | _ => st
       end.

Definition dataCheck (now : Z) (st : Store) : Store :=
  if socket_open st then
    let st := if Nat.eqb (length (zones st)) 0
              then snd (sendWebSocketMessage request_zones now st) else st in
    if negb (receivedZoneLogs st)
    then snd (sendWebSocketMessage (request_logs None) now st) else st
  else st.

Definition connectionCheck (env : Closure) (now : Z) (st : Store) : Store :=
  if (now - lastMessageTimeRef st >? 120000) && socket_open st
  then forceReconnect env now st else st.

(** ** Further definitions: drawing a zone in [RadarVisualization] *)

(** [RADAR_CONFIG] of [utils/constants] and the sensor position. *)
Definition svgWidth : number := 300.
Definition scale : number := 40.
Definition gridSize : number := 8.
Definition sensorY : number := 15.

(** The zone-drawing cells of the component. *)
Module Radar.
Record t : Type := mk {
  isCreatingZone : bool;
  zonePoints : list Point.t;
  isWaitingForName : bool;
  tempZonePoints : list Point.t;
  zoneName : string
}.
End Radar.

Definition initialRadar : Radar.t := Radar.mk false [] false [] "".

(** [Math.abs(p.x) <= maxRange && Math.abs(p.y) <= maxRange] *)
Definition withinRange (p : Point.t) : bool :=
  let maxRange := (gridSize / 2)%float in
  PrimFloat.leb (PrimFloat.abs (Point.x p)) maxRange
  && PrimFloat.leb (PrimFloat.abs (Point.y p)) maxRange.

(** [handleRadarPress] (lines 24-51); the second component is the title of
    the alert shown, if any. *)
Definition handleRadarPress (locationX locationY : number) (r : Radar.t)
    : Radar.t * option string :=
  if negb (Radar.isCreatingZone r) then (r, None)
  else
    let radarX := (locationX - svgWidth / 2)%float in
    let radarY := (locationY - sensorY)%float in
    let newPoint := Point.mk (radarX / scale)%float (radarY / scale)%float in
    if withinRange newPoint then
      (Radar.mk (Radar.isCreatingZone r) (Radar.zonePoints r ++ [newPoint])
         (Radar.isWaitingForName r) (Radar.tempZonePoints r ++ [newPoint])
         (Radar.zoneName r), None)
    else (r, Some "Invalid Point").

(** [handleZoneButtonPress] (lines 54-73). *)
Definition handleZoneButtonPress (r : Radar.t) : Radar.t * option string :=
  if negb (Radar.isCreatingZone r) then
    (Radar.mk true [] (Radar.isWaitingForName r) [] (Radar.zoneName r), None)
  else if (3 <=? length (Radar.zonePoints r))%nat then
    (Radar.mk false (Radar.zonePoints r) true (Radar.tempZonePoints r)
       (Radar.zoneName r), None)
  else (r, Some "Invalid Zone").

(** [handleNameSubmit] together with the cells it resets after
    [onZoneCreated]. *)
Definition submitName (name : string) (now : Z) (zs : list Zone.t) (r : Radar.t)
    : Radar.t * SubmitResult :=
  match handleNameSubmit name now (Radar.zonePoints r) zs with
  | AlertShown title => (r, AlertShown title)
  | ZoneCreated zoneData =>
      (Radar.mk (Radar.isCreatingZone r) [] false [] "", ZoneCreated zoneData)
  end.

(** [handleCancel] (lines 109-114). *)
Definition handleCancel (r : Radar.t) : Radar.t :=
  Radar.mk (Radar.isCreatingZone r) [] false [] "".

Inductive RadarEvent : Type :=
  | RadarPress (locationX locationY : number)
  | ZoneButtonPress
  | NameSubmit (name : string) (now : Z) (zs : list Zone.t)
  | NameCancel
  | NameTyped (text : string).

Definition radarStep (r : Radar.t) (e : RadarEvent) : Radar.t :=
  match e with
  | RadarPress x y => (handleRadarPress x y r).1
  | ZoneButtonPress => (handleZoneButtonPress r).1
  | NameSubmit name now zs => (submitName name now zs r).1
  | NameCancel => handleCancel r
  | NameTyped text =>
      Radar.mk (Radar.isCreatingZone r) (Radar.zonePoints r) (Radar.isWaitingForName r)
        (Radar.tempZonePoints r) text
  end.

Definition radarRun (events : list RadarEvent) : Radar.t :=
  fold_left radarStep events initialRadar.

(** What every handler of the drawing cells preserves: the points drawn
    so far are within range, and the name is asked for only when there
    are at least three of them. *)
Definition drawingInvariant (r : Radar.t) : Prop :=
  Forall (λ p, withinRange p = true) (Radar.zonePoints r)
  ∧ (Radar.isWaitingForName r = true → Radar.isCreatingZone r = false →
     (3 ≤ length (Radar.zonePoints r))%nat).

(** ** Further definitions: the sensitivity slider of [DeviceSettings] *)

(** The integer [n] as a number; exact for [|n| <= 2^53]. *)
Definition number_of_Z (n : Z) : number :=
  if n <? 0 then (- PrimFloat.of_uint63 (Uint63.of_Z (- n)))%float
  else PrimFloat.of_uint63 (Uint63.of_Z n).

(** [Math.round(x)] on numbers: the integer nearest to [x], ties towards
    positive infinity; zeros, infinities, NaN and integers are returned
    as they are, and a result of zero keeps the sign of [x].  With
    [x = (-1)^s * m * 2^e] and [e < 0], the result is
    [floor ((±2m + 2^(-e)) / 2^(1-e))], computed exactly. *)
Definition Math_round_number (x : number) : number :=
  match FloatOps.Prim2SF x with
  | SpecFloat.S754_finite s m e =>
      if 0 <=? e then x
      else
        let n := Z.shiftr ((if s then -2 else 2) * Z.pos m + Z.shiftl 1 (- e)) (1 - e) in
        if n =? 0 then (if s then (-0)%float else 0%float) else number_of_Z n
  | _ => x
  end.

(** The cells of the component that the fall-detection handlers touch:
    three fields of [settings], [sliderValue] and the [isSliding] ref. *)
Module DeviceSettings.
Record t : Type := mk {
  fall_detection_enabled : bool;
  sensitivity : number;
  frame_time : number;
  sliderValue : number;
  isSliding : bool
}.
End DeviceSettings.

(** [handleMessage] on a 'fall_detection_settings' message, or on a
    'fall_detection_update' one whose status is 'success' (lines 74-123). *)
Definition handleSettingsMessage (enabled : bool) (sensitivity frame_time_ms : number)
    (d : DeviceSettings.t) : DeviceSettings.t :=
  let sliderSensitivity := Math_round_number (sensitivity * 100)%float in
  DeviceSettings.mk enabled sensitivity frame_time_ms sliderSensitivity
    (DeviceSettings.isSliding d).

(** [handleSliderStart], [handleSliderChange], [handleSliderComplete]
    (lines 196-220). *)
Definition handleSliderStart (d : DeviceSettings.t) : DeviceSettings.t :=
  DeviceSettings.mk (DeviceSettings.fall_detection_enabled d) (DeviceSettings.sensitivity d)
    (DeviceSettings.frame_time d) (DeviceSettings.sliderValue d) true.

Definition handleSliderChange (value : number) (d : DeviceSettings.t) : DeviceSettings.t :=
  if DeviceSettings.isSliding d then
    DeviceSettings.mk (DeviceSettings.fall_detection_enabled d) (DeviceSettings.sensitivity d)
      (DeviceSettings.frame_time d) (Math_round_number value) true
  else d.

Definition handleSliderComplete (value : number) (d : DeviceSettings.t) : DeviceSettings.t :=
  let roundedValue := Math_round_number value in
  let serverSensitivity := (roundedValue / 100)%float in
  DeviceSettings.mk (DeviceSettings.fall_detection_enabled d) serverSensitivity
    (DeviceSettings.frame_time d) roundedValue false.

(** The settings update that [handleSave] sends (lines 244-250). *)
Definition savedSensitivity (d : DeviceSettings.t) : number := DeviceSettings.sensitivity d.

(** *** Stores and inputs used in the further examples *)

(** The zone button, three presses on the radar, the zone button again. *)
Definition drawing_triangle : list RadarEvent :=
  [ZoneButtonPress; RadarPress 150 15; RadarPress 190 15; RadarPress 150 55;
   ZoneButtonPress].

Definition drawn_triangle : Zone.t :=
  Zone.mk "zone_1700000000000" "Hall" [Point.mk 0 0; Point.mk 1 0; Point.mk 0 1].

Definition empty_hall : Zone.t := Zone.mk "zone_1700000000000" "Hall" [].

(** A pong and a reset tick after a zone was created. *)
Definition quiet_events : list (Event * Z) :=
  [(Message open_render (json pong), 2000); (ResetTick, 3000)].


Definition two_target_updates : list (Z * Update) :=
  [(100, setTargets [target_a]); (200, setTargets [target_far])].

Definition default_settings : DeviceSettings.t :=
  DeviceSettings.mk true 0.5 100 50 false.

(** * Theorems *)

(** Case analysis on the cells of a store that the handlers branch on. *)
Ltac cases_of st :=
  destruct st as [? [[[]]|] ? ? ? ? ? ? [?|] ? ? ? ? ? ? ? [?|] [] ? [?|] ? ? ? ? ? ? ?].

(** ** Geometry *)

Section Geometry.
Implicit Types (target : Target.t) (points : list Point.t).

Lemma at_index_nat {A} (l : list A) (k : nat) : at_index l (Z.of_nat k) = l !! k.
Proof.
  unfold at_index. destruct (Z.ltb_spec (Z.of_nat k) 0); [lia|].
  by rewrite Nat2Z.id.
Qed.

Lemma edge_test_crosses target a b : edge_test target a b = crosses target (a, b).
Proof. reflexivity. Qed.

(** The loop from index [k] on, with [pj] the vertex at the trailing
    index, folds [toggle] over the remaining edges. *)
Lemma isTargetInZone_loop_spec target points :
  ∀ rest (k : nat) (j : Z) pj inside fuel,
    drop k points = rest →
    at_index points j = Some pj →
    (length rest < fuel)%nat →
    isTargetInZone_loop fuel target points (Z.of_nat k) j inside
    = Return (fold_left (toggle target) (zip rest (pj :: rest)) inside).
Proof.
  induction rest as [|p rest IH]; intros k j pj inside fuel Hdrop Hj Hfuel.
  - destruct fuel as [|fuel]; [simpl in Hfuel; lia|]. simpl.
    assert (length points ≤ k)%nat as Hlen.
    { destruct (decide (length points ≤ k)%nat) as [|Hn]; [done|].
      apply (f_equal length) in Hdrop. rewrite length_drop in Hdrop.
      simpl in Hdrop. lia. }
    destruct (Z.ltb_spec (Z.of_nat k) (Z.of_nat (length points))); [lia|done].
  - destruct fuel as [|fuel]; [simpl in Hfuel; lia|].
    assert (points !! k = Some p) as Hk.
    { rewrite <- (Nat.add_0_r k), <- lookup_drop, Hdrop. done. }
    assert (k < length points)%nat as Hlt by (by eapply lookup_lt_Some).
    cbn [isTargetInZone_loop].
    destruct (Z.ltb_spec (Z.of_nat k) (Z.of_nat (length points))); [|lia].
    rewrite at_index_nat, Hk, Hj.
    replace (Z.of_nat k + 1) with (Z.of_nat (S k)) by lia.
    rewrite (IH (S k) (Z.of_nat k) p); cycle 1.
    + rewrite (drop_S _ _ _ Hk) in Hdrop. congruence.
    + by rewrite at_index_nat.
    + simpl in Hfuel. lia.
    + reflexivity.
Qed.

Lemma isTargetInZone_total target zone :
  isTargetInZone target zone = Return (ray_crossing_rule target (Zone.points zone)).
Proof.
  unfold isTargetInZone, ray_crossing_rule, polygon_edges.
  destruct (last (Zone.points zone)) as [pn|] eqn:Hlast.
  - apply (isTargetInZone_loop_spec target (Zone.points zone)
             (Zone.points zone) 0%nat); [done| |lia].
    rewrite last_lookup in Hlast.
    destruct (Zone.points zone) as [|p0 ps]; [done|].
    replace (Z.of_nat (length (p0 :: ps)) - 1) with (Z.of_nat (length ps))
      by (simpl length; lia).
    by rewrite at_index_nat.
  - apply last_None in Hlast. rewrite Hlast. reflexivity.
Qed.

(** What [crosses] says, in words: exactly one endpoint strictly above,
    and the intersection strictly to the right. *)
Lemma crosses_iff target a b :
  crosses target (a, b) = true ↔
    ((js_gt (Point.y a) (Target.y target) = true
        ∧ js_gt (Point.y b) (Target.y target) = false)
     ∨ (js_gt (Point.y a) (Target.y target) = false
        ∧ js_gt (Point.y b) (Target.y target) = true))
    ∧ js_lt (Target.x target) (x_intersection a b (Target.y target)) = true.
Proof.
  unfold crosses. rewrite andb_true_iff.
  destruct (js_gt (Point.y a) _), (js_gt (Point.y b) _); simpl; intuition congruence.
Qed.

End Geometry.

(** C2: for every point and polygon, [isTargetInZone] returns the parity of
    the horizontal-ray crossings over the wrap-around edges, an edge being
    a crossing exactly when one endpoint is strictly above the point's y,
    the other is not, and the x-intersection is strictly greater than the
    point's x; on the unit square (0.5,0.5) is inside and (2,2) outside. *)
Theorem C2_isTargetInZone_ray_crossing :
  (∀ target zone,
     isTargetInZone target zone
     = Return (fold_left (λ inside e, if crosses target e then negb inside else inside)
                 (polygon_edges (Zone.points zone)) false))
  ∧ (∀ target a b,
       crosses target (a, b) = true ↔
         ((js_gt (Point.y a) (Target.y target) = true
             ∧ js_gt (Point.y b) (Target.y target) = false)
          ∨ (js_gt (Point.y a) (Target.y target) = false
             ∧ js_gt (Point.y b) (Target.y target) = true))
         ∧ js_lt (Target.x target) (x_intersection a b (Target.y target)) = true)
  ∧ isTargetInZone (Target.mk "t" 0.5 0.5) unit_square = Return true
  ∧ isTargetInZone (Target.mk "t" 2 2) unit_square = Return false.
Proof.
  split; [|split; [|split]].
  - intros target zone. apply isTargetInZone_total.
  - apply crosses_iff.
  - reflexivity.
  - reflexivity.
Qed.

(** C9, as the claim states it, fails: a zone with the two vertices (0,0)
    and (1,3) contains, for the test, the target (0.333..., 1).  Walking
    the segment from either end rounds the intersection differently, and
    the target's x lies between the two results; the occupancy engine then
    reports the zone active. *)
Lemma C9_two_vertex_zone_counterexample :
  (length (Zone.points two_vertex_zone) < 3)%nat
  ∧ isTargetInZone target_beside_segment two_vertex_zone = Return true
  ∧ ((λ st, elements (activeZones st))
       <$> engineStep 100 (setTargets [target_beside_segment])
             (set_zones [two_vertex_zone] initialStore))
    = Return ["zone_2"].
Proof. split; [simpl; lia|]. split; vm_compute; reflexivity. Qed.

(** C9, amended: the test never raises; it returns false for a polygon
    with no vertex or one vertex, and for two vertices that are not on
    strictly opposite sides of the horizontal line through the point; for
    two vertices on opposite sides it returns whether the intersections
    computed from the two ends fall on different sides of the point. *)
Theorem C9_degenerate_polygon (target : Target.t) (zone : Zone.t) :
  (length (Zone.points zone) < 3)%nat →
  (∃ inside, isTargetInZone target zone = Return inside)
  ∧ ((length (Zone.points zone) ≤ 1)%nat → isTargetInZone target zone = Return false)
  ∧ (∀ a b, Zone.points zone = [a; b] →
       isTargetInZone target zone
       = Return (xorb (crosses target (a, b)) (crosses target (b, a)))
       ∧ (xorb (js_gt (Point.y a) (Target.y target))
               (js_gt (Point.y b) (Target.y target)) = false →
          isTargetInZone target zone = Return false)).
Proof.
  intros Hlen. rewrite isTargetInZone_total. split; [eauto|]. split.
  - intros Hle. f_equal. unfold ray_crossing_rule, polygon_edges.
    destruct (Zone.points zone) as [|a [|b ps]]; [done| |simpl in Hle; lia].
    simpl. unfold toggle, crosses.
    by rewrite xorb_nilpotent.
  - intros a b ->. unfold ray_crossing_rule, polygon_edges. simpl.
    split.
    + change (Return (toggle target (toggle target false (a, b)) (b, a)) = Return (xorb (crosses target (a, b)) (crosses target (b, a)))).
      unfold toggle. by destruct (crosses target (a, b)), (crosses target (b, a)).
    + intros Hside. unfold toggle, crosses. rewrite Hside.
      by rewrite xorb_comm, Hside.
Qed.

Lemma C9_degenerate_polygon_witness :
  ((length (Zone.points one_vertex_zone) < 3)%nat
   ∧ (length (Zone.points one_vertex_zone) ≤ 1)%nat
   ∧ isTargetInZone target_beside_segment one_vertex_zone = Return false)
  ∧ ((length (Zone.points two_vertex_zone) < 3)%nat
     ∧ Zone.points two_vertex_zone = [Point.mk 0 0; Point.mk 1 3]
     ∧ isTargetInZone target_beside_segment two_vertex_zone
       = Return (xorb (crosses target_beside_segment (Point.mk 0 0, Point.mk 1 3))
                      (crosses target_beside_segment (Point.mk 1 3, Point.mk 0 0))))
  ∧ (xorb (js_gt 0 (Target.y target_above)) (js_gt 3 (Target.y target_above)) = false
     ∧ isTargetInZone target_above two_vertex_zone = Return false).
Proof.
  assert ((length (Zone.points one_vertex_zone) < 3)%nat) as H1 by (simpl; lia).
  assert ((length (Zone.points two_vertex_zone) < 3)%nat) as H2 by (simpl; lia).
  split; [|split].
  - split; [exact H1|]. split; [simpl; lia|].
    destruct (C9_degenerate_polygon target_beside_segment one_vertex_zone H1)
      as (_ & Hfalse & _).
    apply Hfalse. simpl. lia.
  - split; [exact H2|]. split; [reflexivity|].
    destruct (C9_degenerate_polygon target_beside_segment two_vertex_zone H2)
      as (_ & _ & Hpair).
    exact (proj1 (Hpair (Point.mk 0 0) (Point.mk 1 3) eq_refl)).
  - split; [reflexivity|].
    destruct (C9_degenerate_polygon target_above two_vertex_zone H2) as (_ & _ & Hpair).
    apply (proj2 (Hpair (Point.mk 0 0) (Point.mk 1 3) eq_refl)). reflexivity.
Defined.

(** ** The occupancy engine *)

Section Occupancy.
Implicit Types (zone : Zone.t) (zs : list Zone.t) (ts : list Target.t)
  (prev : gset string) (acc : ZoneScan) (st : Store).

Lemma filter_c_total {A} (p : A → completion bool) (q : A → bool) (l : list A) :
  (∀ a, p a = Return (q a)) → filter_c p l = Return (List.filter q l).
Proof.
  intros Hp. induction l as [|a l IH]; [done|].
  simpl. rewrite Hp, IH. simpl. by destruct (q a).
Qed.

Lemma forEach_c_total {A S} (f : A → S → completion S) (g : A → S → S) (l : list A) :
  (∀ a s, f a s = Return (g a s)) →
  ∀ s, forEach_c f l s = Return (fold_left (λ s a, g a s) l s).
Proof.
  intros Hf. induction l as [|a l IH]; intros s; [done|].
  simpl. rewrite Hf. simpl. apply IH.
Qed.

Lemma isTargetInZone_inZone target zone :
  isTargetInZone target zone = Return (inZone target zone).
Proof. unfold inZone. by rewrite isTargetInZone_total. Qed.

Lemma copy_targets ts :
  (λ t, Target.mk (Target.id t) (Target.x t) (Target.y t)) <$> ts = ts.
Proof. induction ts as [|[]]; [done|]. simpl. by f_equal. Qed.

Lemma push_entries_eq key entries (obj : gmap string (list ZoneLogEntry.t)) :
  push_entries key entries obj
  = if inherited key && bool_decide (obj !! key = None) then TypeError
    else Return (<[key := default [] (obj !! key) ++ entries]> obj).
Proof.
  unfold push_entries. destruct (obj !! key) as [own|] eqn:Hkey.
  - rewrite (bool_decide_eq_false_2 (Some own = None)) by done.
    by rewrite andb_false_r.
  - rewrite (bool_decide_eq_true_2 (None = None)) by done.
    rewrite andb_true_r. by destruct (inherited key).
Qed.

(** The callback either raises or leaves what [scanned] says; it raises
    only at a zone that changes state and whose id is a name of
    [Object.prototype]. *)
Lemma scan_step_eq now prev zone ts acc :
  scan_step now prev zone (targetsInside zone ts) acc
  = if flips prev zone ts && inherited (Zone.id zone)
       && bool_decide (newLogs acc !! Zone.id zone = None)
    then TypeError else Return (scanned now prev ts zone acc).
Proof.
  unfold scan_step, scanned, flips, transitionEntry. fold (isOccupied zone ts).
  rewrite copy_targets.
  destruct (Bool.eqb _ _); simpl; [done|].
  rewrite push_entries_eq. by destruct (inherited _ && _).
Qed.

Lemma scan_zone_eq now prev zone ts acc :
  scan_zone now ts prev zone acc = scan_step now prev zone (targetsInside zone ts) acc.
Proof.
  unfold scan_zone.
  rewrite (filter_c_total _ (λ target, inZone target zone)); [done|].
  intros a. apply isTargetInZone_inZone.
Qed.

Lemma scan_cons now prev ts zone zs acc :
  scan now prev ts (zone :: zs) acc = scan now prev ts zs (scanned now prev ts zone acc).
Proof. reflexivity. Qed.

(** If the [forEach] returns, it returns what [scan] says. *)
Lemma forEach_scan_Return now prev ts zs acc sc :
  forEach_c (scan_zone now ts prev) zs acc = Return sc → sc = scan now prev ts zs acc.
Proof.
  revert acc. induction zs as [|zone zs IH]; intros acc; simpl.
  - congruence.
  - rewrite scan_zone_eq, scan_step_eq. destruct (_ && _ && _); [done|]. simpl. apply IH.
Qed.

(** It returns when every zone that changes state has a plain id. *)
Lemma forEach_scan now prev ts zs acc :
  Forall (λ zone, flips prev zone ts = false ∨ inherited (Zone.id zone) = false) zs →
  forEach_c (scan_zone now ts prev) zs acc = Return (scan now prev ts zs acc).
Proof.
  revert acc. induction zs as [|zone zs IH]; intros acc Hok; [done|].
  apply Forall_cons in Hok as [Hzone Hok]. simpl.
  rewrite scan_zone_eq, scan_step_eq.
  assert (flips prev zone ts && inherited (Zone.id zone) = false) as ->
    by (destruct Hzone as [-> | ->]; [done|apply andb_false_r]).
  simpl. by apply IH.
Qed.

Lemma plainIds_pushes prev ts zs :
  plainIds zs →
  Forall (λ zone, flips prev zone ts = false ∨ inherited (Zone.id zone) = false) zs.
Proof. intros Hplain. eapply Forall_impl; [exact Hplain|]. auto. Qed.

Lemma no_flip_pushes prev ts zs :
  existsb (λ zone, flips prev zone ts) zs = false →
  Forall (λ zone, flips prev zone ts = false ∨ inherited (Zone.id zone) = false) zs.
Proof.
  induction zs as [|zone zs IH]; [constructor|]. simpl.
  intros [Hz Hzs]%orb_false_iff. constructor; auto.
Qed.

Lemma scan_current now prev ts zs acc :
  currentActiveZones (scan now prev ts zs acc)
  = occupiedZones zs ts ∪ currentActiveZones acc.
Proof.
  revert acc. induction zs as [|zone zs IH]; intros acc.
  - unfold occupiedZones. simpl. set_solver.
  - rewrite scan_cons, IH. unfold scanned.
    unfold occupiedZones. simpl. destruct (isOccupied zone ts); simpl; set_solver.
Qed.

Lemma scan_newLogs now prev ts zs acc zoneId :
  newLogs (scan now prev ts zs acc) !! zoneId
  = match flipEntries now prev ts zs zoneId with
    | [] => newLogs acc !! zoneId
    | es => Some (default [] (newLogs acc !! zoneId) ++ es)
    end.
Proof.
  revert acc. induction zs as [|zone zs IH]; intros acc; [done|].
  rewrite scan_cons, IH. unfold scanned. simpl.
  destruct (flips prev zone ts) eqn:Hf; rewrite ?andb_true_r, ?andb_false_r; simpl.
  - case_bool_decide as Hid; simpl.
    + subst zoneId. rewrite lookup_insert_eq. simpl.
      destruct (flipEntries _ _ _ _ _); [done|]. by rewrite <- app_assoc.
    + by rewrite lookup_insert_ne.
  - done.
Qed.

Lemma scan_hasChanges now prev ts zs acc :
  hasChanges (scan now prev ts zs acc)
  = hasChanges acc || existsb (λ zone, flips prev zone ts) zs.
Proof.
  revert acc. induction zs as [|zone zs IH]; intros acc.
  - simpl. by rewrite orb_false_r.
  - rewrite scan_cons, IH. unfold scanned. simpl.
    destruct (flips prev zone ts), (hasChanges acc); done.
Qed.

Lemma flipEntries_no_change now prev ts zs zoneId :
  existsb (λ zone, flips prev zone ts) zs = false →
  flipEntries now prev ts zs zoneId = [].
Proof.
  induction zs as [|zone zs IH]; [done|]. simpl.
  intros [-> Hzs]%orb_false_iff. rewrite andb_false_r. simpl. auto.
Qed.

Lemma flipEntries_absent now prev ts zs (zoneId : string) :
  zoneId ∉ Zone.id <$> zs → flipEntries now prev ts zs zoneId = [].
Proof.
  induction zs as [|zone zs IH]; [done|]. simpl.
  intros Hnot. apply not_elem_of_cons in Hnot as [Hne Hnot].
  rewrite bool_decide_eq_false_2 by done. simpl. auto.
Qed.

(** The keys of [newLogs] after a scan are ids of the zone list. *)
Lemma scan_newLogs_keys now prev ts zs (key : string) :
  is_Some (newLogs (scan now prev ts zs emptyScan) !! key) → key ∈ Zone.id <$> zs.
Proof.
  rewrite scan_newLogs. intros Hsome.
  destruct (decide (key ∈ Zone.id <$> zs)) as [|Hnot]; [done|].
  rewrite (flipEntries_absent _ _ _ _ _ Hnot) in Hsome. simpl in Hsome.
  rewrite lookup_empty in Hsome. by destruct Hsome.
Qed.

Lemma appended_lookup (prevLogs new : gmap string (list ZoneLogEntry.t)) zoneId :
  appended prevLogs new !! zoneId
  = match new !! zoneId with
    | Some es => Some (default [] (prevLogs !! zoneId) ++ es)
    | None => prevLogs !! zoneId
    end.
Proof.
  unfold appended. rewrite lookup_union_with.
  by destruct (prevLogs !! zoneId), (new !! zoneId).
Qed.

(** The pushes over a list of keys without repetition: they raise, or
    give [appended]. *)
Lemma push_all_eq (prevLogs : gmap string (list ZoneLogEntry.t))
    (l : list (string * list ZoneLogEntry.t)) :
  NoDup l.*1 →
  foldr (λ '(zoneId, entries) res,
           updatedLogs ← res; push_entries zoneId entries updatedLogs)
        (Return prevLogs) l
  = if existsb (λ ke, inherited ke.1 && bool_decide (prevLogs !! ke.1 = None)) l
    then TypeError else Return (appended prevLogs (list_to_map l)).
Proof.
  induction l as [|[key es] l IH]; intros Hnd.
  - simpl. f_equal. apply map_eq. intros i. by rewrite appended_lookup, lookup_empty.
  - apply NoDup_cons in Hnd as [Hnot Hnd]. cbn [foldr existsb fst]. rewrite (IH Hnd).
    rewrite orb_comm.
    destruct (existsb _ l); [done|]. cbn [orb].
    assert (list_to_map l !! key = (None : option (list ZoneLogEntry.t))) as Hfresh
      by (by apply not_elem_of_list_to_map_1).
    change (push_entries key es (appended prevLogs (list_to_map l))
            = if inherited key && bool_decide (prevLogs !! key = None) then TypeError
              else Return (appended prevLogs (list_to_map ((key, es) :: l)))).
    rewrite push_entries_eq, appended_lookup, Hfresh.
    destruct (inherited key && _); [done|]. f_equal.
    apply map_eq. intros i. rewrite appended_lookup. cbn [list_to_map foldr].
    destruct (decide (i = key)) as [->|Hne].
    + by rewrite !lookup_insert_eq.
    + by rewrite !lookup_insert_ne, appended_lookup.
Qed.

Lemma append_logs_eq (prevLogs new : gmap string (list ZoneLogEntry.t)) :
  append_logs prevLogs new
  = if existsb (λ ke, inherited ke.1 && bool_decide (prevLogs !! ke.1 = None))
         (map_to_list new)
    then TypeError else Return (appended prevLogs new).
Proof.
  unfold append_logs. rewrite push_all_eq by apply NoDup_fst_map_to_list.
  by rewrite list_to_map_to_list.
Qed.

Lemma append_logs_Return (prevLogs new logs : gmap string (list ZoneLogEntry.t)) :
  append_logs prevLogs new = Return logs → logs = appended prevLogs new.
Proof. rewrite append_logs_eq. destruct (existsb _ _); congruence. Qed.

Lemma append_logs_plain (prevLogs new : gmap string (list ZoneLogEntry.t)) :
  (∀ key, is_Some (new !! key) → inherited key = false) →
  append_logs prevLogs new = Return (appended prevLogs new).
Proof.
  intros Hplain. rewrite append_logs_eq.
  destruct (existsb _ _) eqn:Hex; [|done].
  apply existsb_exists in Hex as ([key es] & Hin & Hbad).
  apply list_elem_of_In, elem_of_map_to_list in Hin.
  simpl in Hbad. rewrite (Hplain key) in Hbad by eauto. done.
Qed.

(** What the effect leaves when no [push] raises. *)
Lemma occupancyEffect_Return now st st' :
  occupancyEffect now st = Return st' → st' = observed now st.
Proof.
  unfold occupancyEffect, observed, skipped.
  destruct (_ || _); [congruence|].
  destruct (forEach_c _ _ _) as [sc| |] eqn:Hscan; simpl; [|done|done].
  apply forEach_scan_Return in Hscan. subst sc. by intros [= <-].
Qed.

Lemma occupancyEffect_plain now st :
  Forall (λ zone, flips (prevActiveZonesRef st) zone (targets st) = false
                  ∨ inherited (Zone.id zone) = false) (zones st) →
  occupancyEffect now st = Return (observed now st).
Proof.
  intros Hok. unfold occupancyEffect, observed, skipped.
  destruct (_ || _); [done|].
  by rewrite (forEach_scan _ _ _ _ _ Hok).
Qed.

(** An animation frame touches the zone logs, the active set and the
    queue of frames only. *)
Lemma batchedUpdates_Return b st st' :
  batchedUpdates b st = Return st' →
  st' = set_activeZones (batch_currentActiveZones b)
          (set_zoneLogs (appended (zoneLogs st) (batch_newLogs b)) st).
Proof.
  unfold batchedUpdates.
  destruct (append_logs _ _) as [logs| |] eqn:Hlogs; simpl; [|done|done].
  apply append_logs_Return in Hlogs. congruence.
Qed.

Lemma forEach_batchedUpdates_cells bs : ∀ st st',
  forEach_c batchedUpdates bs st = Return st' →
  ∃ logs active, st' = set_activeZones active (set_zoneLogs logs st).
Proof.
  induction bs as [|b bs IH]; intros st st'; simpl.
  - intros [= <-]. exists (zoneLogs st), (activeZones st). by destruct st.
  - destruct (batchedUpdates b st) as [st1| |] eqn:Hb; simpl; [|done|done].
    apply batchedUpdates_Return in Hb. intros Hrest.
    destruct (IH _ _ Hrest) as (logs & active & ->).
    exists logs, active. subst st1. by destruct st.
Qed.

Lemma runAnimationFrame_cells st st' :
  runAnimationFrame st = Return st' →
  ∃ logs active, st' = set_activeZones active (set_zoneLogs logs (set_frames [] st)).
Proof. apply forEach_batchedUpdates_cells. Qed.

Lemma elem_of_occupiedZones zs ts (zoneId : string) :
  zoneId ∈ occupiedZones zs ts
  ↔ ∃ zone, zone ∈ zs ∧ Zone.id zone = zoneId ∧ isOccupied zone ts = true.
Proof.
  unfold occupiedZones. rewrite elem_of_list_to_set, list_elem_of_fmap.
  split.
  - intros (zone & -> & Hin). apply list_elem_of_In, filter_In in Hin as [Hin Hocc].
    exists zone. by rewrite list_elem_of_In.
  - intros (zone & Hin & <- & Hocc). exists zone. split; [done|].
    apply list_elem_of_In, filter_In. by rewrite <- list_elem_of_In.
Qed.

Lemma flipEntries_distinct now prev ts zs (zoneId : string) :
  distinctIds zs →
  flipEntries now prev ts zs zoneId
  = match List.find (λ zone, bool_decide (Zone.id zone = zoneId)) zs with
    | Some zone => if flips prev zone ts then [transitionEntry now zone ts] else []
    | None => []
    end.
Proof.
  unfold distinctIds. induction zs as [|zone zs IH]; [done|]. simpl.
  intros [Hnot Hnd]%NoDup_cons. case_bool_decide as Hid; simpl.
  - subst zoneId. rewrite flipEntries_absent by done. by rewrite app_nil_r.
  - auto.
Qed.

Lemma occupiedZones_distinct zs ts (zoneId : string) :
  distinctIds zs →
  bool_decide (zoneId ∈ occupiedZones zs ts)
  = match List.find (λ zone, bool_decide (Zone.id zone = zoneId)) zs with
    | Some zone => isOccupied zone ts
    | None => false
    end.
Proof.
  unfold distinctIds. induction zs as [|zone zs IH]; simpl.
  - intros _. apply bool_decide_eq_false_2. unfold occupiedZones. simpl. set_solver.
  - intros [Hnot Hnd]%NoDup_cons.
    destruct (decide (Zone.id zone = zoneId)) as [Hid|Hid].
    + rewrite (bool_decide_eq_true_2 (Zone.id zone = zoneId)) by done.
      subst zoneId. destruct (isOccupied zone ts) eqn:Hocc.
      * apply bool_decide_eq_true_2, elem_of_occupiedZones.
        exists zone. split; [left|done].
      * apply bool_decide_eq_false_2. intros (z & Hz & Hzid & Hzocc)%elem_of_occupiedZones.
        apply elem_of_cons in Hz as [->|Hz]; [congruence|].
        apply Hnot. rewrite <- Hzid. by apply list_elem_of_fmap_2.
    + rewrite (bool_decide_eq_false_2 (Zone.id zone = zoneId)) by done.
      rewrite <- IH by done. apply bool_decide_ext.
      rewrite !elem_of_occupiedZones. split.
      * intros (z & Hz & Hzid & Hzocc).
        apply elem_of_cons in Hz as [->|Hz]; [congruence|]. eauto.
      * intros (z & Hz & Hzid & Hzocc). exists z. split; [by right|done].
Qed.

Lemma find_id_Some zs zone (zoneId : string) :
  List.find (λ zone, bool_decide (Zone.id zone = zoneId)) zs = Some zone →
  zone ∈ zs ∧ Zone.id zone = zoneId.
Proof.
  intros [Hin Hid]%find_some. rewrite list_elem_of_In.
  split; [done|]. by apply bool_decide_eq_true in Hid.
Qed.

Lemma applyUpdate_cells u st :
  zones (applyUpdate u st) = zonesAfter u (zones st)
  ∧ targets (applyUpdate u st) = targetsAfter u (targets st)
  ∧ prevActiveZonesRef (applyUpdate u st) = prevActiveZonesRef st
  ∧ frames (applyUpdate u st) = frames st
  ∧ zoneLogs (applyUpdate u st) = zoneLogs st
  ∧ activeZones (applyUpdate u st) = activeZones st.
Proof. by destruct st, u. Qed.

(** One update, its effect and the following frame, when they return. *)
Lemma engineStep_Return now u st st' :
  frames st = [] →
  engineStep now u st = Return st' →
  frames st' = []
  ∧ zones st' = zonesAfter u (zones st)
  ∧ targets st' = targetsAfter u (targets st)
  ∧ if skipped (zones st') (targets st') then
      zoneLogs st' = zoneLogs st
      ∧ prevActiveZonesRef st' = prevActiveZonesRef st
      ∧ activeZones st' = activeZones st
    else
      (∀ zoneId, logsOf st' zoneId
                 = logsOf st zoneId
                   ++ flipEntries now (prevActiveZonesRef st) (targets st') (zones st') zoneId)
      ∧ prevActiveZonesRef st' = occupiedZones (zones st') (targets st')
      ∧ activeZones st'
        = if existsb (λ zone, flips (prevActiveZonesRef st) zone (targets st')) (zones st')
          then occupiedZones (zones st') (targets st')
          else activeZones st.
Proof.
  intros Hframes. unfold engineStep.
  destruct (occupancyEffect now (applyUpdate u st)) as [st1| |] eqn:Heff; simpl;
    [|done|done].
  apply occupancyEffect_Return in Heff. subst st1. unfold observed.
  destruct (applyUpdate_cells u st) as (Hz & Ht & Hp & Hf & Hl & Ha).
  rewrite Hframes in Hf. rewrite Hz, Ht, Hp.
  set (st0 := applyUpdate u st) in *.
  set (zs := zonesAfter u (zones st)) in *. set (ts := targetsAfter u (targets st)) in *.
  destruct (skipped zs ts) eqn:Hskip.
  - unfold runAnimationFrame. rewrite Hf. simpl. intros [= <-].
    assert (zones (set_frames [] st0) = zs ∧ targets (set_frames [] st0) = ts
            ∧ zoneLogs (set_frames [] st0) = zoneLogs st
            ∧ prevActiveZonesRef (set_frames [] st0) = prevActiveZonesRef st
            ∧ activeZones (set_frames [] st0) = activeZones st
            ∧ frames (set_frames [] st0) = []) as (-> & -> & -> & -> & -> & ->)
      by (destruct st0; simpl in *; by subst).
    by rewrite Hskip.
  - cbv zeta.
    pose proof (scan_current now (prevActiveZonesRef st) ts zs emptyScan) as Hcur.
    pose proof (scan_hasChanges now (prevActiveZonesRef st) ts zs emptyScan) as Hch.
    pose proof (λ zoneId, scan_newLogs now (prevActiveZonesRef st) ts zs emptyScan zoneId) as Hnl.
    simpl in Hch, Hcur, Hnl.
    assert (currentActiveZones (scan now (prevActiveZonesRef st) ts zs emptyScan)
            = occupiedZones zs ts) as Hcur' by (rewrite Hcur; set_solver).
    clear Hcur.
    destruct (scan now (prevActiveZonesRef st) ts zs emptyScan) as [cur nl ch].
    simpl in *. subst cur ch.
    destruct (existsb _ zs) eqn:Hex.
    + unfold runAnimationFrame, requestAnimationFrame.
      assert (frames (set_prevActiveZonesRef (occupiedZones zs ts)
                        (set_frames (frames st0 ++ [{| batch_newLogs := nl;
                            batch_currentActiveZones := occupiedZones zs ts |}]) st0))
              = [{| batch_newLogs := nl; batch_currentActiveZones := occupiedZones zs ts |}])
        as -> by (destruct st0; simpl in *; by subst).
      simpl.
      destruct (batchedUpdates _ _) as [st2| |] eqn:Hb; simpl; [|done|done].
      apply batchedUpdates_Return in Hb. intros [= <-]. subst st2.
      assert (∀ logs active (st3 : Store),
                st3 = set_activeZones active
                        (set_zoneLogs logs
                           (set_frames []
                              (set_prevActiveZonesRef (occupiedZones zs ts)
                                 (set_frames (frames st0 ++ [{| batch_newLogs := nl;
                                     batch_currentActiveZones := occupiedZones zs ts |}]) st0)))) →
                frames st3 = [] ∧ zones st3 = zs ∧ targets st3 = ts
                ∧ zoneLogs st3 = logs ∧ prevActiveZonesRef st3 = occupiedZones zs ts
                ∧ activeZones st3 = active) as Hcells
        by (intros logs active st3 ->; destruct st0; simpl in *; by subst).
      edestruct Hcells as (-> & -> & -> & Hlogs & -> & ->); [reflexivity|].
      rewrite Hskip, Hex. repeat split; try done.
      intros zoneId. unfold logsOf. rewrite Hlogs. simpl.
      assert (zoneLogs (set_frames []
                (set_prevActiveZonesRef (occupiedZones zs ts)
                   (set_frames (frames st0 ++ [{| batch_newLogs := nl;
                       batch_currentActiveZones := occupiedZones zs ts |}]) st0)))
              = zoneLogs st) as -> by (destruct st0; simpl in *; by subst).
      rewrite appended_lookup, Hnl, lookup_empty. simpl.
      destruct (flipEntries _ _ _ _ zoneId); simpl; by rewrite ?app_nil_r.
    + unfold runAnimationFrame.
      assert (frames (set_prevActiveZonesRef (occupiedZones zs ts) st0) = []) as ->
        by (destruct st0; simpl in *; by subst).
      simpl. intros [= <-].
      assert (zones (set_frames [] (set_prevActiveZonesRef (occupiedZones zs ts) st0)) = zs
              ∧ targets (set_frames [] (set_prevActiveZonesRef (occupiedZones zs ts) st0)) = ts
              ∧ zoneLogs (set_frames [] (set_prevActiveZonesRef (occupiedZones zs ts) st0))
                = zoneLogs st
              ∧ prevActiveZonesRef
                  (set_frames [] (set_prevActiveZonesRef (occupiedZones zs ts) st0))
                = occupiedZones zs ts
              ∧ activeZones (set_frames [] (set_prevActiveZonesRef (occupiedZones zs ts) st0))
                = activeZones st
              ∧ frames (set_frames [] (set_prevActiveZonesRef (occupiedZones zs ts) st0)) = [])
        as (Hz' & Ht' & Hl' & Hp' & Ha' & Hf')
        by (destruct st0; simpl in *; by subst).
      rewrite Hz', Ht', Hp', Ha', Hf', Hskip, Hex. repeat split; try done.
      intros zoneId. unfold logsOf. rewrite Hl'.
      rewrite (flipEntries_no_change _ _ _ _ _ Hex). by rewrite app_nil_r.
Qed.

(** With plain zone ids the update, its effect and the frame return. *)
Lemma engineStep_returns now u st :
  frames st = [] → plainIds (zonesAfter u (zones st)) →
  ∃ st', engineStep now u st = Return st'.
Proof.
  intros Hframes Hplain. unfold engineStep.
  destruct (applyUpdate_cells u st) as (Hz & Ht & Hp & Hf & _).
  rewrite Hframes in Hf.
  rewrite occupancyEffect_plain by (rewrite Hz; by apply plainIds_pushes).
  simpl. unfold observed, runAnimationFrame.
  set (st0 := applyUpdate u st) in *.
  destruct (skipped _ _); [rewrite Hf; simpl; eauto|]. cbv zeta.
  set (sc := scan _ _ _ _ _).
  destruct (hasChanges sc).
  - assert (frames (set_prevActiveZonesRef (currentActiveZones sc)
                      (requestAnimationFrame
                         {| batch_newLogs := newLogs sc;
                            batch_currentActiveZones := currentActiveZones sc |} st0))
            = [{| batch_newLogs := newLogs sc;
                  batch_currentActiveZones := currentActiveZones sc |}]) as ->
      by (unfold requestAnimationFrame; destruct st0; simpl in *; by subst).
    simpl. unfold batchedUpdates. simpl.
    rewrite append_logs_plain; [simpl; eauto|].
    intros key Hkey. apply scan_newLogs_keys in Hkey.
    apply list_elem_of_fmap in Hkey as (zone & -> & Hin).
    rewrite <- Hz in Hplain. by apply (proj1 (Forall_forall _ _) Hplain).
  - assert (frames (set_prevActiveZonesRef (currentActiveZones sc) st0) = []) as ->
      by (destruct st0; simpl in *; by subst).
    simpl. eauto.
Qed.

Lemma engineStep_spec now u st :
  frames st = [] → plainIds (zonesAfter u (zones st)) →
  ∃ st', engineStep now u st = Return st'
    ∧ frames st' = []
    ∧ zones st' = zonesAfter u (zones st)
    ∧ targets st' = targetsAfter u (targets st)
    ∧ if skipped (zones st') (targets st') then
        zoneLogs st' = zoneLogs st
        ∧ prevActiveZonesRef st' = prevActiveZonesRef st
        ∧ activeZones st' = activeZones st
      else
        (∀ zoneId, logsOf st' zoneId
                   = logsOf st zoneId
                     ++ flipEntries now (prevActiveZonesRef st) (targets st') (zones st') zoneId)
        ∧ prevActiveZonesRef st' = occupiedZones (zones st') (targets st')
        ∧ activeZones st'
          = if existsb (λ zone, flips (prevActiveZonesRef st) zone (targets st')) (zones st')
            then occupiedZones (zones st') (targets st')
            else activeZones st.
Proof.
  intros Hframes Hplain.
  destruct (engineStep_returns now u st Hframes Hplain) as (st' & Hstep).
  exists st'. split; [done|]. by apply engineStep_Return.
Qed.
End Occupancy.

Section Runs.
Implicit Types (zone : Zone.t) (zs : list Zone.t) (ts : list Target.t) (st : Store).

Lemma isOccupied_iff zone ts :
  isOccupied zone ts = true
  ↔ ∃ target, target ∈ ts ∧ isTargetInZone target zone = Return true.
Proof.
  unfold isOccupied, targetsInside. rewrite Nat.ltb_lt. split.
  - intros Hlen. destruct (List.filter _ ts) as [|target l] eqn:Hf; [simpl in Hlen; lia|].
    assert (In target (List.filter (λ target, inZone target zone) ts)) as Hin
      by (rewrite Hf; by left).
    apply filter_In in Hin as [Hin Hz]. exists target.
    rewrite list_elem_of_In. split; [done|].
    by rewrite isTargetInZone_inZone, Hz.
  - intros (target & Hin & Hz).
    rewrite isTargetInZone_inZone in Hz. injection Hz as Hz.
    assert (In target (List.filter (λ target, inZone target zone) ts)) as Hin'
      by (apply filter_In; by rewrite <- list_elem_of_In).
    destruct (List.filter _ ts); [done|simpl; lia].
Qed.

Lemma isOccupied_false zone ts :
  isOccupied zone ts = false → targetsInside zone ts = [].
Proof.
  unfold isOccupied. rewrite Nat.ltb_ge.
  destruct (targetsInside zone ts); [done|simpl; lia].
Qed.

Lemma find_id_elem zs zone :
  distinctIds zs → zone ∈ zs →
  List.find (λ z, bool_decide (Zone.id z = Zone.id zone)) zs = Some zone.
Proof.
  unfold distinctIds. induction zs as [|z zs IH]; [by intros _ ?%elem_of_nil|].
  simpl. intros [Hnot Hnd]%NoDup_cons [->|Hin]%elem_of_cons.
  - by rewrite bool_decide_eq_true_2.
  - rewrite bool_decide_eq_false_2; [auto|].
    intros Heq. apply Hnot. rewrite Heq. by apply list_elem_of_fmap_2.
Qed.

(** Over a run, the log of a zone id grows by exactly the owed entries. *)
Lemma engineRun_log (zoneId : string) updates :
  ∀ st, frames st = [] → distinctIds (zones st) → updatesDistinctIds updates →
    plainIds (zones st) → updatesPlainIds updates →
    ∃ st', engineRun updates st = Return st'
      ∧ logsOf st' zoneId
        = logsOf st zoneId
          ++ expectedLog zoneId (bool_decide (zoneId ∈ prevActiveZonesRef st))
               (zones st) (targets st) updates.
Proof.
  induction updates as [|[now u] updates IH]; intros st Hfr Hd Hud Hpl Hup.
  - exists st. simpl. by rewrite app_nil_r.
  - apply Forall_cons in Hud as [Hu Hud]. simpl in Hu.
    apply Forall_cons in Hup as [Hpu Hup]. simpl in Hpu.
    assert (plainIds (zonesAfter u (zones st))) as Hpl' by (by destruct u).
    destruct (engineStep_spec now u st Hfr Hpl')
      as (st1 & Hstep & Hfr1 & Hz1 & Ht1 & Hcase).
    assert (distinctIds (zones st1)) as Hd1.
    { rewrite Hz1. destruct u; simpl; done. }
    assert (plainIds (zones st1)) as Hpl1 by (by rewrite Hz1).
    destruct (IH st1 Hfr1 Hd1 Hud Hpl1 Hup) as (st' & Hrun & Hlog).
    exists st'. split.
    { simpl. rewrite Hstep. simpl. exact Hrun. }
    rewrite Hlog. cbn [expectedLog]. rewrite <- Hz1, <- Ht1.
    destruct (skipped (zones st1) (targets st1)).
    + destruct Hcase as (Hl & Hp & _). unfold logsOf. by rewrite Hl, Hp.
    + destruct Hcase as (Hl & Hp & _).
      rewrite Hl, Hp, <- app_assoc. f_equal.
      rewrite flipEntries_distinct, occupiedZones_distinct by done.
      destruct (List.find _ (zones st1)) as [zone|] eqn:Hfind; [|done].
      apply find_id_Some in Hfind as [_ Hid]. unfold flips. rewrite Hid.
      by destruct (Bool.eqb _ _).
Qed.

Lemma occupiedZones_no_flip zs ts (prev : gset string) :
  existsb (λ zone, flips prev zone ts) zs = false →
  prev ⊆ list_to_set (Zone.id <$> zs) →
  occupiedZones zs ts = prev.
Proof.
  intros Hno Hsub.
  assert (∀ zone, zone ∈ zs → isOccupied zone ts = bool_decide (Zone.id zone ∈ prev)) as Hsame.
  { intros zone Hin. apply list_elem_of_In in Hin.
    destruct (flips prev zone ts) eqn:Hf.
    - assert (existsb (λ zone, flips prev zone ts) zs = true) as Hex
        by (apply existsb_exists; eauto).
      congruence.
    - unfold flips in Hf. apply negb_false_iff in Hf. by apply eqb_prop in Hf. }
  apply set_eq. intros zoneId. rewrite elem_of_occupiedZones. split.
  - intros (zone & Hin & <- & Hocc). rewrite (Hsame _ Hin) in Hocc.
    by apply bool_decide_eq_true in Hocc.
  - intros Hin. pose proof (Hsub _ Hin) as Hid.
    apply elem_of_list_to_set, list_elem_of_fmap in Hid as (zone & -> & Hz).
    exists zone. split; [done|]. split; [done|].
    rewrite (Hsame _ Hz). by apply bool_decide_eq_true_2.
Qed.

End Runs.

(** C1, as the claim states it, fails: the unit square becomes occupied,
    then the target list becomes empty; the occupancy boolean of the zone
    flips twice, yet its log holds the 'occupied' entry only: the effect
    returns at once on an empty list and no 'unoccupied' entry is made. *)
Lemma C1_last_target_leaves_counterexample :
  isOccupied unit_square [target_a] = true
  ∧ isOccupied unit_square [] = false
  ∧ ((λ st, logsOf st "zone_1")
       <$> engineRun [(100, setTargets [target_a]); (200, setTargets [])] watching)
    = Return [transitionEntry 100 unit_square [target_a]]
  ∧ ZoneLogEntry.type (transitionEntry 100 unit_square [target_a]) = occupied.
Proof. repeat split; vm_compute; reflexivity. Qed.

(** C1, amended: with distinct zone ids in every snapshot, none of them a
    name that a plain object inherits, a zone's log grows by exactly one
    entry at each update that is not skipped (both lists non-empty) and at
    which the zone's occupancy boolean differs from the one retained at
    the last such update: 'occupied' on false-to-true, 'unoccupied' on
    true-to-false, nothing otherwise; a skipped update adds nothing and
    keeps the retained boolean.  Over a run the log is the initial log
    followed by [expectedLog].  When the last target of a zone leaves and
    the target list stays non-empty, exactly one 'unoccupied' entry with
    no targets is appended. *)
Theorem C1_one_entry_per_observed_flip :
  (∀ zoneId updates st,
     frames st = [] → distinctIds (zones st) → updatesDistinctIds updates →
     plainIds (zones st) → updatesPlainIds updates →
     ∃ st', engineRun updates st = Return st'
       ∧ logsOf st' zoneId
         = logsOf st zoneId
           ++ expectedLog zoneId (bool_decide (zoneId ∈ prevActiveZonesRef st))
                (zones st) (targets st) updates)
  ∧ (∀ now u st zone,
       frames st = [] →
       distinctIds (zonesAfter u (zones st)) →
       plainIds (zonesAfter u (zones st)) →
       zone ∈ zonesAfter u (zones st) →
       ∃ st', engineStep now u st = Return st'
         ∧ logsOf st' (Zone.id zone)
           = logsOf st (Zone.id zone)
             ++ (let ts := targetsAfter u (targets st) in
                 if skipped (zonesAfter u (zones st)) ts then []
                 else if Bool.eqb (isOccupied zone ts)
                                  (bool_decide (Zone.id zone ∈ prevActiveZonesRef st))
                 then []
                 else [ {| ZoneLogEntry.timestamp := now;
                           ZoneLogEntry.type :=
                             if isOccupied zone ts then occupied else unoccupied;
                           ZoneLogEntry.targetCount := length (targetsInside zone ts);
                           ZoneLogEntry.targets := targetsInside zone ts |} ]))
  ∧ (∀ now ts st zone,
       frames st = [] → distinctIds (zones st) → plainIds (zones st) →
       zone ∈ zones st →
       ts ≠ [] →
       Zone.id zone ∈ prevActiveZonesRef st →
       isOccupied zone ts = false →
       ∃ st', engineStep now (setTargets ts) st = Return st'
         ∧ logsOf st' (Zone.id zone)
           = logsOf st (Zone.id zone) ++ [ZoneLogEntry.mk now unoccupied 0 []]).
Proof.
  assert (∀ now u st zone,
       frames st = [] →
       distinctIds (zonesAfter u (zones st)) →
       plainIds (zonesAfter u (zones st)) →
       zone ∈ zonesAfter u (zones st) →
       ∃ st', engineStep now u st = Return st'
         ∧ logsOf st' (Zone.id zone)
           = logsOf st (Zone.id zone)
             ++ (let ts := targetsAfter u (targets st) in
                 if skipped (zonesAfter u (zones st)) ts then []
                 else if Bool.eqb (isOccupied zone ts)
                                  (bool_decide (Zone.id zone ∈ prevActiveZonesRef st))
                 then []
                 else [transitionEntry now zone ts])) as Hstep.
  { intros now u st zone Hfr Hd Hpl Hin.
    destruct (engineStep_spec now u st Hfr Hpl) as (st1 & Hstep & _ & Hz1 & Ht1 & Hcase).
    exists st1. split; [done|]. cbv zeta. rewrite <- Hz1, <- Ht1.
    rewrite <- Hz1 in Hd, Hin.
    destruct (skipped (zones st1) (targets st1)).
    - destruct Hcase as (Hl & _). unfold logsOf. by rewrite Hl, app_nil_r.
    - destruct Hcase as (Hl & _). rewrite Hl. f_equal.
      rewrite flipEntries_distinct, (find_id_elem _ _ Hd Hin) by done.
      unfold flips. by destruct (Bool.eqb _ _). }
  split; [|split].
  - intros zoneId updates st. apply engineRun_log.
  - exact Hstep.
  - intros now ts st zone Hfr Hd Hpl Hin Hts Hwas Hocc.
    destruct (Hstep now (setTargets ts) st zone Hfr Hd Hpl Hin) as (st' & Hrun & Hlog).
    exists st'. split; [done|]. rewrite Hlog. f_equal. simpl.
    assert (skipped (zones st) ts = false) as ->.
    { unfold skipped. destruct (zones st); [by apply elem_of_nil in Hin|].
      by destruct ts. }
    rewrite Hocc, (bool_decide_eq_true_2 _ Hwas). simpl.
    unfold transitionEntry. by rewrite Hocc, (isOccupied_false _ _ Hocc).
Qed.

Lemma C1_one_entry_per_observed_flip_witness :
  (frames watching = [] ∧ distinctIds (zones watching)
   ∧ updatesDistinctIds [(100, setTargets [target_a]); (200, setTargets [target_far])]
   ∧ plainIds (zones watching)
   ∧ updatesPlainIds [(100, setTargets [target_a]); (200, setTargets [target_far])])
  ∧ (frames watching_occupied = [] ∧ distinctIds (zones watching_occupied)
     ∧ plainIds (zones watching_occupied)
     ∧ unit_square ∈ zones watching_occupied ∧ [target_far] ≠ []
     ∧ Zone.id unit_square ∈ prevActiveZonesRef watching_occupied
     ∧ isOccupied unit_square [target_far] = false)
  ∧ (∃ st', engineRun [(100, setTargets [target_a]); (200, setTargets [target_far])] watching
          = Return st'
     ∧ logsOf st' "zone_1"
       = logsOf watching "zone_1"
         ++ expectedLog "zone_1" (bool_decide ("zone_1" ∈ prevActiveZonesRef watching))
              (zones watching) (targets watching)
              [(100, setTargets [target_a]); (200, setTargets [target_far])])
  ∧ (∃ st', engineStep 200 (setTargets [target_far]) watching_occupied = Return st'
       ∧ logsOf st' (Zone.id unit_square)
         = logsOf watching_occupied (Zone.id unit_square)
           ++ [ZoneLogEntry.mk 200 unoccupied 0 []])
  ∧ (∃ st', engineStep 100 (setTargets [target_a]) watching = Return st'
       ∧ logsOf st' (Zone.id unit_square)
         = logsOf watching (Zone.id unit_square)
           ++ [ZoneLogEntry.mk 100 occupied 1 [target_a]]).
Proof.
  assert (distinctIds [unit_square]) as Hd by (apply NoDup_singleton).
  assert (plainIds [unit_square]) as Hpl by (repeat constructor).
  assert (updatesPlainIds [(100, setTargets [target_a]); (200, setTargets [target_far])])
    as Hup by (repeat constructor).
  split; [|split; [|split; [|split]]].
  - split; [reflexivity|]. split; [exact Hd|]. split; [repeat constructor|].
    split; [exact Hpl|exact Hup].
  - split; [reflexivity|]. split; [exact Hd|]. split; [exact Hpl|].
    split; [apply list_elem_of_here|].
    split; [discriminate|]. split; [vm_compute; reflexivity|reflexivity].
  - apply (proj1 C1_one_entry_per_observed_flip "zone_1");
      [reflexivity|exact Hd| |exact Hpl|exact Hup].
    repeat constructor.
  - apply (proj2 (proj2 C1_one_entry_per_observed_flip) 200 [target_far] watching_occupied unit_square).
    + reflexivity.
    + exact Hd.
    + exact Hpl.
    + apply list_elem_of_here.
    + discriminate.
    + vm_compute. reflexivity.
    + reflexivity.
  - apply (proj1 (proj2 C1_one_entry_per_observed_flip)
             100 (setTargets [target_a]) watching unit_square).
    + reflexivity.
    + exact Hd.
    + exact Hpl.
    + apply list_elem_of_here.
Defined.

(** C3, as the claim states it, fails: once the target list is empty the
    active-zone set still holds the unit square, which contains no current
    target. *)
Lemma C3_stale_active_zone_counterexample :
  ((λ st, (targets st, elements (activeZones st)))
     <$> engineRun [(100, setTargets [target_a]); (200, setTargets [])] watching)
  = Return ([], ["zone_1"]).
Proof. vm_compute. reflexivity. Qed.

(** C3, amended: after an update in which both lists are non-empty and
    no zone id is a name that a plain object inherits, the set the engine
    computes and retains is exactly the set of ids of the zones with at
    least one current target inside; the displayed
    active-zone set is replaced by that whole set when some zone of the
    list changes state and is left as it was otherwise, so it is never
    partially updated, and it equals the computed set whenever it agreed
    with the retained set before and no retained id has left the zone
    list.  After an update that leaves either list empty nothing is
    recomputed: both sets stay as they were. *)
Theorem C3_active_zone_set (now : Z) (u : Update) (st : Store) :
  frames st = [] → plainIds (zonesAfter u (zones st)) →
  ∃ st', engineStep now u st = Return st'
    ∧ zones st' = zonesAfter u (zones st)
    ∧ targets st' = targetsAfter u (targets st)
    ∧ if skipped (zones st') (targets st') then
        activeZones st' = activeZones st
        ∧ prevActiveZonesRef st' = prevActiveZonesRef st
      else
        (∀ zoneId,
           zoneId ∈ prevActiveZonesRef st'
           ↔ ∃ zone, zone ∈ zones st' ∧ Zone.id zone = zoneId
               ∧ ∃ target, target ∈ targets st'
                   ∧ isTargetInZone target zone = Return true)
        ∧ activeZones st'
          = (if existsb (λ zone, flips (prevActiveZonesRef st) zone (targets st')) (zones st')
             then prevActiveZonesRef st' else activeZones st)
        ∧ (activeZones st = prevActiveZonesRef st →
           prevActiveZonesRef st ⊆ list_to_set (Zone.id <$> zones st') →
           activeZones st' = prevActiveZonesRef st').
Proof.
  intros Hfr Hpl.
  destruct (engineStep_spec now u st Hfr Hpl) as (st1 & Hstep & _ & Hz1 & Ht1 & Hcase).
  exists st1. split; [done|]. split; [done|]. split; [done|].
  destruct (skipped (zones st1) (targets st1)).
  - by destruct Hcase as (_ & Hp & Ha).
  - destruct Hcase as (_ & Hp & Ha). rewrite Hp. split; [|split].
    + intros zoneId. rewrite elem_of_occupiedZones.
      by setoid_rewrite isOccupied_iff.
    + done.
    + intros Hagree Hsub. rewrite Ha.
      destruct (existsb _ (zones st1)) eqn:Hex; [done|].
      rewrite Hagree. symmetry. by apply occupiedZones_no_flip.
Qed.

Lemma C3_active_zone_set_witness :
  (frames watching = [] ∧ plainIds (zonesAfter (setTargets [target_a]) (zones watching)))
  ∧ ∃ st', engineStep 100 (setTargets [target_a]) watching = Return st'
      ∧ zones st' = [unit_square]
      ∧ targets st' = [target_a]
      ∧ (activeZones watching = prevActiveZonesRef watching
         ∧ prevActiveZonesRef watching ⊆ list_to_set (Zone.id <$> zones st'))
      ∧ activeZones st' = prevActiveZonesRef st'
      ∧ ("zone_1" ∈ prevActiveZonesRef st'
         ↔ ∃ zone, zone ∈ zones st' ∧ Zone.id zone = "zone_1"
             ∧ ∃ target, target ∈ targets st'
                 ∧ isTargetInZone target zone = Return true).
Proof.
  assert (plainIds (zonesAfter (setTargets [target_a]) (zones watching))) as Hpl
    by (repeat constructor).
  split; [split; [reflexivity|exact Hpl]|].
  destruct (C3_active_zone_set 100 (setTargets [target_a]) watching eq_refl Hpl)
    as (st' & Hstep & Hz & Ht & Hcase).
  exists st'. split; [exact Hstep|]. split; [exact Hz|]. split; [exact Ht|].
  assert (skipped (zones st') (targets st') = false) as Hskip
    by (rewrite Hz, Ht; reflexivity).
  rewrite Hskip in Hcase. destruct Hcase as (Hmem & _ & Hagree).
  assert (activeZones watching = prevActiveZonesRef watching
          ∧ prevActiveZonesRef watching ⊆ list_to_set (Zone.id <$> zones st')) as Hhyp
    by (split; [reflexivity|apply empty_subseteq]).
  split; [exact Hhyp|].
  split; [exact (Hagree (proj1 Hhyp) (proj2 Hhyp))|exact (Hmem "zone_1")].
Defined.

(** ** The dispatcher and the resync responses *)

Section Resync.

Lemma ws_onmessage_resync_cells (env : Closure) (now : Z) (st : Store) (data : Data) :
  match data with
  | zones_response (Some zs) | zones_data (Some zs) =>
      zones (ws_onmessage env (json data) now st) = Object_values zs
      ∧ zoneLogs (ws_onmessage env (json data) now st) = zoneLogs st
      ∧ fallLogs (ws_onmessage env (json data) now st) = fallLogs st
  | zone_logs_response (Some logs) =>
      zones (ws_onmessage env (json data) now st) = zones st
      ∧ zoneLogs (ws_onmessage env (json data) now st) = logs
      ∧ fallLogs (ws_onmessage env (json data) now st) = fallLogs st
  | fall_logs_response (Some falls) =>
      zones (ws_onmessage env (json data) now st) = zones st
      ∧ zoneLogs (ws_onmessage env (json data) now st) = zoneLogs st
      ∧ fallLogs (ws_onmessage env (json data) now st) = falls
  | _ => True
  end.
Proof. destruct data as [[?|]|? ?|[?|]|[?|]|[?|]|[?|]| | | | |]; by destruct st. Qed.

Lemma deliver_resync (env : Closure) (now : Z) (st : Store) zs logs falls :
  zones (deliver env now (resyncResponses zs logs falls) st) = Object_values zs
  ∧ zoneLogs (deliver env now (resyncResponses zs logs falls) st) = logs
  ∧ fallLogs (deliver env now (resyncResponses zs logs falls) st) = falls.
Proof. by destruct st. Qed.

End Resync.

(** C4, as the claim states it, fails: the occupancy entry the client
    derived for the unit square is gone once a zone_logs_response is
    handled, here one with an empty [logs] object. *)
Lemma C4_resync_discards_derived_log_counterexample :
  ((λ st, logsOf st "zone_1") <$> engineRun [(100, setTargets [target_a])] watching)
  = Return [transitionEntry 100 unit_square [target_a]]
  ∧ ((λ st, logsOf (ws_onmessage open_render (json (zone_logs_response (Some ∅))) 300 st)
              "zone_1")
       <$> engineRun [(100, setTargets [target_a])] watching)
    = Return [].
Proof. split; vm_compute; reflexivity. Qed.

(** C4, amended: whatever render built the socket, each resync response
    replaces its collection by the payload and appends nothing, so delivering the resync responses again
    leaves zones, zone logs and fall logs as the first delivery left them;
    zones and fall-log responses leave the zone-logs map alone, while a
    zone_logs_response replaces the whole map, the client-derived
    occupancy entries included. *)
Theorem C4_resync_replaces (env : Closure) (now now' : Z) (st : Store)
    (zs : list (string * Zone.t)) (logs : gmap string (list ZoneLogEntry.t))
    (falls : list FallLog.t) :
  (zones (ws_onmessage env (json (zones_response (Some zs))) now st) = Object_values zs
   ∧ zoneLogs (ws_onmessage env (json (zones_response (Some zs))) now st) = zoneLogs st)
  ∧ (zoneLogs (ws_onmessage env (json (zone_logs_response (Some logs))) now st) = logs
     ∧ zones (ws_onmessage env (json (zone_logs_response (Some logs))) now st) = zones st)
  ∧ (fallLogs (ws_onmessage env (json (fall_logs_response (Some falls))) now st) = falls
     ∧ zoneLogs (ws_onmessage env (json (fall_logs_response (Some falls))) now st) = zoneLogs st)
  ∧ (zoneLogs (handleWebSocketMessage (json (zone_logs_response (Some logs))) now st) = logs)
  ∧ (let once := deliver env now (resyncResponses zs logs falls) st in
     let twice := deliver env now' (resyncResponses zs logs falls) once in
     zones once = Object_values zs ∧ zoneLogs once = logs ∧ fallLogs once = falls
     ∧ zones twice = zones once ∧ zoneLogs twice = zoneLogs once
     ∧ fallLogs twice = fallLogs once).
Proof.
  split; [|split; [|split; [|split]]].
  - by destruct (ws_onmessage_resync_cells env now st (zones_response (Some zs)))
      as (? & ? & ?).
  - by destruct (ws_onmessage_resync_cells env now st (zone_logs_response (Some logs)))
      as (? & ? & ?).
  - by destruct (ws_onmessage_resync_cells env now st (fall_logs_response (Some falls)))
      as (? & ? & ?).
  - destruct st as [? ? ? ? ? ? ? ? ? ? ? ? ? ? ? ? ? ? ? [h|] ? ? ? ? ? ? ?]; done.
  - cbv zeta.
    destruct (deliver_resync env now st zs logs falls) as (Hz & Hl & Hf).
    destruct (deliver_resync env now' (deliver env now (resyncResponses zs logs falls) st)
                zs logs falls) as (Hz' & Hl' & Hf').
    rewrite Hz, Hl, Hf, Hz', Hl', Hf'. done.
Qed.

(** ** The connection manager *)

Section Backoff.

Lemma retryDelay_mono (n m : Z) : n ≤ m → (retryDelay n <= retryDelay m)%Q.
Proof.
  intros Hnm. unfold retryDelay. apply Q.min_le_compat_r.
  apply Qmult_le_l; [reflexivity|].
  apply Qpower_le_compat_l; [exact Hnm|discriminate].
Qed.

Lemma retryDelay_capped (n : Z) : (retryDelay n <= 30000)%Q.
Proof. unfold retryDelay. apply Q.le_min_r. Qed.

Lemma ws_onclose_abnormal (env : Closure) (code : Z) (st : Store) :
  code ≠ 1000 → code ≠ 1001 → captured_connectionAttempts env < maxReconnectAttempts →
  ws_onclose env code st
  = let n := captured_connectionAttempts env in
    let st := set_isConnectingRef false (set_socket None st) in
    let st := set_connectionAttempts (connectionAttempts st + 1) st in
    let st := set_connectionStatus (Reconnecting (Math_round (retryDelay n / 1000))) st in
    set_retryTimeoutRef (Some (nextTimer st))
      (snd (setTimeout (CallConnectWebSocket env) (retryDelay n) st)).
Proof.
  intros H0 H1 Hn. unfold ws_onclose.
  apply Z.eqb_neq in H0, H1. rewrite H0, H1.
  assert ((captured_connectionAttempts env >=? maxReconnectAttempts) = false) as ->
    by (rewrite Z.geb_leb; by apply Z.leb_gt).
  by destruct st.
Qed.

End Backoff.

(** C5, on the code: [ws.onclose] computes the retry delay from the
    counter of the render that built the socket, not from the counter the
    component holds when the socket closes.  For a socket built at counter
    n, 0 <= n < 5, an abnormal close arms the retry timer with
    min(5000 * 1.5^n, 30000) ms, whatever the store, and adds one to the
    counter of the store; the delay is non-decreasing in n and at most
    30000 ms, it is 5000 ms for n = 0, and the open event sets the counter
    of the store to 0.  On the run [second_failure] the second socket,
    built at counter 1, opens, the counter is 0 and the status 'Connected';
    when it closes abnormally the timer is armed with 7500 ms, not with the
    base value, and the status reads 'Reconnecting in 8s...'. *)
Theorem C5_retry_delay_reads_captured_counter :
  (∀ (env : Closure) (st : Store) (code n : Z),
     captured_connectionAttempts env = n → 0 ≤ n < 5 → code ≠ 1000 → code ≠ 1001 →
     ∃ h, retryTimeoutRef (ws_onclose env code st) = Some h
       ∧ timers (ws_onclose env code st) !! h
         = Some {| callback := CallConnectWebSocket env;
                   delay := (Qmin (5000 * (3 # 2) ^ n) 30000)%Q |}
       ∧ connectionAttempts (ws_onclose env code st) = connectionAttempts st + 1)
  ∧ (∀ n m : Z, n ≤ m → (retryDelay n <= retryDelay m)%Q)
  ∧ (∀ n : Z, (retryDelay n <= 30000)%Q)
  ∧ (∀ st : Store, connectionAttempts (ws_onopen st) = 0)
  ∧ (retryDelay 0 == 5000)%Q
  ∧ captured_connectionAttempts second_socket = 1
  ∧ connectionStatus reopened = Connected
  ∧ connectionAttempts reopened = 0
  ∧ (∃ h, retryTimeoutRef second_failure = Some h
       ∧ timers second_failure !! h
         = Some {| callback := CallConnectWebSocket second_socket;
                   delay := (Qmin (5000 * (3 # 2) ^ 1) 30000)%Q |})
  ∧ (Qmin (5000 * (3 # 2) ^ 1) 30000 == 7500)%Q
  ∧ connectionStatus second_failure = Reconnecting 8.
Proof.
  assert (∀ (env : Closure) (st : Store) (code n : Z),
     captured_connectionAttempts env = n → 0 ≤ n < 5 → code ≠ 1000 → code ≠ 1001 →
     ∃ h, retryTimeoutRef (ws_onclose env code st) = Some h
       ∧ timers (ws_onclose env code st) !! h
         = Some {| callback := CallConnectWebSocket env;
                   delay := (Qmin (5000 * (3 # 2) ^ n) 30000)%Q |}
       ∧ connectionAttempts (ws_onclose env code st) = connectionAttempts st + 1) as Hclose.
  { intros env st code n Hn Hrange H0 H1.
    rewrite ws_onclose_abnormal by (unfold maxReconnectAttempts; lia).
    exists (nextTimer st). rewrite Hn. destruct st; simpl.
    split; [done|]. split; [|done]. by rewrite lookup_insert_eq. }
  split; [exact Hclose|].
  split; [apply retryDelay_mono|].
  split; [apply retryDelay_capped|].
  split; [by intros []|].
  split; [reflexivity|].
  split; [reflexivity|].
  split; [reflexivity|].
  split; [reflexivity|].
  split; [|split; [reflexivity|vm_compute; reflexivity]].
  destruct (Hclose second_socket reopened 1006 1 eq_refl) as (h & Href & Htimer & _);
    [lia|lia|lia|].
  exists h. split; [exact Href|exact Htimer].
Qed.

Lemma C5_retry_delay_reads_captured_counter_witness :
  (captured_connectionAttempts second_socket = 1 ∧ 0 ≤ 1 < 5 ∧ 1006 ≠ 1000 ∧ 1006 ≠ 1001)
  ∧ (∃ h, retryTimeoutRef (ws_onclose second_socket 1006 reopened) = Some h
       ∧ timers (ws_onclose second_socket 1006 reopened) !! h
         = Some {| callback := CallConnectWebSocket second_socket;
                   delay := (Qmin (5000 * (3 # 2) ^ 1) 30000)%Q |}
       ∧ connectionAttempts (ws_onclose second_socket 1006 reopened)
         = connectionAttempts reopened + 1)
  ∧ (2 ≤ 4 ∧ (retryDelay 2 <= retryDelay 4)%Q).
Proof.
  destruct C5_retry_delay_reads_captured_counter as (Hclose & Hmono & _).
  split; [repeat split; (reflexivity || lia)|].
  split; [apply Hclose; (reflexivity || lia)|].
  split; [lia|apply Hmono; lia].
Defined.

Section ForcedReconnect.

Lemma forceReconnect_cells (env : Closure) (now : Z) (st : Store) :
  connectionAttempts (forceReconnect env now st)
    = (if captured_connectionAttempts env >? 3 then 3 else connectionAttempts st)
  ∧ lastConnectionAttemptRef (forceReconnect env now st) = now - 25000
  ∧ retryTimeoutRef (forceReconnect env now st) = None
  ∧ isConnectingRef (forceReconnect env now st) = isConnectingRef st
  ∧ timers (forceReconnect env now st)
    = <[nextTimer st := {| callback := CallConnectWebSocket env; delay := 1000 |}]>
        (match retryTimeoutRef st with
         | Some h => delete h (timers st)
         | None => timers st
         end).
Proof.
  destruct st as [? [ws|] ? ? ? ? ? ? ? ? ? ? n ? ? ? [h|] ? ? ? ? ? ? ? ? ? ?];
    unfold forceReconnect; simpl; destruct (captured_connectionAttempts env >? 3); done.
Qed.

(** The call that the timer of [forceReconnect] makes, when nothing else
    has connected meanwhile: it passes the five-second gate, and then
    meets the counter of its own render. *)
Lemma forceReconnect_scheduled (env fr : Closure) (now t : Z) (st : Store) :
  now + 1000 ≤ t → isConnectingRef st = false →
  connectionStatus (fireTimer fr false (nextTimer st) t (forceReconnect env now st))
  = (if captured_connectionAttempts env >=? maxReconnectAttempts
     then MaxAttemptsReached else Connecting)
  ∧ isConnectingRef (fireTimer fr false (nextTimer st) t (forceReconnect env now st))
    = negb (captured_connectionAttempts env >=? maxReconnectAttempts).
Proof.
  intros Ht Hidle.
  destruct (forceReconnect_cells env now st) as (Hn & Hlast & Hretry & Hconn & Htimers).
  unfold fireTimer. rewrite Htimers, lookup_insert_eq. simpl.
  set (st1 := set_timers _ _).
  assert (lastConnectionAttemptRef st1 = now - 25000
          ∧ isConnectingRef st1 = false) as (Hl1 & Hc1).
  { subst st1. destruct (forceReconnect env now st) eqn:Hfr. simpl in *.
    by rewrite Hconn. }
  unfold connectWebSocket. rewrite Hl1, Hc1.
  assert ((t - (now - 25000) <? 5000) = false) as -> by (apply Z.ltb_ge; lia).
  destruct (captured_connectionAttempts env >=? maxReconnectAttempts).
  - destruct st1; simpl in *. by subst.
  - destruct st1 as [? ? ? ? ? ? ? ? ? ? ? ? ? ? ? ? [h|] ? ? ? ? ? ? ? ? ? ?]; done.
Qed.

End ForcedReconnect.

(** C7, on the code: the timer that [forceReconnect] arms calls the
    [connectWebSocket] of the render in which that [forceReconnect] was
    made, and the clamp tests the counter of that render.  In every store
    the marker is set 25 seconds back, the backoff timer is cancelled and a
    timer of 1000 ms is armed, whose call passes the five-second gate if
    nothing has connected meanwhile; the counter becomes 3 when the
    captured counter is above 3 and is left as it is otherwise, and the
    scheduled call is refused with 'Max attempts reached' when the
    captured counter is 5 or more.  After five failed attempts a forced
    reconnect of the current render clamps the counter to 3, and the call
    it schedules, left to itself, ends in 'Max attempts reached'; as the
    counter has changed the connection effect runs again and connects at
    once, after which the scheduled call is stopped by the gate.  On
    the run [stale_forced] the response timer of a ping written at counter
    0 fires after four failures: the [forceReconnect] it holds was made at
    counter 0, does not clamp, and leaves the counter at 4. *)
Theorem C7_forced_reconnect_schedules_stale_instance :
  (∀ (env : Closure) (now : Z) (st : Store),
     connectionAttempts (forceReconnect env now st)
       = (if captured_connectionAttempts env >? 3 then 3 else connectionAttempts st)
     ∧ lastConnectionAttemptRef (forceReconnect env now st) = now - 25000
     ∧ retryTimeoutRef (forceReconnect env now st) = None
     ∧ timers (forceReconnect env now st)
       = <[nextTimer st := {| callback := CallConnectWebSocket env; delay := 1000 |}]>
           (match retryTimeoutRef st with
            | Some h => delete h (timers st)
            | None => timers st
            end)
     ∧ (∀ t, now + 1000 ≤ t →
          (t - lastConnectionAttemptRef (forceReconnect env now st) <? 5000) = false)
     ∧ (∀ fr t, now + 1000 ≤ t → isConnectingRef st = false →
          connectionStatus (fireTimer fr false (nextTimer st) t (forceReconnect env now st))
          = (if captured_connectionAttempts env >=? 5
             then MaxAttemptsReached else Connecting)))
  ∧ (connectionStatus exhausted = MaxAttemptsReached ∧ connectionAttempts exhausted = 5
     ∧ isConnectingRef exhausted = false)
  ∧ connectionAttempts forced = 3
  ∧ connectionStatus (fireTimer exhausted_render false (nextTimer exhausted) 301000 forced)
    = MaxAttemptsReached
  ∧ (connectionStatus forced_effect = Connecting
     ∧ lastConnectionAttemptRef forced_effect = 300000
     ∧ fireTimer exhausted_render false (nextTimer exhausted) 301000 forced_effect
       = set_timers (delete (nextTimer exhausted) (timers forced_effect)) forced_effect)
  ∧ (captured_connectionAttempts sending_render = 0
     ∧ connectionAttempts four_failures = 4
     ∧ stale_forced = forceReconnect sending_render 22000
                        (set_timers (delete 1%positive (timers four_failures)) four_failures)
     ∧ connectionAttempts stale_forced = 4).
Proof.
  split.
  { intros env now st.
    destruct (forceReconnect_cells env now st) as (Hn & Hlast & Hretry & Hconn & Htimers).
    split; [done|]. split; [done|]. split; [done|]. split; [done|]. split.
    - intros t Ht. rewrite Hlast. apply Z.ltb_ge. lia.
    - intros fr t Ht Hidle. by apply forceReconnect_scheduled. }
  split; [repeat split; vm_compute; reflexivity|].
  split; [vm_compute; reflexivity|].
  split; [vm_compute; reflexivity|].
  split; [|repeat split; vm_compute; reflexivity].
  split; [vm_compute; reflexivity|].
  split; vm_compute; reflexivity.
Qed.

Lemma C7_forced_reconnect_schedules_stale_instance_witness :
  (300000 + 1000 ≤ 301000 ∧ isConnectingRef exhausted = false)
  ∧ (301000 - lastConnectionAttemptRef (forceReconnect exhausted_render 300000 exhausted)
       <? 5000) = false
  ∧ connectionStatus
      (fireTimer open_render false (nextTimer exhausted) 301000
         (forceReconnect exhausted_render 300000 exhausted))
    = (if captured_connectionAttempts exhausted_render >=? 5
       then MaxAttemptsReached else Connecting).
Proof.
  destruct (proj1 C7_forced_reconnect_schedules_stale_instance
              exhausted_render 300000 exhausted) as (_ & _ & _ & _ & Hgate & Hgo).
  split; [split; [lia|reflexivity]|].
  split; [apply Hgate; lia|].
  apply Hgo; [lia|reflexivity].
Defined.

Section PendingResponse.

Lemma sendWebSocketMessage_open (message : OutMsg) (now : Z) (st : Store) :
  socket_open st = true →
  (sendWebSocketMessage message now st).1 = true
  ∧ messageResponseTimeoutRef (sendWebSocketMessage message now st).2 = Some (nextTimer st)
  ∧ timers (sendWebSocketMessage message now st).2
    = <[nextTimer st := {| callback := ResponseTimeout; delay := 15000 |}]>
        (match messageResponseTimeoutRef st with
         | Some h => delete h (timers st)
         | None => timers st
         end)
  ∧ sent (sendWebSocketMessage message now st).2 = sent st ++ [message].
Proof.
  intros Hopen. unfold sendWebSocketMessage. rewrite Hopen.
  destruct st as [? ? ? ? ? ? ? ? ? ? ? ? ? ? ? ? ? ? ? [h|] ? ? ? ? ? ? ?]; done.
Qed.

Lemma sendWebSocketMessage_closed (message : OutMsg) (now : Z) (st : Store) :
  socket_open st = false → sendWebSocketMessage message now st = (false, st).
Proof. intros Hclosed. unfold sendWebSocketMessage. by rewrite Hclosed. Qed.

Lemma ws_onmessage_keeps_timers (env : Closure) (frame : Frame) (now : Z) (st : Store) :
  messageResponseTimeoutRef (ws_onmessage env frame now st) = messageResponseTimeoutRef st
  ∧ timers (ws_onmessage env frame now st) = timers st.
Proof.
  destruct frame as [|data]; [done|]. destruct env as [n [sel|]].
  all: destruct st;
    destruct data as [[?|]|[] [zid|]|[?|]|[?|]|[?|]|[?|]| | | | |]; simpl; try done;
    unfold truthy; repeat case_bool_decide; simpl; try done;
    unfold handleZoneDeleteConfirmation; simpl; repeat case_bool_decide; done.
Qed.

End PendingResponse.

Section OneTimer.

Ltac solve_keeps :=
  split; [done|];
  let h := fresh "h" in let t := fresh "t" in
  let Hl := fresh "Hl" in let Hc := fresh "Hc" in
  intros h t Hl Hc; simpl in *;
  repeat (apply lookup_insert_Some in Hl as [[<- <-]|[? Hl]]; [simpl in Hc; discriminate|]);
  repeat (apply lookup_delete_Some in Hl as [? Hl]);
  exact Hl.

Lemma keeps_refl st : keepsResponseTimer st st.
Proof. by split. Qed.

Lemma keeps_invariant st st' :
  keepsResponseTimer st st' → oneResponseTimer st → oneResponseTimer st'.
Proof. intros [Href Hsub] Hone h t Hl Hc. rewrite Href. eauto. Qed.

Lemma connectWebSocket_keeps env throws now st :
  keepsResponseTimer st (connectWebSocket env throws now st).
Proof.
  unfold connectWebSocket.
  cases_of st; simpl; repeat (case_match; simpl; try apply keeps_refl); solve_keeps.
Qed.

Lemma forceReconnect_keeps env now st : keepsResponseTimer st (forceReconnect env now st).
Proof.
  unfold forceReconnect.
  cases_of st; simpl; repeat (case_match; simpl); solve_keeps.
Qed.

Lemma ws_onclose_keeps env code st : keepsResponseTimer st (ws_onclose env code st).
Proof.
  unfold ws_onclose.
  cases_of st; simpl; repeat (case_match; simpl; try apply keeps_refl); solve_keeps.
Qed.

Lemma keeps_trans st1 st2 st3 :
  keepsResponseTimer st1 st2 → keepsResponseTimer st2 st3 → keepsResponseTimer st1 st3.
Proof. intros [Hr1 Hs1] [Hr2 Hs2]. split; [congruence|eauto]. Qed.

Lemma connectionCleanup_keeps closes st : keepsResponseTimer st (connectionCleanup closes st).
Proof.
  unfold connectionCleanup.
  cases_of st; simpl; destruct closes; simpl; try apply keeps_refl; solve_keeps.
Qed.

Lemma connectionEffect_keeps closes throws now st :
  keepsResponseTimer st (connectionEffect closes throws now st).
Proof.
  unfold connectionEffect. eapply keeps_trans; [apply connectionCleanup_keeps|].
  apply connectWebSocket_keeps.
Qed.

Lemma fireTimer_keeps fr throws h now st :
  keepsResponseTimer st (fireTimer fr throws h now st).
Proof.
  unfold fireTimer. destruct (timers st !! h) as [[cb d]|] eqn:Hh; [|apply keeps_refl].
  simpl.
  assert (keepsResponseTimer st (set_timers (delete h (timers st)) st)) as Hdel.
  { destruct st. simpl in *. solve_keeps. }
  set (st1 := set_timers _ _) in *.
  assert (∀ st2, keepsResponseTimer st1 st2 → keepsResponseTimer st st2) as Htrans.
  { intros st2 [Hr Hs]. destruct Hdel as [Hr1 Hs1]. split; [congruence|eauto]. }
  destruct cb.
  - apply Htrans, connectWebSocket_keeps.
  - case_match; [apply Htrans, forceReconnect_keeps|done].
Qed.

Lemma runAnimationFrame_keeps st st' :
  runAnimationFrame st = Return st' → keepsResponseTimer st st'.
Proof.
  intros (logs & active & ->)%runAnimationFrame_cells. by destruct st.
Qed.

Lemma occupancyEffect_keeps now st st' :
  occupancyEffect now st = Return st' → keepsResponseTimer st st'.
Proof.
  intros ->%occupancyEffect_Return. unfold observed.
  destruct (skipped _ _); [apply keeps_refl|]. cbv zeta.
  destruct (hasChanges _); by destruct st.
Qed.

Lemma sendWebSocketMessage_invariant message now st :
  oneResponseTimer st → oneResponseTimer (sendWebSocketMessage message now st).2.
Proof.
  intros Hone. destruct (socket_open st) eqn:Hopen.
  - destruct (sendWebSocketMessage_open message now st Hopen) as (_ & Href & Htimers & _).
    intros h t Hl Hc. rewrite Href. rewrite Htimers in Hl.
    apply lookup_insert_Some in Hl as [[<- _]|[Hne Hl]]; [done|].
    exfalso. destruct (messageResponseTimeoutRef st) as [h0|] eqn:Hr.
    + apply lookup_delete_Some in Hl as [Hne0 Hl].
      specialize (Hone h t Hl Hc). congruence.
    + specialize (Hone h t Hl Hc). congruence.
  - by rewrite sendWebSocketMessage_closed.
Qed.

Lemma step_oneResponseTimer e now st st' :
  step e now st = Return st' → oneResponseTimer st → oneResponseTimer st'.
Proof.
  destruct e as [throws|closes throws| |env code|env frame|fr throws h| |env|message
                |button zoneId|zone|zoneData skip| |];
    simpl; intros Hstep;
    try (apply keeps_invariant; first [by apply occupancyEffect_keeps in Hstep
                                      |by apply runAnimationFrame_keeps in Hstep]);
    try (injection Hstep as <-).
  - apply keeps_invariant, connectWebSocket_keeps.
  - apply keeps_invariant, connectionEffect_keeps.
  - apply keeps_invariant. by destruct st.
  - apply keeps_invariant, ws_onclose_keeps.
  - apply keeps_invariant.
    destruct (ws_onmessage_keeps_timers env frame now st) as [Hr Ht].
    split; [done|]. by rewrite Ht.
  - apply keeps_invariant, fireTimer_keeps.
  - apply keeps_invariant. unfold resetTimer_tick. destruct st. simpl. by case_match.
  - apply keeps_invariant, forceReconnect_keeps.
  - apply sendWebSocketMessage_invariant.
  - intros Hone. destruct button; [done|]. unfold handleZoneDelete.
    set (st1 := set_deletingZones _ st).
    assert (oneResponseTimer st1) as Hone1 by (by destruct st).
    destruct (socket_open st1); [|done].
    by apply sendWebSocketMessage_invariant.
  - intros Hone. unfold handleZonePress, handleZoneLogsRequest.
    set (st1 := set_showLogs _ _).
    assert (oneResponseTimer st1) as Hone1 by (by destruct st).
    destruct (socket_open st1); [|done].
    by apply sendWebSocketMessage_invariant.
  - intros Hone. unfold handleNewZone.
    set (st1 := set_zones _ st).
    assert (oneResponseTimer st1) as Hone1 by (by destruct st).
    destruct (negb skip && socket_open st1); [|done].
    pose proof (sendWebSocketMessage_invariant (new_zone zoneData) now st1 Hone1) as Hsend.
    destruct (sendWebSocketMessage (new_zone zoneData) now st1) as [[] st2]; simpl in *;
      [|done].
    by destruct st2.
Qed.

(** At any time at most one response timer is live, and the ref holds it. *)
Lemma reachable_oneResponseTimer st : reachable st → oneResponseTimer st.
Proof.
  induction 1 as [now|e now st st' _ IH Hstep].
  - intros h t Hl. change (timers (mountedAt now)) with (∅ : gmap positive Timer) in Hl.
    by rewrite lookup_empty in Hl.
  - by eapply step_oneResponseTimer.
Qed.

Lemma responseTimers_at_most_one st :
  oneResponseTimer st → (length (responseTimers st) ≤ 1)%nat.
Proof.
  intros Hone. unfold responseTimers. rewrite length_fmap.
  destruct (map_to_list _) as [|[h1 t1] [|[h2 t2] l]] eqn:Hl; simpl; [lia|lia|].
  exfalso.
  pose proof (NoDup_fst_map_to_list
                (filter (λ ht, callback ht.2 = ResponseTimeout) (timers st))) as Hnd.
  rewrite Hl in Hnd. simpl in Hnd.
  assert ((h1, t1) ∈ map_to_list (filter (λ ht, callback ht.2 = ResponseTimeout) (timers st)))
    as H1 by (rewrite Hl; left).
  assert ((h2, t2) ∈ map_to_list (filter (λ ht, callback ht.2 = ResponseTimeout) (timers st)))
    as H2 by (rewrite Hl; right; left).
  apply elem_of_map_to_list, map_lookup_filter_Some in H1 as [H1 Hc1].
  apply elem_of_map_to_list, map_lookup_filter_Some in H2 as [H2 Hc2].
  pose proof (Hone _ _ H1 Hc1) as Hr1. pose proof (Hone _ _ H2 Hc2) as Hr2.
  assert (h1 = h2) as -> by congruence.
  apply NoDup_cons in Hnd as [Hnot _]. apply Hnot. left.
Qed.

(** When the response timer fires with no message for more than 15 s, the
    forced reconnect runs; otherwise nothing but its removal happens. *)
Lemma fireTimer_response fr throws h now st d :
  timers st !! h = Some {| callback := ResponseTimeout; delay := d |} →
  fireTimer fr throws h now st
  = let st1 := set_timers (delete h (timers st)) st in
    if now - lastMessageReceivedTimeRef st >? 15000 then forceReconnect fr now st1 else st1.
Proof. intros Hh. unfold fireTimer. rewrite Hh. simpl. by destruct st. Qed.

End OneTimer.

(** C8, on the code: [ws.onmessage], the handler installed on the socket,
    leaves the pending-response ref and the timer table as they are for
    every frame, whatever render built the socket; with a ping awaiting its response, a pong handled by it
    leaves the timer armed, whereas [handleWebSocketMessage], which is
    never installed, clears it. *)
Theorem C8_inbound_message_keeps_response_timer :
  (∀ env frame now st,
     messageResponseTimeoutRef (ws_onmessage env frame now st) = messageResponseTimeoutRef st
     ∧ timers (ws_onmessage env frame now st) = timers st)
  ∧ messageResponseTimeoutRef awaiting_pong = Some 1%positive
  ∧ responseTimers awaiting_pong = [1%positive]
  ∧ messageResponseTimeoutRef (ws_onmessage open_render (json pong) 1100 awaiting_pong)
    = Some 1%positive
  ∧ responseTimers (ws_onmessage open_render (json pong) 1100 awaiting_pong) = [1%positive]
  ∧ messageResponseTimeoutRef (handleWebSocketMessage (json pong) 1100 awaiting_pong) = None
  ∧ responseTimers (handleWebSocketMessage (json pong) 1100 awaiting_pong) = [].
Proof.
  split; [apply ws_onmessage_keeps_timers|].
  repeat split; vm_compute; reflexivity.
Qed.

(** ** The zone list under [handleNewZone] and [handleNameSubmit] *)

Section Creation.

Lemma findIndex_from_none {A} (p : A → bool) (arr : list A) (i : Z) :
  0 ≤ i → (findIndex_from p arr i = -1 ↔ ∀ a, a ∈ arr → p a = false).
Proof.
  revert i. induction arr as [|a arr IH]; intros i Hi; simpl.
  - split; [intros _ a Ha; by apply elem_of_nil in Ha|done].
  - destruct (p a) eqn:Hp.
    + split; [lia|]. intros Hall. specialize (Hall a (list_elem_of_here _ _)). congruence.
    + rewrite IH by lia. split.
      * intros Hall b [->|Hb]%elem_of_cons; auto.
      * intros Hall b Hb. apply Hall. by right.
Qed.

Lemma handleNewZone_zones (zoneData : Zone.t) (skip : bool) (now : Z) (st : Store) :
  zones (handleNewZone zoneData skip now st)
  = if bool_decide (Zone.id zoneData ∈ Zone.id <$> zones st) then zones st
    else zones st ++ [zoneData].
Proof.
  assert (zones (handleNewZone zoneData skip now st)
          = if negb (findIndex (λ zone, bool_decide (Zone.id zone = Zone.id zoneData))
                       (zones st) =? -1)
            then zones st else zones st ++ [zoneData]) as ->.
  { unfold handleNewZone.
    destruct st as [? [[[]]|] ? ? ? ? ? ? ? ? ? ? ? ? ? ? ? ? ? [?|] ? ? ? ? ? ? ?];
      simpl; destruct skip; simpl; done. }
  unfold findIndex.
  destruct (Z.eqb_spec (findIndex_from (λ zone, bool_decide (Zone.id zone = Zone.id zoneData))
                          (zones st) 0) (-1)) as [Hnone|Hsome]; simpl.
  - rewrite bool_decide_eq_false_2; [done|].
    pose proof (proj1 (findIndex_from_none _ _ 0 (Z.le_refl 0)) Hnone) as Hall.
    clear Hnone. rename Hall into Hnone.
    intros (zone & Hid & Hin)%list_elem_of_fmap.
    specialize (Hnone zone Hin). by apply bool_decide_eq_false in Hnone.
  - rewrite bool_decide_eq_true_2; [done|].
    destruct (decide (Zone.id zoneData ∈ Zone.id <$> zones st)) as [|Hnot]; [done|].
    exfalso. apply Hsome. apply (findIndex_from_none _ _ 0 (Z.le_refl 0)).
    intros zone Hin. apply bool_decide_eq_false. intros Hid.
    apply Hnot. rewrite <- Hid. by apply list_elem_of_fmap_2.
Qed.

Lemma handleNameSubmit_created name now zonePoints zs zoneData :
  handleNameSubmit name now zonePoints zs = ZoneCreated zoneData →
  zoneData = {| Zone.id := "zone_" +:+ pretty now;
                Zone.name := trim name;
                Zone.points := zonePoints |}.
Proof.
  unfold handleNameSubmit. case_bool_decide; [done|].
  destruct (existsb _ zs); [done|]. congruence.
Qed.

End Creation.

(** ** Zone deletion *)

Section Deletion.

Lemma handleZoneDelete_frame (button : AlertButton) (zoneId : string) (now : Z) (st : Store) :
  zones (handleZoneDelete button zoneId now st) = zones st
  ∧ activeZones (handleZoneDelete button zoneId now st) = activeZones st
  ∧ zoneLogs (handleZoneDelete button zoneId now st) = zoneLogs st
  ∧ selectedZone (handleZoneDelete button zoneId now st) = selectedZone st
  ∧ deletingZones (handleZoneDelete button zoneId now st)
    = match button with
      | Cancel => deletingZones st
      | Delete => {[zoneId]} ∪ deletingZones st
      end.
Proof. destruct button; [done|]. cases_of st; done. Qed.

Lemma handleZoneDeleteConfirmation_cells (selected : option Zone.t) (zoneId : string)
    (st : Store) :
  zones (handleZoneDeleteConfirmation selected zoneId st)
    = filter (λ zone, Zone.id zone ≠ zoneId) (zones st)
  ∧ activeZones (handleZoneDeleteConfirmation selected zoneId st)
    = activeZones st ∖ {[zoneId]}
  ∧ deletingZones (handleZoneDeleteConfirmation selected zoneId st)
    = deletingZones st ∖ {[zoneId]}
  ∧ zoneLogs (handleZoneDeleteConfirmation selected zoneId st) = delete zoneId (zoneLogs st)
  ∧ selectedZone (handleZoneDeleteConfirmation selected zoneId st)
    = match selected with
      | Some zone => if bool_decide (Zone.id zone = zoneId) then None else selectedZone st
      | None => selectedZone st
      end.
Proof.
  destruct selected as [zone|]; destruct st; unfold handleZoneDeleteConfirmation; simpl;
    repeat case_bool_decide; done.
Qed.

Lemma ws_onmessage_zone_deleted (env : Closure) (success : bool) (zid : option string)
    (now : Z) (st : Store) :
  ws_onmessage env (json (zone_deleted success zid)) now st
  = let st' := set_lastMessageTimeRef now (set_lastMessageReceivedTimeRef now st) in
    match success, truthy zid with
    | true, Some zoneId =>
        handleZoneDeleteConfirmation (captured_selectedZone env) zoneId st'
    | _, _ => st'
    end.
Proof. reflexivity. Qed.

Lemma stamp_cells (now : Z) (st : Store) :
  let st' := set_lastMessageTimeRef now (set_lastMessageReceivedTimeRef now st) in
  zones st' = zones st ∧ activeZones st' = activeZones st
  ∧ deletingZones st' = deletingZones st ∧ zoneLogs st' = zoneLogs st
  ∧ selectedZone st' = selectedZone st.
Proof. by destruct st. Qed.

(** An animation frame keeps the zone list and the deleting set, and
    takes no key out of the zone logs. *)
Lemma forEach_batchedUpdates_keeps bs : ∀ st st',
  forEach_c batchedUpdates bs st = Return st' →
  zones st' = zones st ∧ deletingZones st' = deletingZones st
  ∧ ∀ key, is_Some (zoneLogs st !! key) → is_Some (zoneLogs st' !! key).
Proof.
  induction bs as [|b bs IH]; intros st st'; simpl.
  - by intros [= <-].
  - destruct (batchedUpdates b st) as [st1| |] eqn:Hb; simpl; [|done|done].
    apply batchedUpdates_Return in Hb. intros Hrest.
    destruct (IH _ _ Hrest) as (Hz & Hd & Hl).
    rewrite Hz, Hd. subst st1. split; [by destruct st|]. split; [by destruct st|].
    intros key Hkey. apply Hl.
    assert (zoneLogs (set_activeZones (batch_currentActiveZones b)
                        (set_zoneLogs (appended (zoneLogs st) (batch_newLogs b)) st))
            = appended (zoneLogs st) (batch_newLogs b)) as -> by (by destruct st).
    rewrite appended_lookup. destruct Hkey as [l ->]. by destruct (batch_newLogs b !! key).
Qed.

(** What one event leaves of the four collections.  The events that run
    neither the dispatcher, nor an animation frame, nor [handleNewZone]
    leave the zone list, the active set and the zone logs as they are. *)
Lemma step_collections (e : Event) (now : Z) (st st' : Store) :
  step e now st = Return st' →
  match e with
  | Message _ _ | AnimationFrame => True
  | NewZone zoneData _ =>
      zones st' = (if bool_decide (Zone.id zoneData ∈ Zone.id <$> zones st) then zones st
                   else zones st ++ [zoneData])
      ∧ activeZones st' = activeZones st ∧ zoneLogs st' = zoneLogs st
      ∧ deletingZones st' = deletingZones st
  | ZoneDeletePressed _ _ =>
      zones st' = zones st ∧ activeZones st' = activeZones st ∧ zoneLogs st' = zoneLogs st
      ∧ deletingZones st ⊆ deletingZones st'
  | _ =>
      zones st' = zones st ∧ activeZones st' = activeZones st ∧ zoneLogs st' = zoneLogs st
      ∧ deletingZones st' = deletingZones st
  end.
Proof.
  destruct e as [throws|closes throws| |env code|env frame|fr throws h| |env|message
                |button zoneId|zone|zoneData skip| |];
    simpl; intros Hstep; try done; try (injection Hstep as <-).
  - unfold connectWebSocket. cases_of st; simpl; repeat (case_match; simpl; try done).
  - unfold connectionEffect, connectionCleanup, connectWebSocket.
    cases_of st; simpl; destruct closes; simpl; repeat (case_match; simpl; try done).
  - by destruct st.
  - unfold ws_onclose. cases_of st; simpl; repeat (case_match; simpl; try done).
  - unfold fireTimer. destruct (timers st !! h) as [[[env|] d]|]; simpl; [| |done].
    + unfold connectWebSocket. cases_of st; simpl; repeat (case_match; simpl; try done).
    + case_match; [|by destruct st].
      unfold forceReconnect. cases_of st; simpl; repeat (case_match; simpl; try done).
  - unfold resetTimer_tick. destruct st. simpl. by case_match.
  - unfold forceReconnect. cases_of st; simpl; repeat (case_match; simpl; try done).
  - unfold sendWebSocketMessage. cases_of st; done.
  - destruct (handleZoneDelete_frame button zoneId now st) as (-> & -> & -> & _ & ->).
    repeat split; try done. destruct button; set_solver.
  - unfold handleZonePress, handleZoneLogsRequest. cases_of st; done.
  - split; [apply handleNewZone_zones|].
    unfold handleNewZone. cases_of st; simpl; destruct skip; simpl; done.
  - apply occupancyEffect_Return in Hstep. subst st'. unfold observed.
    destruct (skipped _ _); [done|]. cbv zeta.
    destruct (hasChanges _); by destruct st.
Qed.

(** No event but a successful confirmation shrinks the deleting set. *)
Lemma step_deletingZones (e : Event) (now : Z) (st st' : Store) :
  step e now st = Return st' →
  deletingZones st ⊆ deletingZones st'
  ∨ ∃ env zoneId, e = Message env (json (zone_deleted true (Some zoneId)))
                  ∧ deletingZones st' = deletingZones st ∖ {[zoneId]}.
Proof.
  intros Hstep. pose proof (step_collections e now st st' Hstep) as Hcells.
  destruct e as [throws|closes throws| |env code|env frame|fr throws h| |env|message
                |button zoneId|zone|zoneData skip| |];
    try (left; destruct Hcells as (_ & _ & _ & Hd); by rewrite ?Hd).
  - simpl in Hstep. injection Hstep as <-.
    destruct frame as [|data]; [by left|].
    destruct data as [[?|]|[] [zid|]|[?|]|[?|]|[?|]|[?|]| | | | |];
      try (left; by destruct st).
    unfold ws_onmessage, dispatch, truthy.
    case_bool_decide; [left; by destruct st|].
    right. exists env, zid. split; [done|].
    rewrite (proj1 (proj2 (proj2 (handleZoneDeleteConfirmation_cells _ _ _)))).
    by destruct st.
  - left. simpl in Hstep.
    destruct (forEach_batchedUpdates_keeps _ _ _ Hstep) as (_ & Hd & _).
    rewrite Hd. by destruct st.
Qed.

(** A zone id leaves the zone list only through the dispatcher: with a
    confirmation of its deletion, or with a response that replaces the
    list. *)
Lemma step_zones (zoneId : string) (e : Event) (now : Z) (st st' : Store) :
  step e now st = Return st' →
  zoneId ∈ Zone.id <$> zones st →
  zoneId ∈ Zone.id <$> zones st'
  ∨ (∃ env, e = Message env (json (zone_deleted true (Some zoneId))))
  ∨ (∃ env zs, e = Message env (json (zones_response (Some zs)))
               ∨ e = Message env (json (zones_data (Some zs)))).
Proof.
  intros Hstep Hin. pose proof (step_collections e now st st' Hstep) as Hcells.
  destruct e as [throws|closes throws| |env code|env frame|fr throws h| |env|message
                |button zoneId'|zone|zoneData skip| |];
    try (left; destruct Hcells as (Hz & _); by rewrite Hz).
  - simpl in Hstep. injection Hstep as <-.
    destruct frame as [|data]; [by left|].
    destruct data as [[zs|]|success zid|[zs|]|[?|]|[?|]|[?|]| | | | |];
      try (left; by destruct st); try (right; right; by eauto).
    rewrite ws_onmessage_zone_deleted. cbv zeta.
    destruct (stamp_cells now st) as (Hz & _).
    set (st1 := set_lastMessageTimeRef now _) in *.
    destruct success; [|left; by rewrite Hz].
    destruct (truthy zid) as [other|] eqn:Hzid; [|left; by rewrite Hz].
    destruct (decide (other = zoneId)) as [->|Hne].
    + right. left. exists env. unfold truthy in Hzid. destruct zid as [z|]; [|done].
      case_bool_decide; [done|]. congruence.
    + left.
      rewrite (proj1 (handleZoneDeleteConfirmation_cells _ other st1)), Hz.
      apply list_elem_of_fmap in Hin as (zone & -> & Hzone).
      apply list_elem_of_fmap_2, list_elem_of_filter. split; [congruence|done].
  - left. destruct Hcells as (Hz & _). rewrite Hz. case_bool_decide; [done|].
    rewrite fmap_app. apply elem_of_app. by left.
  - left. simpl in Hstep.
    destruct (forEach_batchedUpdates_keeps _ _ _ Hstep) as (Hz & _).
    rewrite Hz. by destruct st.
Qed.

(** A key leaves the zone logs only through the dispatcher: with a
    confirmation of the deletion, or with a response that replaces the
    logs. *)
Lemma step_zoneLogs (zoneId : string) (e : Event) (now : Z) (st st' : Store) :
  step e now st = Return st' →
  is_Some (zoneLogs st !! zoneId) →
  is_Some (zoneLogs st' !! zoneId)
  ∨ (∃ env, e = Message env (json (zone_deleted true (Some zoneId))))
  ∨ (∃ env logs, e = Message env (json (zone_logs_response (Some logs)))).
Proof.
  intros Hstep Hin. pose proof (step_collections e now st st' Hstep) as Hcells.
  destruct e as [throws|closes throws| |env code|env frame|fr throws h| |env|message
                |button zoneId'|zone|zoneData skip| |];
    try (left; destruct Hcells as (_ & _ & Hl & _); by rewrite Hl).
  - simpl in Hstep. injection Hstep as <-.
    destruct frame as [|data]; [by left|].
    destruct data as [[zs|]|success zid|[zs|]|[?|]|[?|]|[?|]| | | | |];
      try (left; by destruct st); try (right; right; by eauto).
    rewrite ws_onmessage_zone_deleted. cbv zeta.
    destruct (stamp_cells now st) as (_ & _ & _ & Hl & _).
    set (st1 := set_lastMessageTimeRef now _) in *.
    destruct success; [|left; by rewrite Hl].
    destruct (truthy zid) as [other|] eqn:Hzid; [|left; by rewrite Hl].
    destruct (decide (other = zoneId)) as [->|Hne].
    + right. left. exists env. unfold truthy in Hzid. destruct zid as [z|]; [|done].
      case_bool_decide; [done|]. congruence.
    + left.
      rewrite (proj1 (proj2 (proj2 (proj2 (handleZoneDeleteConfirmation_cells _ other st1))))).
      by rewrite lookup_delete_ne, Hl.
  - left. simpl in Hstep.
    destruct (forEach_batchedUpdates_keeps _ _ _ Hstep) as (_ & _ & Hl).
    apply Hl. by destruct st.
Qed.

(** An id leaves the active set only with a confirmation of the deletion
    or in an animation frame, which replaces the set. *)
Lemma step_activeZones (zoneId : string) (e : Event) (now : Z) (st st' : Store) :
  step e now st = Return st' →
  zoneId ∈ activeZones st →
  zoneId ∈ activeZones st'
  ∨ (∃ env, e = Message env (json (zone_deleted true (Some zoneId))))
  ∨ e = AnimationFrame.
Proof.
  intros Hstep Hin. pose proof (step_collections e now st st' Hstep) as Hcells.
  destruct e as [throws|closes throws| |env code|env frame|fr throws h| |env|message
                |button zoneId'|zone|zoneData skip| |];
    try (left; destruct Hcells as (_ & Ha & _); by rewrite Ha); [|by right; right].
  simpl in Hstep. injection Hstep as <-.
  destruct frame as [|data]; [by left|].
  destruct data as [[zs|]|success zid|[zs|]|[?|]|[?|]|[?|]| | | | |];
    try (left; by destruct st).
  rewrite ws_onmessage_zone_deleted. cbv zeta.
  destruct (stamp_cells now st) as (_ & Ha & _).
  set (st1 := set_lastMessageTimeRef now _) in *.
  destruct success; [|left; by rewrite Ha].
  destruct (truthy zid) as [other|] eqn:Hzid; [|left; by rewrite Ha].
  destruct (decide (other = zoneId)) as [->|Hne].
  - right. left. exists env. unfold truthy in Hzid. destruct zid as [z|]; [|done].
    case_bool_decide; [done|]. congruence.
  - left. rewrite (proj1 (proj2 (handleZoneDeleteConfirmation_cells _ other st1))), Ha.
    set_solver.
Qed.

End Deletion.

(** C6, as the claim states it, fails: with the deletion of the unit
    square requested twice and no zone_deleted frame received, a
    zones_response without the zone takes it out of the zone list, and a
    zone_logs_response without its key takes its logs out of the map. *)
Lemma C6_resync_removes_zone_counterexample :
  zones delete_requested = [unit_square]
  ∧ "zone_1" ∈ deletingZones delete_requested
  ∧ zones (ws_onmessage open_render (json (zones_response (Some []))) 600 delete_requested)
    = []
  ∧ is_Some (zoneLogs delete_requested !! "zone_1")
  ∧ zoneLogs (ws_onmessage open_render (json (zone_logs_response (Some ∅))) 600
                delete_requested) !! "zone_1"
    = None.
Proof.
  split; [reflexivity|]. split; [vm_compute; reflexivity|]. split; [reflexivity|].
  split; [by eexists|reflexivity].
Qed.

(** C6, amended: a delete request, sent once or twice, removes the zone
    from no collection and leaves the selected zone as it is (the id only
    enters the deleting set).  From then on
    the id leaves the deleting set only with a zone_deleted frame with
    success true and that id; it leaves the zone list only with such a
    frame or with a zones_response or zones_data frame, the zone logs only
    with such a frame or with a zone_logs_response frame, and the active
    set only with such a frame or in an animation frame of the occupancy
    engine.  A zone_deleted frame that is unsuccessful or carries another
    id removes it from none of the four; the frame with success true and
    the zone's id removes it from all four.  This holds whatever render
    built the socket that receives the frame; nothing is said of the
    selected zone, whose clearing depends on that render. *)
Theorem C6_deletion_only_on_confirmation (zoneId : string) :
  (∀ button now st,
     zones (handleZoneDelete button zoneId now st) = zones st
     ∧ activeZones (handleZoneDelete button zoneId now st) = activeZones st
     ∧ zoneLogs (handleZoneDelete button zoneId now st) = zoneLogs st
     ∧ selectedZone (handleZoneDelete button zoneId now st) = selectedZone st
     ∧ deletingZones st ⊆ deletingZones (handleZoneDelete button zoneId now st))
  ∧ (∀ now1 now2 st,
       let st' := handleZoneDelete Delete zoneId now2 (handleZoneDelete Delete zoneId now1 st) in
       zones st' = zones st ∧ activeZones st' = activeZones st
       ∧ zoneLogs st' = zoneLogs st ∧ selectedZone st' = selectedZone st
       ∧ zoneId ∈ deletingZones st')
  ∧ (∀ e now st st',
       step e now st = Return st' →
       (∀ env, e ≠ Message env (json (zone_deleted true (Some zoneId)))) →
       (zoneId ∈ deletingZones st → zoneId ∈ deletingZones st')
       ∧ ((∀ env zs, e ≠ Message env (json (zones_response (Some zs)))
                     ∧ e ≠ Message env (json (zones_data (Some zs)))) →
          zoneId ∈ Zone.id <$> zones st → zoneId ∈ Zone.id <$> zones st')
       ∧ ((∀ env logs, e ≠ Message env (json (zone_logs_response (Some logs)))) →
          is_Some (zoneLogs st !! zoneId) → is_Some (zoneLogs st' !! zoneId))
       ∧ (e ≠ AnimationFrame → zoneId ∈ activeZones st → zoneId ∈ activeZones st'))
  ∧ (∀ env success zid now st,
       success = false ∨ truthy zid ≠ Some zoneId →
       let st' := ws_onmessage env (json (zone_deleted success zid)) now st in
       (∀ zone, Zone.id zone = zoneId → zone ∈ zones st → zone ∈ zones st')
       ∧ (zoneId ∈ activeZones st → zoneId ∈ activeZones st')
       ∧ (zoneId ∈ deletingZones st → zoneId ∈ deletingZones st')
       ∧ zoneLogs st' !! zoneId = zoneLogs st !! zoneId)
  ∧ (∀ env now st,
       zoneId ≠ "" →
       let st' := ws_onmessage env (json (zone_deleted true (Some zoneId))) now st in
       (zoneId ∉ (Zone.id <$> zones st'))
       ∧ (zoneId ∉ activeZones st')
       ∧ (zoneId ∉ deletingZones st')
       ∧ zoneLogs st' !! zoneId = None).
Proof.
  split; [|split; [|split; [|split]]].
  - intros button now st.
    destruct (handleZoneDelete_frame button zoneId now st) as (-> & -> & -> & -> & ->).
    repeat split; try done. destruct button; set_solver.
  - intros now1 now2 st. cbv zeta.
    destruct (handleZoneDelete_frame Delete zoneId now2
                (handleZoneDelete Delete zoneId now1 st)) as (-> & -> & -> & -> & ->).
    destruct (handleZoneDelete_frame Delete zoneId now1 st) as (-> & -> & -> & -> & ->).
    repeat split; try done. set_solver.
  - intros e now st st' Hstep Hne. split; [|split; [|split]].
    + intros Hin.
      destruct (step_deletingZones e now st st' Hstep) as [Hsub|(env & zid & -> & Hdel)].
      * by apply Hsub.
      * rewrite Hdel. apply elem_of_difference. split; [done|].
        rewrite elem_of_singleton. intros <-. by apply (Hne env).
    + intros Hother Hin.
      destruct (step_zones zoneId e now st st' Hstep Hin)
        as [Hkept|[(env & ->)|(env & zs & [-> | ->])]]; [done| | |].
      * by destruct (Hne env).
      * by destruct (proj1 (Hother env zs)).
      * by destruct (proj2 (Hother env zs)).
    + intros Hother Hin.
      destruct (step_zoneLogs zoneId e now st st' Hstep Hin)
        as [Hkept|[(env & ->)|(env & logs & ->)]]; [done| |].
      * by destruct (Hne env).
      * by destruct (Hother env logs).
    + intros Hother Hin.
      destruct (step_activeZones zoneId e now st st' Hstep Hin)
        as [Hkept|[(env & ->)| ->]]; [done| |done].
      by destruct (Hne env).
  - intros env success zid now st Hother. cbv zeta.
    rewrite ws_onmessage_zone_deleted. cbv zeta.
    destruct (stamp_cells now st) as (Hz & Ha & Hd & Hl & Hs).
    set (st1 := set_lastMessageTimeRef now _) in *.
    destruct success, (truthy zid) as [other|] eqn:Hzid;
      try (rewrite Hz, Ha, Hd, Hl; by repeat split).
    assert (other ≠ zoneId) as Hne by (destruct Hother; congruence).
    destruct (handleZoneDeleteConfirmation_cells (captured_selectedZone env) other st1)
      as (-> & -> & -> & -> & _).
    rewrite Hz, Ha, Hd, Hl. repeat split.
    + intros zone Hid Hin. apply list_elem_of_filter. split; [congruence|done].
    + set_solver.
    + set_solver.
    + by rewrite lookup_delete_ne.
  - intros env now st Hnonempty. cbv zeta.
    rewrite ws_onmessage_zone_deleted. cbv zeta.
    destruct (stamp_cells now st) as (Hz & Ha & Hd & Hl & Hs).
    set (st1 := set_lastMessageTimeRef now _) in *.
    unfold truthy. rewrite bool_decide_eq_false_2 by done.
    destruct (handleZoneDeleteConfirmation_cells (captured_selectedZone env) zoneId st1)
      as (-> & -> & -> & -> & _).
    repeat split.
    + intros (zone & Hid & Hin)%list_elem_of_fmap.
      apply list_elem_of_filter in Hin as [Hne _]. congruence.
    + set_solver.
    + set_solver.
    + by rewrite lookup_delete_eq.
Qed.

Lemma C6_deletion_only_on_confirmation_witness :
  (step (Message open_render (json pong)) 600 delete_requested
     = Return (ws_onmessage open_render (json pong) 600 delete_requested)
   ∧ (∀ env, Message open_render (json pong)
             ≠ Message env (json (zone_deleted true (Some "zone_1"))))
   ∧ "zone_1" ∈ deletingZones delete_requested
   ∧ "zone_1" ∈ Zone.id <$> zones delete_requested)
  ∧ "zone_1" ∈ deletingZones (ws_onmessage open_render (json pong) 600 delete_requested)
  ∧ "zone_1" ∈ Zone.id <$> zones (ws_onmessage open_render (json pong) 600 delete_requested)
  ∧ ("zone_1" ≠ ""
     ∧ ("zone_1" ∉ (Zone.id <$> zones (ws_onmessage open_render
                                         (json (zone_deleted true (Some "zone_1")))
                                         700 delete_requested)))
     ∧ zoneLogs (ws_onmessage open_render (json (zone_deleted true (Some "zone_1")))
                   700 delete_requested)
         !! "zone_1" = None)
  ∧ ((true = false ∨ truthy (Some "zone_9") ≠ Some "zone_1")
     ∧ ("zone_1" ∈ activeZones delete_requested →
        "zone_1" ∈ activeZones (ws_onmessage open_render
                                 (json (zone_deleted true (Some "zone_9")))
                                 650 delete_requested)))
  ∧ (sent delete_requested = [delete_zone "zone_1"; delete_zone "zone_1"]
     ∧ zones delete_requested = [unit_square]).
Proof.
  destruct (C6_deletion_only_on_confirmation "zone_1") as (_ & _ & Hkeep & Hother & Hgone).
  assert ("zone_1" ∈ deletingZones delete_requested) as Hin by (vm_compute; reflexivity).
  assert ("zone_1" ∈ Zone.id <$> zones delete_requested) as Hzone
    by (simpl; apply list_elem_of_here).
  assert (∀ env, Message open_render (json pong)
                 ≠ Message env (json (zone_deleted true (Some "zone_1")))) as Hne
    by (intros env; discriminate).
  destruct (Hkeep (Message open_render (json pong)) 600 delete_requested _ eq_refl Hne)
    as (Hdel & Hzs & _).
  split; [split; [reflexivity|split; [exact Hne|split; [exact Hin|exact Hzone]]]|].
  split; [exact (Hdel Hin)|].
  split; [apply Hzs; [intros env zs; split; discriminate|exact Hzone]|].
  split; [|split; [|split; reflexivity]].
  - destruct (Hgone open_render 700 delete_requested) as (Hz & _ & _ & Hl); [discriminate|].
    split; [discriminate|]. split; [exact Hz|exact Hl].
  - assert (true = false ∨ truthy (Some "zone_9") ≠ Some "zone_1") as Hne9
      by (right; discriminate).
    split; [exact Hne9|].
    destruct (Hother open_render true (Some "zone_9") 650 delete_requested Hne9)
      as (_ & Ha & _).
    exact Ha.
Defined.

(** ** Zone creation *)


(** C10: the id of a locally created zone is "zone_" followed by the
    clock reading in milliseconds and depends on nothing else; two
    accepted submissions with the same reading carry the same id, and the
    second call of handleNewZone leaves the zone list as the first call
    left it: no alert is shown, and the second zone is not in the list
    unless it was there before. *)
Theorem C10_same_millisecond_zone_discarded :
  (∀ name now zonePoints zs zoneData,
     handleNameSubmit name now zonePoints zs = ZoneCreated zoneData →
     Zone.id zoneData = "zone_" +:+ pretty now)
  ∧ (∀ now name1 points1 zs1 zone1 name2 points2 zs2 zone2 skip1 skip2 t1 t2 st,
       handleNameSubmit name1 now points1 zs1 = ZoneCreated zone1 →
       handleNameSubmit name2 now points2 zs2 = ZoneCreated zone2 →
       let st1 := handleNewZone zone1 skip1 t1 st in
       let st2 := handleNewZone zone2 skip2 t2 st1 in
       Zone.id zone1 = Zone.id zone2
       ∧ zones st2 = zones st1
       ∧ (zone2 ≠ zone1 → zone2 ∉ zones st → zone2 ∉ zones st2)).
Proof.
  split.
  - intros name now zonePoints zs zoneData Hsub.
    by rewrite (handleNameSubmit_created _ _ _ _ _ Hsub).
  - intros now name1 points1 zs1 zone1 name2 points2 zs2 zone2 skip1 skip2 t1 t2 st H1 H2.
    cbv zeta.
    apply handleNameSubmit_created in H1, H2.
    assert (Zone.id zone1 = Zone.id zone2) as Hid by (by subst).
    assert (Zone.id zone2 ∈ Zone.id <$> zones (handleNewZone zone1 skip1 t1 st)) as Hin.
    { rewrite <- Hid, handleNewZone_zones. case_bool_decide as Hex; [done|].
      rewrite fmap_app. apply elem_of_app. right. simpl. by left. }
    split; [done|].
    assert (zones (handleNewZone zone2 skip2 t2 (handleNewZone zone1 skip1 t1 st))
            = zones (handleNewZone zone1 skip1 t1 st)) as Hsame.
    { rewrite (handleNewZone_zones zone2). by rewrite bool_decide_eq_true_2. }
    split; [done|].
    intros Hne Hnot. rewrite Hsame, handleNewZone_zones.
    case_bool_decide; [done|].
    rewrite elem_of_app, list_elem_of_singleton. intros [?|?]; done.
Qed.

Lemma C10_same_millisecond_zone_discarded_witness :
  (handleNameSubmit "Kitchen" 1700000000000 (Zone.points unit_square) []
   = ZoneCreated kitchen
   ∧ handleNameSubmit "Hall" 1700000000000 (Zone.points two_vertex_zone) []
     = ZoneCreated hall)
  ∧ (let st1 := handleNewZone kitchen false 1700000000000 initialStore in
     let st2 := handleNewZone hall false 1700000000000 st1 in
     Zone.id kitchen = Zone.id hall
     ∧ zones st2 = zones st1
     ∧ (hall ≠ kitchen → hall ∉ zones initialStore → hall ∉ zones st2)).
Proof.
  split; [split; vm_compute; reflexivity|].
  apply (proj2 C10_same_millisecond_zone_discarded 1700000000000
           "Kitchen" (Zone.points unit_square) [] kitchen
           "Hall" (Zone.points two_vertex_zone) [] hall false false
           1700000000000 1700000000000 initialStore).
  - vm_compute. reflexivity.
  - vm_compute. reflexivity.
Defined.

(** ** Further properties *)

Section GeometryMore.
Implicit Types (target : Target.t) (points : list Point.t).

Lemma fold_toggle_from target (es : list (Point.t * Point.t)) (inside : bool) :
  fold_left (toggle target) es inside
  = xorb inside (fold_left (toggle target) es false).
Proof.
  revert inside. induction es as [|e es IH]; intros inside; simpl.
  - by rewrite xorb_false_r.
  - rewrite IH, (IH (toggle target false e)). unfold toggle.
    destruct (crosses target e), inside, (fold_left _ es false); reflexivity.
Qed.

Lemma fold_toggle_app_comm target (es1 es2 : list (Point.t * Point.t)) :
  fold_left (toggle target) (es1 ++ es2) false
  = fold_left (toggle target) (es2 ++ es1) false.
Proof.
  rewrite !fold_left_app.
  rewrite (fold_toggle_from target es2 (fold_left _ es1 false)).
  rewrite (fold_toggle_from target es1 (fold_left _ es2 false)).
  apply xorb_comm.
Qed.

Lemma zip_rotate (p q : Point.t) (ps : list Point.t) :
  zip (ps ++ [p]) (q :: ps ++ [p])
  = zip ps (q :: ps) ++ [(p, default q (last ps))].
Proof.
  revert q. induction ps as [|a ps IH]; intros q; [done|].
  simpl. rewrite IH.
  assert (default a (last ps) = default q (last (a :: ps))) as ->; [|done].
  rewrite last_cons. by destruct (last ps).
Qed.

Lemma polygon_edges_rotate (p : Point.t) (ps : list Point.t) :
  polygon_edges (ps ++ [p])
  = match polygon_edges (p :: ps) with
    | [] => []
    | e :: es => es ++ [e]
    end.
Proof.
  unfold polygon_edges. rewrite last_snoc.
  rewrite last_cons. simpl.
  rewrite zip_rotate. by destruct (last ps).
Qed.

Lemma ray_crossing_rule_rotate target (p : Point.t) (ps : list Point.t) :
  ray_crossing_rule target (ps ++ [p]) = ray_crossing_rule target (p :: ps).
Proof.
  unfold ray_crossing_rule. rewrite polygon_edges_rotate.
  destruct (polygon_edges (p :: ps)) as [|e es]; [done|].
  apply (fold_toggle_app_comm target es [e]).
Qed.

Lemma ray_crossing_rule_app_comm target (l1 l2 : list Point.t) :
  ray_crossing_rule target (l1 ++ l2) = ray_crossing_rule target (l2 ++ l1).
Proof.
  revert l2. induction l1 as [|a l1 IH]; intros l2.
  - by rewrite app_nil_r.
  - simpl. rewrite <- ray_crossing_rule_rotate, <- app_assoc, IH.
    by rewrite <- app_assoc.
Qed.

End GeometryMore.

(** X1: [isTargetInZone] does not depend on the vertex the polygon starts
    from, nor on the id and the name of the zone: a zone whose points are
    [l1 ++ l2] and one whose points are [l2 ++ l1] give the same answer for
    every target. *)
Theorem X1_isTargetInZone_rotation (target : Target.t) (id1 name1 id2 name2 : string)
    (l1 l2 : list Point.t) :
  isTargetInZone target (Zone.mk id1 name1 (l1 ++ l2))
  = isTargetInZone target (Zone.mk id2 name2 (l2 ++ l1)).
Proof.
  rewrite !isTargetInZone_total. simpl. f_equal. apply ray_crossing_rule_app_comm.
Qed.

(** X2: a target whose [y] is on one side of every vertex of the zone
    (the comparison [p.y > target.y] has the same outcome [above] for all
    points [p]) is outside: [isTargetInZone] returns [false], whatever the
    [x] coordinates are. *)
Theorem X2_isTargetInZone_one_side (target : Target.t) (zone : Zone.t) (above : bool) :
  (∀ p, p ∈ Zone.points zone → js_gt (Point.y p) (Target.y target) = above) →
  isTargetInZone target zone = Return false.
Proof.
  intros Hside. rewrite isTargetInZone_total. f_equal.
  unfold ray_crossing_rule, polygon_edges.
  destruct (last (Zone.points zone)) as [pn|] eqn:Hlast; [|done].
  assert (pn ∈ Zone.points zone) as Hpn.
  { rewrite last_lookup in Hlast. by eapply list_elem_of_lookup_2. }
  assert (∀ es : list (Point.t * Point.t),
            (∀ a b, (a, b) ∈ es → a ∈ Zone.points zone ∧ b ∈ Zone.points zone) →
            fold_left (toggle target) es false = false) as Hfold.
  { induction es as [|[a b] es IH]; intros Hes; [done|]. simpl.
    destruct (Hes a b (list_elem_of_here _ _)) as [Ha Hb].
    unfold toggle at 2. unfold crosses.
    rewrite (Hside a Ha), (Hside b Hb), xorb_nilpotent. simpl.
    apply IH. intros a' b' Hin. apply Hes. by right. }
  apply Hfold. intros a b Hin. split.
  - eapply elem_of_zip_l, Hin.
  - apply elem_of_zip_r in Hin. apply elem_of_cons in Hin as [->|Hin]; done.
Qed.

Lemma X2_isTargetInZone_one_side_witness :
  (∀ p, p ∈ Zone.points unit_square →
        js_gt (Point.y p) (Target.y target_above) = false)
  ∧ isTargetInZone target_above unit_square = Return false.
Proof.
  assert (∀ p, p ∈ Zone.points unit_square →
               js_gt (Point.y p) (Target.y target_above) = false) as Hside.
  { intros p Hp. simpl in Hp.
    repeat (apply elem_of_cons in Hp as [->|Hp]; [reflexivity|]).
    by apply elem_of_nil in Hp. }
  split; [exact Hside|].
  exact (X2_isTargetInZone_one_side target_above unit_square false Hside).
Defined.

Section EngineMore.
Implicit Types (zone : Zone.t) (zs : list Zone.t) (ts : list Target.t) (st : Store).

Lemma transitionEntry_entryOf now zone ts : entryOf now zone ts (transitionEntry now zone ts).
Proof.
  unfold entryOf, transitionEntry. simpl. split; [done|]. split; [done|]. split.
  - unfold isOccupied. destruct (Nat.ltb_spec 0 (length (targetsInside zone ts))); split;
      (done || lia).
  - intros target Hin. unfold targetsInside in Hin.
    apply list_elem_of_In, filter_In in Hin as [Hin Hz].
    rewrite list_elem_of_In. split; [done|]. by rewrite isTargetInZone_inZone, Hz.
Qed.

Lemma flipEntries_entryOf now prev ts zs (zoneId : string) :
  Forall (λ e, ∃ zone, zone ∈ zs ∧ Zone.id zone = zoneId ∧ entryOf now zone ts e)
    (flipEntries now prev ts zs zoneId).
Proof.
  induction zs as [|zone zs IH]; [constructor|].
  unfold flipEntries. simpl. apply Forall_app. split.
  - case_bool_decide as Hid; simpl; [|constructor].
    destruct (flips prev zone ts); constructor; [|constructor].
    exists zone. split; [left|]. split; [done|apply transitionEntry_entryOf].
  - eapply Forall_impl; [exact IH|]. intros e (z & Hz & Hid & He).
    exists z. split; [by right|done].
Qed.

Lemma expectedLog_alternates (zoneId : string) zone zs :
  distinctIds zs → zone ∈ zs → Zone.id zone = zoneId →
  ∀ updates was ts,
    onlyTargetUpdates updates →
    alternates was (expectedLog zoneId was zs ts updates).
Proof.
  intros Hd Hin Hid. induction updates as [|[now u] updates IH]; intros was ts Hup; [done|].
  apply Forall_cons in Hup as [Hu Hup]. destruct u as [ts'|]; [|done].
  cbn [expectedLog zonesAfter targetsAfter].
  destruct (skipped zs ts'); [by apply IH|].
  subst zoneId. rewrite (find_id_elem zs zone Hd Hin).
  destruct (isOccupied zone ts') eqn:Hocc, was; simpl; auto.
  - split; [unfold transitionEntry; simpl; by rewrite Hocc|]. by apply IH.
  - split; [unfold transitionEntry; simpl; by rewrite Hocc|]. by apply IH.
Qed.

Lemma some_c_total {A} (p : A → completion bool) (q : A → bool) (l : list A) :
  (∀ a, p a = Return (q a)) → some_c p l = Return (existsb q l).
Proof.
  intros Hp. induction l as [|a l IH]; [done|].
  simpl. rewrite Hp. simpl. by destruct (q a).
Qed.

Lemma map_c_total {A B} (f : A → completion B) (g : A → B) (l : list A) :
  (∀ a, f a = Return (g a)) → map_c f l = Return (g <$> l).
Proof.
  intros Hf. induction l as [|a l IH]; [done|].
  simpl. by rewrite Hf, IH.
Qed.

Lemma existsb_inZone_isOccupied zone ts :
  existsb (λ target, inZone target zone) ts = isOccupied zone ts.
Proof.
  unfold isOccupied, targetsInside. induction ts as [|t ts IH]; [done|].
  simpl. destruct (inZone t zone); simpl; [done|exact IH].
Qed.

Lemma zoneStates_total zs ts :
  zoneStates zs ts
  = Return ((λ zone, ZoneState.mk (Zone.id zone) (Zone.name zone) (Zone.points zone)
                       (isOccupied zone ts)) <$> zs).
Proof.
  unfold zoneStates. apply map_c_total. intros zone.
  rewrite (some_c_total _ (λ target, inZone target zone))
    by (intros a; apply isTargetInZone_inZone).
  simpl. by rewrite existsb_inZone_isOccupied.
Qed.

Lemma no_flip_after zs ts :
  distinctIds zs →
  existsb (λ zone, flips (occupiedZones zs ts) zone ts) zs = false.
Proof.
  intros Hd. apply not_true_is_false. intros (zone & Hin & Hf)%existsb_exists.
  apply list_elem_of_In in Hin. unfold flips in Hf.
  rewrite (occupiedZones_distinct zs ts (Zone.id zone) Hd), (find_id_elem zs zone Hd Hin) in Hf.
  by rewrite eqb_reflx in Hf.
Qed.

End EngineMore.

(** X3: a run of the occupancy engine that returns only appends to the
    log of a zone, and every entry it appends is well formed: it carries
    the time of the run, its [targetCount] is the length of its [targets],
    its type is 'occupied' exactly when that count is positive, and each
    target it lists is one of the current targets and lies inside a
    current zone with that id.  The run returns whenever no zone id is a
    name that a plain object inherits. *)
Theorem X3_engine_entries_well_formed (now : Z) (u : Update) (st : Store) (zoneId : string) :
  frames st = [] →
  (plainIds (zonesAfter u (zones st)) → ∃ st', engineStep now u st = Return st')
  ∧ (∀ st', engineStep now u st = Return st' →
       ∃ new,
         logsOf st' zoneId = logsOf st zoneId ++ new
         ∧ Forall (λ e, ∃ zone, zone ∈ zones st' ∧ Zone.id zone = zoneId
                          ∧ entryOf now zone (targets st') e) new).
Proof.
  intros Hfr. split; [by apply engineStep_returns|].
  intros st' Hstep.
  destruct (engineStep_Return now u st st' Hfr Hstep) as (_ & _ & _ & Hcase).
  destruct (skipped (zones st') (targets st')).
  - exists []. destruct Hcase as (Hl & _). split; [|constructor].
    unfold logsOf. by rewrite Hl, app_nil_r.
  - destruct Hcase as (Hl & _). eexists. split; [apply Hl|].
    apply flipEntries_entryOf.
Qed.

Lemma X3_engine_entries_well_formed_witness :
  (frames watching = [] ∧ plainIds (zonesAfter (setTargets [target_a]) (zones watching)))
  ∧ ∃ st' new,
      engineStep 100 (setTargets [target_a]) watching = Return st'
      ∧ logsOf st' "zone_1" = logsOf watching "zone_1" ++ new
      ∧ Forall (λ e, ∃ zone, zone ∈ zones st' ∧ Zone.id zone = "zone_1"
                       ∧ entryOf 100 zone (targets st') e) new.
Proof.
  assert (plainIds (zonesAfter (setTargets [target_a]) (zones watching))) as Hpl
    by (repeat constructor).
  split; [split; [reflexivity|exact Hpl]|].
  destruct (X3_engine_entries_well_formed 100 (setTargets [target_a]) watching "zone_1"
              eq_refl) as [Hreturns Hentries].
  destruct (Hreturns Hpl) as (st' & Hstep).
  destruct (Hentries st' Hstep) as (new & Hlog & Hwf).
  exists st', new. split; [exact Hstep|]. split; [exact Hlog|exact Hwf].
Defined.

(** X4: while only the target list changes, the entries appended to the
    log of a zone alternate: starting from a zone list with distinct ids,
    none of them a name that a plain object inherits, the run returns, the
    first new entry is 'unoccupied' if the zone was in
    [prevActiveZonesRef] and 'occupied' otherwise, and each further one
    has the other type than the one before it. *)
Theorem X4_target_updates_alternate (zoneId : string) (zone : Zone.t)
    (updates : list (Z * Update)) (st : Store) :
  frames st = [] → distinctIds (zones st) → plainIds (zones st) →
  zone ∈ zones st → Zone.id zone = zoneId →
  onlyTargetUpdates updates →
  ∃ st' new,
    engineRun updates st = Return st'
    ∧ logsOf st' zoneId = logsOf st zoneId ++ new
    ∧ alternates (bool_decide (zoneId ∈ prevActiveZonesRef st)) new.
Proof.
  intros Hfr Hd Hpl Hin Hid Hup.
  assert (updatesDistinctIds updates) as Hud.
  { eapply Forall_impl; [exact Hup|]. intros [now u]. simpl. by destruct u. }
  assert (updatesPlainIds updates) as Hupl.
  { eapply Forall_impl; [exact Hup|]. intros [now u]. simpl. by destruct u. }
  destruct (engineRun_log zoneId updates st Hfr Hd Hud Hpl Hupl) as (st' & Hrun & Hlog).
  exists st'. eexists. split; [done|]. split; [exact Hlog|].
  by eapply expectedLog_alternates.
Qed.

Lemma X4_target_updates_alternate_witness :
  (frames watching = [] ∧ distinctIds (zones watching) ∧ plainIds (zones watching)
   ∧ unit_square ∈ zones watching ∧ Zone.id unit_square = "zone_1"
   ∧ onlyTargetUpdates two_target_updates)
  ∧ ∃ st' new,
      engineRun two_target_updates watching = Return st'
      ∧ logsOf st' "zone_1" = logsOf watching "zone_1" ++ new
      ∧ alternates (bool_decide ("zone_1" ∈ prevActiveZonesRef watching)) new.
Proof.
  assert (distinctIds [unit_square]) as Hd by (apply NoDup_singleton).
  assert (onlyTargetUpdates two_target_updates) as Hup by (repeat constructor).
  assert (plainIds [unit_square]) as Hpl by (repeat constructor).
  split.
  - split; [reflexivity|]. split; [exact Hd|]. split; [exact Hpl|].
    split; [apply list_elem_of_here|].
    split; [reflexivity|exact Hup].
  - exact (X4_target_updates_alternate "zone_1" unit_square two_target_updates watching
             eq_refl Hd Hpl (list_elem_of_here _ _) eq_refl Hup).
Defined.

(** X5: with pairwise distinct zone ids the occupancy engine is at rest
    after one run: running it again on the store it produced, with the
    same targets or the same zones and at any later time, returns and
    changes nothing (no log entry, no change of the active set). *)
Theorem X5_rerun_is_noop (now now' : Z) (u : Update) (st st1 : Store) :
  frames st = [] → distinctIds (zonesAfter u (zones st)) →
  engineStep now u st = Return st1 →
  engineStep now' (setTargets (targets st1)) st1 = Return st1
  ∧ engineStep now' (setZones (zones st1)) st1 = Return st1.
Proof.
  intros Hfr Hd Hstep.
  destruct (engineStep_Return now u st st1 Hfr Hstep) as (Hfr1 & Hz1 & Ht1 & Hcase).
  assert (applyUpdate (setTargets (targets st1)) st1 = st1) as Ha1 by (by destruct st1).
  assert (applyUpdate (setZones (zones st1)) st1 = st1) as Ha2 by (by destruct st1).
  assert (occupancyEffect now' st1 = Return st1) as Heff.
  { destruct (skipped (zones st1) (targets st1)) eqn:Hskip.
    - unfold occupancyEffect. unfold skipped in Hskip. by rewrite Hskip.
    - destruct Hcase as (_ & Hp & _).
      assert (existsb (λ zone, flips (prevActiveZonesRef st1) zone (targets st1))
                (zones st1) = false) as Hno
        by (rewrite Hp; apply no_flip_after; by rewrite Hz1).
      rewrite occupancyEffect_plain by (by apply no_flip_pushes).
      f_equal. unfold observed. rewrite Hskip. cbv zeta.
      rewrite scan_hasChanges, Hno. simpl.
      rewrite scan_current. simpl.
      replace (occupiedZones (zones st1) (targets st1) ∪ ∅)
        with (prevActiveZonesRef st1) by (rewrite Hp; set_solver).
      by destruct st1. }
  assert (runAnimationFrame st1 = Return st1) as Hraf.
  { unfold runAnimationFrame. rewrite Hfr1. simpl. destruct st1. simpl in *. by subst. }
  unfold engineStep. rewrite Ha1, Ha2, Heff. simpl. by rewrite Hraf.
Qed.

Lemma X5_rerun_is_noop_witness :
  frames watching = []
  ∧ distinctIds (zonesAfter (setTargets [target_a]) (zones watching))
  ∧ ∃ st1,
      engineStep 100 (setTargets [target_a]) watching = Return st1
      ∧ engineStep 200 (setTargets (targets st1)) st1 = Return st1
      ∧ engineStep 200 (setZones (zones st1)) st1 = Return st1.
Proof.
  assert (distinctIds [unit_square]) as Hd by (apply NoDup_singleton).
  split; [reflexivity|]. split; [exact Hd|].
  destruct (engineStep_returns 100 (setTargets [target_a]) watching eq_refl)
    as (st1 & Hstep); [repeat constructor|].
  exists st1. split; [exact Hstep|].
  exact (X5_rerun_is_noop 100 200 (setTargets [target_a]) watching st1 eq_refl Hd Hstep).
Defined.

(** X6: with pairwise distinct zone ids the [isActive] flags that
    [RadarVisualization] computes in [zoneStates] agree with the engine of
    [MainScreen]: after a run that returned and was not skipped,
    [zoneStates] returns one state per zone, and a state is active exactly
    when its id is in [prevActiveZonesRef]; if moreover
    the two sets agreed before the run and held only ids of present
    zones, exactly when its id is in [activeZones]. *)
Theorem X6_radar_agrees_with_engine (now : Z) (u : Update) (st st' : Store) :
  frames st = [] → distinctIds (zonesAfter u (zones st)) →
  engineStep now u st = Return st' →
  skipped (zones st') (targets st') = false →
  ∃ states,
    zoneStates (zones st') (targets st') = Return states
    ∧ length states = length (zones st')
    ∧ (∀ s, s ∈ states →
         ZoneState.isActive s = bool_decide (ZoneState.id s ∈ prevActiveZonesRef st'))
    ∧ (activeZones st = prevActiveZonesRef st →
       prevActiveZonesRef st ⊆ list_to_set (Zone.id <$> zones st') →
       ∀ s, s ∈ states →
         ZoneState.isActive s = bool_decide (ZoneState.id s ∈ activeZones st')).
Proof.
  intros Hfr Hd Hstep Hskip.
  destruct (engineStep_Return now u st st' Hfr Hstep) as (_ & Hz1 & _ & Hcase).
  rewrite Hskip in Hcase. destruct Hcase as (_ & Hp & Ha).
  assert (distinctIds (zones st')) as Hd' by (by rewrite Hz1).
  assert (∀ s, s ∈ ((λ zone, ZoneState.mk (Zone.id zone) (Zone.name zone) (Zone.points zone)
                               (isOccupied zone (targets st'))) <$> zones st') →
            ZoneState.isActive s = bool_decide (ZoneState.id s ∈ prevActiveZonesRef st'))
    as Hagree.
  { intros s (zone & -> & Hin)%list_elem_of_fmap. simpl.
    by rewrite Hp, (occupiedZones_distinct _ _ _ Hd'), (find_id_elem _ _ Hd' Hin). }
  eexists. split; [apply zoneStates_total|]. split; [by rewrite length_fmap|].
  split; [exact Hagree|].
  intros Hsame Hsub s Hs. rewrite (Hagree s Hs). f_equal.
  rewrite Ha. destruct (existsb _ (zones st')) eqn:Hex; [by rewrite Hp|].
  rewrite Hsame, Hp. by rewrite (occupiedZones_no_flip _ _ _ Hex Hsub).
Qed.

Lemma X6_radar_agrees_with_engine_witness :
  frames watching = []
  ∧ distinctIds (zonesAfter (setTargets [target_a]) (zones watching))
  ∧ ∃ st',
      engineStep 100 (setTargets [target_a]) watching = Return st'
      ∧ skipped (zones st') (targets st') = false
      ∧ (activeZones watching = prevActiveZonesRef watching
         ∧ prevActiveZonesRef watching ⊆ list_to_set (Zone.id <$> zones st'))
      ∧ ∃ states,
          zoneStates (zones st') (targets st') = Return states
          ∧ length states = length (zones st')
          ∧ (∀ s, s ∈ states →
               ZoneState.isActive s
               = bool_decide (ZoneState.id s ∈ prevActiveZonesRef st'))
          ∧ (∀ s, s ∈ states →
               ZoneState.isActive s = bool_decide (ZoneState.id s ∈ activeZones st')).
Proof.
  assert (distinctIds [unit_square]) as Hd by (apply NoDup_singleton).
  split; [reflexivity|]. split; [exact Hd|].
  assert (plainIds [unit_square]) as Hpl by (repeat constructor).
  destruct (engineStep_spec 100 (setTargets [target_a]) watching eq_refl Hpl)
    as (st' & Hstep & _ & Hz & Ht & _).
  assert (skipped (zones st') (targets st') = false) as Hskip
    by (rewrite Hz, Ht; reflexivity).
  assert (activeZones watching = prevActiveZonesRef watching
          ∧ prevActiveZonesRef watching ⊆ list_to_set (Zone.id <$> zones st')) as Hhyp
    by (split; [reflexivity|apply empty_subseteq]).
  exists st'. split; [exact Hstep|]. split; [exact Hskip|]. split; [exact Hhyp|].
  destruct (X6_radar_agrees_with_engine 100 (setTargets [target_a]) watching st'
              eq_refl Hd Hstep Hskip) as (states & Hstates & Hlen & Hprev & Hactive).
  exists states. split; [exact Hstates|]. split; [exact Hlen|]. split; [exact Hprev|].
  exact (Hactive (proj1 Hhyp) (proj2 Hhyp)).
Defined.

Section ZoneList.
Implicit Types (zone : Zone.t) (zs : list Zone.t) (st : Store).

Lemma filter_id_distinct zs (zoneId : string) :
  distinctIds zs → distinctIds (filter (λ zone, Zone.id zone ≠ zoneId) zs).
Proof.
  unfold distinctIds. induction zs as [|zone zs IH]; [done|].
  intros [Hnot Hnd]%NoDup_cons. rewrite filter_cons.
  destruct (decide (Zone.id zone ≠ zoneId)); [|auto].
  simpl. apply NoDup_cons. split; [|auto].
  intros (z & Hid & Hin)%list_elem_of_fmap. apply Hnot.
  apply list_elem_of_filter in Hin as [_ Hin]. rewrite Hid. by apply list_elem_of_fmap_2.
Qed.

Lemma filter_id_absent zs (zoneId : string) :
  zoneId ∉ Zone.id <$> zs → filter (λ zone, Zone.id zone ≠ zoneId) zs = zs.
Proof.
  induction zs as [|zone zs IH]; [done|]. simpl.
  intros [Hne Hnot]%not_elem_of_cons. rewrite filter_cons.
  destruct (decide (Zone.id zone ≠ zoneId)) as [|Hn]; [|exfalso; apply Hn; congruence].
  by rewrite IH.
Qed.

Lemma existsb_lower_name zs (name : string) :
  existsb (λ zone, String.eqb (toLowerCase (Zone.name zone)) (toLowerCase name)) zs = false →
  toLowerCase name ∉ (λ zone, toLowerCase (Zone.name zone)) <$> zs.
Proof.
  intros Hex (zone & Heq & Hin)%list_elem_of_fmap.
  assert (existsb (λ zone, String.eqb (toLowerCase (Zone.name zone)) (toLowerCase name)) zs
          = true) as Htrue; [|congruence].
  apply existsb_exists. exists zone. split; [by apply list_elem_of_In|].
  apply String.eqb_eq. done.
Qed.

End ZoneList.

(** X7: [cleanupTargets] keeps the last 20 targets, in order: the list
    it leaves is the old one without its first [length - 20] elements, its
    length is the minimum of the old length and 20, and a second call
    changes nothing. *)
Theorem X7_cleanupTargets_keeps_last (st : Store) :
  targets (cleanupTargets st)
  = drop (length (targets st) - 20) (targets st)
  ∧ length (targets (cleanupTargets st)) = Nat.min (length (targets st)) 20
  ∧ cleanupTargets (cleanupTargets st) = cleanupTargets st.
Proof.
  assert (∀ ts : list Target.t,
            (if Z.of_nat (length ts) >? MAX_TARGETS then slice_from (- MAX_TARGETS) ts else ts)
            = drop (length ts - 20) ts) as Hkeep.
  { intros ts. unfold MAX_TARGETS, slice_from.
    destruct (Z.gtb_spec (Z.of_nat (length ts)) 20) as [Hgt|Hle].
    - simpl. f_equal. lia.
    - replace (length ts - 20)%nat with 0%nat by lia. done. }
  assert (targets (cleanupTargets st) = drop (length (targets st) - 20) (targets st)) as Ht.
  { unfold cleanupTargets. rewrite Hkeep. by destruct st. }
  split; [exact Ht|]. split.
  - rewrite Ht, length_drop. lia.
  - unfold cleanupTargets at 1. rewrite Hkeep, Ht.
    replace (length (drop (length (targets st) - 20) (targets st)) - 20)%nat with 0%nat
      by (rewrite length_drop; lia).
    simpl. rewrite <- Ht. by destruct (cleanupTargets st).
Qed.

(** X8: the ids of the zone list stay pairwise distinct through
    [handleNewZone] (which drops a zone whose id is taken), through
    [handleZoneDeleteConfirmation], and through a 'zone_deleted' message,
    whichever render made the handler.
    (A 'zones_response' message replaces the list by the one the server
    sent and is not covered.) *)
Theorem X8_zone_ids_stay_distinct (st : Store) :
  distinctIds (zones st) →
  (∀ zoneData skip now, distinctIds (zones (handleNewZone zoneData skip now st)))
  ∧ (∀ selected zoneId,
       distinctIds (zones (handleZoneDeleteConfirmation selected zoneId st)))
  ∧ (∀ env success zid now,
       distinctIds (zones (ws_onmessage env (json (zone_deleted success zid)) now st))).
Proof.
  intros Hd. split; [|split].
  - intros zoneData skip now. rewrite handleNewZone_zones.
    case_bool_decide as Hex; [done|]. unfold distinctIds in *.
    rewrite fmap_app. apply NoDup_app. split; [done|]. split; [|apply NoDup_singleton].
    intros x Hx Hin. apply list_elem_of_singleton in Hin. by subst.
  - intros selected zoneId.
    rewrite (proj1 (handleZoneDeleteConfirmation_cells selected zoneId st)).
    by apply filter_id_distinct.
  - intros env success zid now. rewrite ws_onmessage_zone_deleted. cbv zeta.
    destruct (stamp_cells now st) as (Hz & _).
    destruct success, (truthy zid); try (by rewrite Hz).
    rewrite (proj1 (handleZoneDeleteConfirmation_cells _ _ _)), Hz.
    by apply filter_id_distinct.
Qed.

Lemma X8_zone_ids_stay_distinct_witness :
  distinctIds (zones watching)
  ∧ (∀ zoneData skip now, distinctIds (zones (handleNewZone zoneData skip now watching)))
  ∧ (∀ selected zoneId,
       distinctIds (zones (handleZoneDeleteConfirmation selected zoneId watching)))
  ∧ (∀ env success zid now,
       distinctIds (zones (ws_onmessage env (json (zone_deleted success zid)) now watching))).
Proof.
  assert (distinctIds (zones watching)) as Hd by (apply NoDup_singleton).
  split; [exact Hd|exact (X8_zone_ids_stay_distinct watching Hd)].
Defined.

(** X9: creating a zone and then receiving the confirmation of its
    deletion gives back the zone list from before: when the id is new and
    not empty, [handleNewZone] puts the zone in the list, and a
    successful 'zone_deleted' message for that id, on a socket of any
    render, then leaves exactly the earlier list. *)
Theorem X9_create_then_confirmed_delete (env : Closure) (zoneData : Zone.t) (skip : bool)
    (now now' : Z) (st : Store) :
  Zone.id zoneData ∉ Zone.id <$> zones st →
  Zone.id zoneData ≠ "" →
  zoneData ∈ zones (handleNewZone zoneData skip now st)
  ∧ zones (ws_onmessage env (json (zone_deleted true (Some (Zone.id zoneData)))) now'
             (handleNewZone zoneData skip now st))
    = zones st.
Proof.
  intros Hfresh Hne.
  assert (zones (handleNewZone zoneData skip now st) = zones st ++ [zoneData]) as Hnew.
  { rewrite handleNewZone_zones. by rewrite bool_decide_eq_false_2. }
  split; [rewrite Hnew; apply elem_of_app; right; left|].
  rewrite ws_onmessage_zone_deleted. cbv zeta.
  unfold truthy. rewrite bool_decide_eq_false_2 by done.
  rewrite (proj1 (handleZoneDeleteConfirmation_cells _ _ _)).
  rewrite (proj1 (stamp_cells now' _)), Hnew, filter_app, filter_id_absent by done.
  rewrite filter_cons. destruct (decide (Zone.id zoneData ≠ Zone.id zoneData)); [done|].
  by rewrite filter_nil, app_nil_r.
Qed.

Lemma X9_create_then_confirmed_delete_witness :
  ((Zone.id kitchen ∉ Zone.id <$> zones watching) ∧ Zone.id kitchen ≠ "")
  ∧ kitchen ∈ zones (handleNewZone kitchen false 100 watching)
  ∧ zones (ws_onmessage open_render (json (zone_deleted true (Some (Zone.id kitchen)))) 200
             (handleNewZone kitchen false 100 watching))
    = zones watching.
Proof.
  assert (Zone.id kitchen ∉ Zone.id <$> zones watching) as Hnew.
  { simpl. intros Hin. apply list_elem_of_singleton in Hin. discriminate. }
  assert (Zone.id kitchen ≠ "") as Hid by discriminate.
  split; [split; [exact Hnew|exact Hid]|].
  exact (X9_create_then_confirmed_delete open_render kitchen false 100 200 watching
           Hnew Hid).
Defined.

(** X10: a deletion confirmed twice is harmless:
    [handleZoneDeleteConfirmation] applied a second time for the same id
    leaves the store as the first application left it, both when the
    handler of one render (with its captured selected zone) runs twice and
    when the second run is by a handler whose render had no selected
    zone. *)
Theorem X10_duplicate_confirmation_harmless (selected : option Zone.t) (zoneId : string)
    (st : Store) :
  handleZoneDeleteConfirmation selected zoneId
    (handleZoneDeleteConfirmation selected zoneId st)
  = handleZoneDeleteConfirmation selected zoneId st
  ∧ handleZoneDeleteConfirmation None zoneId
      (handleZoneDeleteConfirmation selected zoneId st)
    = handleZoneDeleteConfirmation selected zoneId st.
Proof.
  assert (∀ zs : list Zone.t,
            filter (λ zone, Zone.id zone ≠ zoneId) (filter (λ zone, Zone.id zone ≠ zoneId) zs)
            = filter (λ zone, Zone.id zone ≠ zoneId) zs) as Hfilter.
  { intros zs. rewrite list_filter_filter. apply list_filter_iff. naive_solver. }
  assert (∀ ids : gset string, ids ∖ {[zoneId]} ∖ {[zoneId]} = ids ∖ {[zoneId]}) as Hset
    by set_solver.
  unfold handleZoneDeleteConfirmation.
  destruct st as [? ? ? zs az dz zl ? sel ? ? ? ? ? ? ? ? ? ? ? ? ? ? ? ? ? ?].
  destruct selected as [zone|]; simpl.
  - case_bool_decide; simpl; rewrite !Hfilter, !Hset, !delete_delete_eq; done.
  - rewrite !Hfilter, !Hset, !delete_delete_eq; done.
Qed.

(** X11: ASCII zone names stay pairwise different, letter case ignored:
    if the names of the zone list are ASCII and pairwise different, and
    [handleNameSubmit] accepts an ASCII name that has no white space
    around it, then the list that [handleNewZone] makes of the created
    zone has pairwise different names again. *)
Theorem X11_trimmed_names_stay_distinct (name : string) (now t : Z)
    (zonePoints : list Point.t) (skip : bool) (zoneData : Zone.t) (st : Store) :
  asciiOnly name = true →
  Forall (λ zone, asciiOnly (Zone.name zone) = true) (zones st) →
  distinctNames (zones st) →
  trim name = name →
  handleNameSubmit name now zonePoints (zones st) = ZoneCreated zoneData →
  distinctNames (zones (handleNewZone zoneData skip t st)).
Proof.
  intros _ _ Hd Htrim Hsub. rewrite handleNewZone_zones.
  case_bool_decide; [done|]. unfold distinctNames in *.
  rewrite fmap_app. apply NoDup_app. split; [done|]. split; [|apply NoDup_singleton].
  intros x Hx Hin. apply list_elem_of_singleton in Hin. subst x.
  unfold handleNameSubmit in Hsub. case_bool_decide; [done|].
  destruct (existsb _ (zones st)) eqn:Hex; [done|].
  injection Hsub as <-. simpl in Hx. rewrite Htrim in Hx.
  by apply existsb_lower_name in Hex.
Qed.

Lemma X11_trimmed_names_stay_distinct_witness :
  (asciiOnly "Hall" = true
   ∧ Forall (λ zone, asciiOnly (Zone.name zone) = true) (zones watching)
   ∧ distinctNames (zones watching) ∧ trim "Hall" = "Hall"
   ∧ handleNameSubmit "Hall" 1700000000000 (Zone.points two_vertex_zone) (zones watching)
     = ZoneCreated hall)
  ∧ distinctNames (zones (handleNewZone hall false 1700000000001 watching)).
Proof.
  assert (distinctNames (zones watching)) as Hd by (apply NoDup_singleton).
  assert (handleNameSubmit "Hall" 1700000000000 (Zone.points two_vertex_zone)
            (zones watching) = ZoneCreated hall) as Hsub by (vm_compute; reflexivity).
  assert (Forall (λ zone, asciiOnly (Zone.name zone) = true) (zones watching)) as Hascii
    by (repeat constructor).
  split; [split; [reflexivity|split; [exact Hascii|split; [exact Hd|split;
    [reflexivity|exact Hsub]]]]|].
  exact (X11_trimmed_names_stay_distinct "Hall" 1700000000000 1700000000001
           (Zone.points two_vertex_zone) false hall watching eq_refl Hascii Hd eq_refl
           Hsub).
Defined.

Section Events.
Implicit Types (e : Event) (st : Store).

Lemma runAnimationFrame_frame st st' :
  runAnimationFrame st = Return st' →
  pendingZones st' = pendingZones st
  ∧ sent st' = sent st
  ∧ socket st' = socket st
  ∧ connectionAttempts st' = connectionAttempts st
  ∧ isConnectingRef st' = isConnectingRef st.
Proof. intros (logs & active & ->)%runAnimationFrame_cells. by destruct st. Qed.

Lemma occupancyEffect_frame now st st' :
  occupancyEffect now st = Return st' →
  pendingZones st' = pendingZones st ∧ sent st' = sent st ∧ socket st' = socket st
  ∧ connectionAttempts st' = connectionAttempts st
  ∧ isConnectingRef st' = isConnectingRef st.
Proof.
  intros ->%occupancyEffect_Return. unfold observed.
  destruct (skipped _ _); [done|]. cbv zeta. destruct (hasChanges _); by destruct st.
Qed.

Lemma connectWebSocket_frame env throws now st :
  pendingZones (connectWebSocket env throws now st) = pendingZones st
  ∧ sent (connectWebSocket env throws now st) = sent st
  ∧ socket (connectWebSocket env throws now st) = socket st
  ∧ connectionAttempts (connectWebSocket env throws now st) = connectionAttempts st.
Proof.
  unfold connectWebSocket. cases_of st; simpl; repeat (case_match; simpl; try done).
Qed.

Lemma connectionCleanup_frame closes st :
  pendingZones (connectionCleanup closes st) = pendingZones st
  ∧ sent (connectionCleanup closes st) = sent st
  ∧ connectionAttempts (connectionCleanup closes st) = connectionAttempts st
  ∧ (socket_open st = false → socket_open (connectionCleanup closes st) = false).
Proof.
  unfold connectionCleanup, socket_open. cases_of st; destruct closes; done.
Qed.

Lemma connectionEffect_frame closes throws now st :
  pendingZones (connectionEffect closes throws now st) = pendingZones st
  ∧ sent (connectionEffect closes throws now st) = sent st
  ∧ connectionAttempts (connectionEffect closes throws now st) = connectionAttempts st
  ∧ (socket_open st = false → socket_open (connectionEffect closes throws now st) = false).
Proof.
  unfold connectionEffect.
  destruct (connectWebSocket_frame (closureOf st) throws now (connectionCleanup closes st))
    as (-> & -> & Hs & ->).
  destruct (connectionCleanup_frame closes st) as (-> & -> & -> & Hc).
  repeat split; try done. unfold socket_open in *. by rewrite Hs.
Qed.

Lemma forceReconnect_frame env now st :
  pendingZones (forceReconnect env now st) = pendingZones st
  ∧ sent (forceReconnect env now st) = sent st
  ∧ socket_open (forceReconnect env now st) = false.
Proof.
  unfold forceReconnect, socket_open.
  cases_of st; simpl; repeat (case_match; simpl; try done).
Qed.

Lemma ws_onclose_frame env code st :
  pendingZones (ws_onclose env code st) = pendingZones st
  ∧ sent (ws_onclose env code st) = sent st
  ∧ (socket_open st = false → socket_open (ws_onclose env code st) = false).
Proof.
  unfold ws_onclose, socket_open.
  cases_of st; simpl; repeat (case_match; simpl; try done).
Qed.

Lemma ws_onmessage_frame env frame now st :
  pendingZones (ws_onmessage env frame now st) = pendingZones st
  ∧ sent (ws_onmessage env frame now st) = sent st
  ∧ socket (ws_onmessage env frame now st) = socket st
  ∧ connectionAttempts (ws_onmessage env frame now st) = connectionAttempts st.
Proof.
  destruct frame as [|data]; [done|].
  destruct data as [[?|]|[] [zid|]|[?|]|[?|]|[?|]|[?|]| | | | |]; try (by destruct st).
  unfold ws_onmessage, dispatch, truthy, handleZoneDeleteConfirmation.
  destruct env as [n [sel|]];
    cases_of st; simpl; repeat (case_bool_decide; simpl; try done).
Qed.

Lemma fireTimer_frame fr throws h now st :
  pendingZones (fireTimer fr throws h now st) = pendingZones st
  ∧ sent (fireTimer fr throws h now st) = sent st
  ∧ (socket_open st = false → socket_open (fireTimer fr throws h now st) = false).
Proof.
  unfold fireTimer. destruct (timers st !! h) as [[[env|] d]|]; simpl; [| |done].
  - set (st1 := set_timers _ st).
    destruct (connectWebSocket_frame env throws now st1) as (-> & -> & Hs & _).
    unfold socket_open. rewrite Hs. by destruct st.
  - set (st1 := set_timers _ st).
    assert (pendingZones st1 = pendingZones st ∧ sent st1 = sent st
            ∧ socket st1 = socket st) as (Hp & Hs & Hso) by (by destruct st).
    case_match.
    + destruct (forceReconnect_frame fr now st1) as (-> & -> & ->). by destruct st.
    + unfold socket_open. by destruct st.
Qed.

(** No handler takes an id out of the pending set. *)
Lemma step_pendingZones e now st st' :
  step e now st = Return st' → pendingZones st ⊆ pendingZones st'.
Proof.
  destruct e as [throws|closes throws| |env code|env frame|fr throws h| |env|message
                |button zoneId|zone|zoneData skip| |];
    simpl; intros Hstep; try (injection Hstep as <-).
  - by rewrite (proj1 (connectWebSocket_frame _ _ _ _)).
  - by rewrite (proj1 (connectionEffect_frame _ _ _ _)).
  - by destruct st.
  - by rewrite (proj1 (ws_onclose_frame _ _ _)).
  - by rewrite (proj1 (ws_onmessage_frame _ _ _ _)).
  - by rewrite (proj1 (fireTimer_frame _ _ _ _ _)).
  - unfold resetTimer_tick. destruct st. simpl. by case_match.
  - by rewrite (proj1 (forceReconnect_frame _ _ _)).
  - unfold sendWebSocketMessage. cases_of st; done.
  - destruct button; [done|]. cases_of st; done.
  - unfold handleZonePress, handleZoneLogsRequest. cases_of st; done.
  - unfold handleNewZone. cases_of st; simpl; destruct skip; simpl; set_solver.
  - by rewrite (proj1 (occupancyEffect_frame _ _ _ Hstep)).
  - by rewrite (proj1 (runAnimationFrame_frame _ _ Hstep)).
Qed.

Lemma runEvents_pendingZones events :
  ∀ st st', runEvents events st = Return st' → pendingZones st ⊆ pendingZones st'.
Proof.
  induction events as [|[e now] events IH]; intros st st' Hrun; simpl in Hrun.
  - by injection Hrun as <-.
  - destruct (step e now st) as [st1| |] eqn:Hstep; simpl in Hrun; try done.
    pose proof (step_pendingZones _ _ _ _ Hstep). pose proof (IH _ _ Hrun). set_solver.
Qed.



(** The failure counter never goes below 0. *)
Lemma step_connectionAttempts e now st st' :
  step e now st = Return st' →
  0 ≤ connectionAttempts st → 0 ≤ connectionAttempts st'.
Proof.
  assert (∀ env t s, 0 ≤ connectionAttempts s →
                     0 ≤ connectionAttempts (forceReconnect env t s)) as Hforce.
  { intros env t s Hs. destruct (forceReconnect_cells env t s) as (-> & _).
    destruct (captured_connectionAttempts env >? 3); lia. }
  destruct e as [throws|closes throws| |env code|env frame|fr throws h| |env|message
                |button zoneId|zone|zoneData skip| |];
    simpl; intros Hstep; try (injection Hstep as <-).
  - by rewrite (proj2 (proj2 (proj2 (connectWebSocket_frame _ _ _ _)))).
  - by rewrite (proj1 (proj2 (proj2 (connectionEffect_frame _ _ _ _)))).
  - destruct st. simpl. lia.
  - intros Hn. unfold ws_onclose.
    destruct (code =? 1000), (code =? 1001); simpl; try (by destruct st);
      destruct (_ >=? _); try (by destruct st); destruct st; simpl in *; lia.
  - by rewrite (proj2 (proj2 (proj2 (ws_onmessage_frame _ _ _ _)))).
  - intros Hn. unfold fireTimer. destruct (timers st !! h) as [[[env|] d]|]; simpl; [| |done].
    + rewrite (proj2 (proj2 (proj2 (connectWebSocket_frame _ _ _ _)))). by destruct st.
    + case_match; [|by destruct st]. apply Hforce. by destruct st.
  - unfold resetTimer_tick. destruct st. simpl. case_match; simpl; lia.
  - apply Hforce.
  - unfold sendWebSocketMessage. cases_of st; done.
  - destruct button; [done|]. cases_of st; done.
  - unfold handleZonePress, handleZoneLogsRequest. cases_of st; done.
  - unfold handleNewZone. cases_of st; simpl; destruct skip; done.
  - by rewrite (proj1 (proj2 (proj2 (proj2 (occupancyEffect_frame _ _ _ Hstep))))).
  - by rewrite (proj1 (proj2 (proj2 (proj2 (runAnimationFrame_frame _ _ Hstep))))).
Qed.

End Events.

Section EventsMore.
Implicit Types (e : Event) (st : Store).

Lemma handleNewZone_pending zoneData now st :
  socket_open st = true →
  Zone.id zoneData ∈ pendingZones (handleNewZone zoneData false now st).
Proof.
  unfold handleNewZone, sendWebSocketMessage, socket_open.
  cases_of st; try done; simpl; intros _; set_solver.
Qed.


Lemma ws_onmessage_stamps env data now st :
  lastMessageReceivedTimeRef (ws_onmessage env (json data) now st) = now
  ∧ lastMessageTimeRef (ws_onmessage env (json data) now st) = now
  ∧ socket (ws_onmessage env (json data) now st) = socket st
  ∧ timers (ws_onmessage env (json data) now st) = timers st.
Proof.
  destruct data as [[?|]|[] [zid|]|[?|]|[?|]|[?|]|[?|]| | | | |]; try (by destruct st).
  unfold ws_onmessage, dispatch, truthy, handleZoneDeleteConfirmation.
  destruct env as [n [sel|]];
    cases_of st; simpl; repeat (case_bool_decide; simpl; try done).
Qed.

Lemma sendWebSocketMessage_socket message now st :
  socket (sendWebSocketMessage message now st).2 = socket st
  ∧ zones (sendWebSocketMessage message now st).2 = zones st
  ∧ receivedZoneLogs (sendWebSocketMessage message now st).2 = receivedZoneLogs st.
Proof. unfold sendWebSocketMessage. cases_of st; done. Qed.

Lemma reachable_fail_and_reconnect st t : reachable st → reachable (fail_and_reconnect st t).
Proof.
  intros Hr. unfold fail_and_reconnect.
  apply (reachable_step (ConnectionEffectReruns false false) t
           (ws_onclose (closureOf st) 1006 st)); [|done].
  by apply (reachable_step (Close (closureOf st) 1006) 0 st).
Qed.

Lemma reachable_exhausted : reachable exhausted.
Proof.
  unfold exhausted. simpl. repeat apply reachable_fail_and_reconnect.
  apply (reachable_step (Mount false) 6000 (mountedAt 6000)); [|done].
  apply reachable_initial.
Qed.

Lemma reachable_awaiting_pong : reachable awaiting_pong.
Proof.
  apply (reachable_step (Send ping) 1000 (ws_onopen initialStore)); [|done].
  apply (reachable_step Open 0 initialStore); [|done].
  apply (reachable_initial 0).
Qed.

End EventsMore.

(** X12: an id put into [pendingZones] is never taken out again: after
    a zone was created over an open socket, whatever events follow (its
    confirmation included), the id is still pending, so the callback of
    the 30-second pending-zones timer, when it runs, forces a
    reconnect (with the [forceReconnect] of whichever render it holds). *)
Theorem X12_pending_zones_never_cleared (zoneData : Zone.t) (now t : Z)
    (events : list (Event * Z)) (st st' : Store) :
  socket_open st = true →
  runEvents events (handleNewZone zoneData false now st) = Return st' →
  Zone.id zoneData ∈ pendingZones st'
  ∧ ∀ env, longPendingTimeout env t st' = forceReconnect env t st'.
Proof.
  intros Hopen Hrun.
  assert (Zone.id zoneData ∈ pendingZones st') as Hin.
  { apply (runEvents_pendingZones _ _ _ Hrun). by apply handleNewZone_pending. }
  split; [done|]. intros env. unfold longPendingTimeout.
  assert (size (pendingZones st') ≠ 0%nat) as Hsize.
  { intros Hz. apply size_empty_inv in Hz. set_solver. }
  destruct (Nat.ltb_spec 0 (size (pendingZones st'))); [done|lia].
Qed.

Lemma X12_pending_zones_never_cleared_witness :
  socket_open (ws_onopen initialStore) = true
  ∧ ∃ st',
      runEvents quiet_events (handleNewZone kitchen false 100 (ws_onopen initialStore))
      = Return st'
      ∧ Zone.id kitchen ∈ pendingZones st'
      ∧ ∀ env, longPendingTimeout env 40000 st' = forceReconnect env 40000 st'.
Proof.
  split; [reflexivity|].
  eexists. split; [reflexivity|].
  exact (X12_pending_zones_never_cleared kitchen 100 40000 quiet_events
           (ws_onopen initialStore) _ eq_refl eq_refl).
Defined.



(** X14: in every store reachable from a mount, through the handlers of
    any render and the re-runs of the connection effect, there is at most
    one live response timer, and it is the one [messageResponseTimeoutRef]
    points to. *)
Theorem X14_one_response_timer (st : Store) :
  reachable st →
  (length (responseTimers st) ≤ 1)%nat
  ∧ (∀ h, h ∈ responseTimers st → messageResponseTimeoutRef st = Some h).
Proof.
  intros Hr. pose proof (reachable_oneResponseTimer st Hr) as Hone.
  split; [by apply responseTimers_at_most_one|].
  intros h Hin. unfold responseTimers in Hin.
  apply list_elem_of_fmap in Hin as ([h' t] & -> & Hin).
  apply elem_of_map_to_list, map_lookup_filter_Some in Hin as [Hl Hc].
  by eapply Hone.
Qed.

Lemma X14_one_response_timer_witness :
  reachable awaiting_pong
  ∧ (length (responseTimers awaiting_pong) ≤ 1)%nat
  ∧ (∀ h, h ∈ responseTimers awaiting_pong →
          messageResponseTimeoutRef awaiting_pong = Some h).
Proof.
  split; [exact reachable_awaiting_pong|].
  exact (X14_one_response_timer awaiting_pong reachable_awaiting_pong).
Defined.

(** X15: in every store reachable from a mount the counter of failed
    connections is at least 0. *)
Theorem X15_failure_counter_never_negative (st : Store) :
  reachable st → 0 ≤ connectionAttempts st.
Proof.
  induction 1 as [now|e now st st' _ IH Hstep]; [done|].
  by eapply step_connectionAttempts.
Qed.

Lemma X15_failure_counter_never_negative_witness :
  reachable exhausted ∧ 0 ≤ connectionAttempts exhausted.
Proof.
  split; [exact reachable_exhausted|].
  exact (X15_failure_counter_never_negative exhausted reachable_exhausted).
Defined.

(** X16: an inbound frame never touches the connection: [ws.onmessage],
    of a socket of any render, leaves the status, the socket, the failure counter, the connecting
    flag, the retry timer and its ref, the time of the last attempt, all
    timers and the frames written as they were. *)
Theorem X16_inbound_frames_leave_connection (env : Closure) (frame : Frame) (now : Z)
    (st : Store) :
  connectionStatus (ws_onmessage env frame now st) = connectionStatus st
  ∧ socket (ws_onmessage env frame now st) = socket st
  ∧ connectionAttempts (ws_onmessage env frame now st) = connectionAttempts st
  ∧ isConnectingRef (ws_onmessage env frame now st) = isConnectingRef st
  ∧ retryTimeoutRef (ws_onmessage env frame now st) = retryTimeoutRef st
  ∧ lastConnectionAttemptRef (ws_onmessage env frame now st) = lastConnectionAttemptRef st
  ∧ timers (ws_onmessage env frame now st) = timers st
  ∧ sent (ws_onmessage env frame now st) = sent st.
Proof.
  destruct frame as [|data]; [done|].
  destruct data as [[?|]|[] [zid|]|[?|]|[?|]|[?|]|[?|]| | | | |]; try (by destruct st).
  unfold ws_onmessage, dispatch, truthy, handleZoneDeleteConfirmation.
  destruct env as [n [sel|]];
    cases_of st; simpl; repeat (case_bool_decide; simpl; try done).
Qed.

(** X17: a frame that parses holds off both escalations, whichever
    renders made the handlers involved.  If the response timer fires
    within 15 seconds of such a frame, its callback only removes the
    timer; and if the connection check runs within 120 seconds of it, the
    check does nothing. *)
Theorem X17_frame_holds_off_escalation (env fr : Closure) (data : Data) (t0 t : Z)
    (throws : bool) (h : positive) (d : Q) (st : Store) :
  timers st !! h = Some {| callback := ResponseTimeout; delay := d |} →
  (t - t0 ≤ 15000 →
   fireTimer fr throws h t (ws_onmessage env (json data) t0 st)
   = set_timers (delete h (timers st)) (ws_onmessage env (json data) t0 st))
  ∧ (t - t0 ≤ 120000 →
     connectionCheck fr t (ws_onmessage env (json data) t0 st)
     = ws_onmessage env (json data) t0 st).
Proof.
  intros Hh.
  destruct (ws_onmessage_stamps env data t0 st) as (Hrecv & Hlast & _ & Htimers).
  split.
  - intros Ht. rewrite (fireTimer_response fr throws h t _ d) by (by rewrite Htimers).
    cbv zeta. rewrite Hrecv, Htimers.
    destruct (Z.gtb_spec (t - t0) 15000); [lia|done].
  - intros Ht. unfold connectionCheck. rewrite Hlast.
    destruct (Z.gtb_spec (t - t0) 120000); [lia|done].
Qed.

Lemma X17_frame_holds_off_escalation_witness :
  timers awaiting_pong !! 1%positive
  = Some {| callback := ResponseTimeout; delay := 15000 |}
  ∧ (16000 - 2000 ≤ 15000 ∧ 16000 - 2000 ≤ 120000)
  ∧ fireTimer open_render false 1%positive 16000
      (ws_onmessage open_render (json pong) 2000 awaiting_pong)
    = set_timers (delete 1%positive (timers awaiting_pong))
        (ws_onmessage open_render (json pong) 2000 awaiting_pong)
  ∧ connectionCheck open_render 16000
      (ws_onmessage open_render (json pong) 2000 awaiting_pong)
    = ws_onmessage open_render (json pong) 2000 awaiting_pong.
Proof.
  assert (timers awaiting_pong !! 1%positive
          = Some {| callback := ResponseTimeout; delay := 15000 |}) as Hh
    by (vm_compute; reflexivity).
  assert (16000 - 2000 ≤ 15000) as Hfire by lia.
  assert (16000 - 2000 ≤ 120000) as Hcheck by lia.
  destruct (X17_frame_holds_off_escalation open_render open_render pong 2000 16000 false
              1%positive 15000 awaiting_pong Hh) as [Hkeep Hquiet].
  split; [exact Hh|]. split; [split; [exact Hfire|exact Hcheck]|].
  split; [exact (Hkeep Hfire)|exact (Hquiet Hcheck)].
Defined.

(** X18: connection attempts are at least 5 seconds apart: after
    [connectWebSocket] ran at [t1] (itself not refused by the rate
    limit), a second call before [t1 + 5000] changes nothing.  This holds
    when the second call is of the same instance as the first, and for
    instances of any two renders unless the first was refused for the
    attempt limit and the second is not. *)
Theorem X18_connect_rate_limited (env1 env2 : Closure) (throws1 throws2 : bool) (t1 t2 : Z)
    (st : Store) :
  5000 ≤ t1 - lastConnectionAttemptRef st →
  t1 ≤ t2 < t1 + 5000 →
  (maxReconnectAttempts ≤ captured_connectionAttempts env1 →
   maxReconnectAttempts ≤ captured_connectionAttempts env2) →
  connectWebSocket env2 throws2 t2 (connectWebSocket env1 throws1 t1 st)
  = connectWebSocket env1 throws1 t1 st.
Proof.
  intros Hgate Ht Hmax. unfold connectWebSocket.
  assert ((t1 - lastConnectionAttemptRef st <? 5000) = false) as Hg1
    by (apply Z.ltb_ge; lia).
  assert ((t2 - lastConnectionAttemptRef st <? 5000) = false) as Hg2
    by (apply Z.ltb_ge; lia).
  assert ((t2 - t1 <? 5000) = true) as Hg3 by (apply Z.ltb_lt; lia).
  rewrite Hg1.
  destruct (Z.geb_spec (captured_connectionAttempts env1) maxReconnectAttempts) as [Hn|Hn].
  - assert ((captured_connectionAttempts env2 >=? maxReconnectAttempts) = true) as Hn2
      by (apply Z.geb_le; lia).
    destruct st as [? ? ? ? ? ? ? ? ? ? ? ? n ? ? ? [r|] [] last ? ? ? ? ? ? ? ?];
      simpl in *; by rewrite ?Hg2, ?Hn2.
  - destruct st as [? ? ? ? ? ? ? ? ? ? ? ? n ? ? ? [r|] [] last ? ? ? ? ? ? ? ?];
      simpl in *; rewrite ?Hg2; try done; destruct throws1; simpl; by rewrite Hg3.
Qed.

Lemma X18_connect_rate_limited_witness :
  (5000 ≤ 6000 - lastConnectionAttemptRef initialStore ∧ 6000 ≤ 7000 < 6000 + 5000
   ∧ (maxReconnectAttempts ≤ captured_connectionAttempts (closureOf initialStore) →
      maxReconnectAttempts ≤ captured_connectionAttempts exhausted_render))
  ∧ connectWebSocket exhausted_render false 7000
      (connectWebSocket (closureOf initialStore) false 6000 initialStore)
    = connectWebSocket (closureOf initialStore) false 6000 initialStore.
Proof.
  assert (5000 ≤ 6000 - lastConnectionAttemptRef initialStore) as H1 by (simpl; lia).
  assert (6000 ≤ 7000 < 6000 + 5000) as H2 by lia.
  assert (maxReconnectAttempts ≤ captured_connectionAttempts (closureOf initialStore) →
          maxReconnectAttempts ≤ captured_connectionAttempts exhausted_render) as H3
    by (intros _; vm_compute; discriminate).
  split; [split; [exact H1|split; [exact H2|exact H3]]|].
  exact (X18_connect_rate_limited (closureOf initialStore) exhausted_render false false
           6000 7000 initialStore H1 H2 H3).
Defined.

(** X20: the request of initial data after a connection writes, when
    the socket is open, exactly three frames in this order:
    'request_zones', 'request_logs' without a zone id, and 'fall_logs'
    for the 24 hours that end at the time of the second stage; when the
    socket is not open it changes nothing. *)
Theorem X20_initial_requests (t1 t2 : Z) (st : Store) :
  (socket_open st = true →
   sent (requestInitialLogs t2 (requestInitialZones t1 st))
   = sent st ++ [request_zones; request_logs None; fall_logs (t2 - 86400000) t2])
  ∧ (socket_open st = false →
     requestInitialLogs t2 (requestInitialZones t1 st) = st).
Proof.
  split.
  - intros Hopen. unfold requestInitialLogs, requestInitialZones, handleFallLogsRequest.
    rewrite Hopen.
    assert (∀ m t s, socket_open s = true → socket_open (sendWebSocketMessage m t s).2 = true)
      as Hkeep.
    { intros m t s Hs. unfold socket_open in *.
      by rewrite (proj1 (sendWebSocketMessage_socket m t s)). }
    rewrite !Hkeep by auto.
    pose proof (Hkeep request_zones t1 st Hopen) as H1.
    pose proof (Hkeep (request_logs None) t2 _ H1) as H2.
    rewrite (proj2 (proj2 (proj2 (sendWebSocketMessage_open _ _ _ H2)))).
    rewrite (proj2 (proj2 (proj2 (sendWebSocketMessage_open _ _ _ H1)))).
    rewrite (proj2 (proj2 (proj2 (sendWebSocketMessage_open _ _ _ Hopen)))).
    by rewrite <- !app_assoc.
  - intros Hclosed. unfold requestInitialLogs, requestInitialZones. by rewrite !Hclosed.
Qed.

Lemma X20_initial_requests_witness :
  (socket_open (ws_onopen initialStore) = true ∧ socket_open initialStore = false)
  ∧ sent (requestInitialLogs 1600 (requestInitialZones 1100 (ws_onopen initialStore)))
    = sent (ws_onopen initialStore)
      ++ [request_zones; request_logs None; fall_logs (1600 - 86400000) 1600]
  ∧ requestInitialLogs 1600 (requestInitialZones 1100 initialStore) = initialStore.
Proof.
  split; [split; reflexivity|].
  split.
  - exact (proj1 (X20_initial_requests 1100 1600 (ws_onopen initialStore)) eq_refl).
  - exact (proj2 (X20_initial_requests 1100 1600 initialStore) eq_refl).
Defined.

(** X21: the 30-second data check asks only for what is missing.
    After the three resync responses were delivered with a zone list that
    is not empty, the check writes nothing and changes nothing; on an
    open socket with no zones and no logs received it writes
    'request_zones' and then 'request_logs'. *)
Theorem X21_data_check (now t : Z) (st : Store) :
  (∀ env zs logs falls,
     zs ≠ [] →
     dataCheck now (deliver env t (resyncResponses zs logs falls) st)
     = deliver env t (resyncResponses zs logs falls) st)
  ∧ (socket_open st = true → zones st = [] → receivedZoneLogs st = false →
     sent (dataCheck now st) = sent st ++ [request_zones; request_logs None]).
Proof.
  split.
  - intros env zs logs falls Hne. unfold dataCheck.
    set (st1 := deliver env t _ st).
    assert (zones st1 = Object_values zs ∧ receivedZoneLogs st1 = true) as [Hz Hr]
      by (by destruct st).
    destruct (socket_open st1); [|done]. rewrite Hz.
    destruct zs as [|z zs]; [done|]. simpl. by rewrite Hr.
  - intros Hopen Hz Hr. unfold dataCheck. rewrite Hopen, Hz. simpl.
    destruct (sendWebSocketMessage_socket request_zones now st) as (Hs & _ & ->).
    rewrite Hr. simpl.
    assert (socket_open (sendWebSocketMessage request_zones now st).2 = true) as Hopen1
      by (unfold socket_open in *; by rewrite Hs).
    rewrite (proj2 (proj2 (proj2 (sendWebSocketMessage_open _ _ _ Hopen1)))).
    rewrite (proj2 (proj2 (proj2 (sendWebSocketMessage_open _ _ _ Hopen)))).
    by rewrite <- app_assoc.
Qed.

Lemma X21_data_check_witness :
  ([("zone_1", unit_square)] ≠ []
   ∧ socket_open (ws_onopen initialStore) = true
   ∧ zones (ws_onopen initialStore) = []
   ∧ receivedZoneLogs (ws_onopen initialStore) = false)
  ∧ dataCheck 31000
      (deliver open_render 2000 (resyncResponses [("zone_1", unit_square)] ∅ [])
         (ws_onopen initialStore))
    = deliver open_render 2000 (resyncResponses [("zone_1", unit_square)] ∅ [])
        (ws_onopen initialStore)
  ∧ sent (dataCheck 31000 (ws_onopen initialStore))
    = sent (ws_onopen initialStore) ++ [request_zones; request_logs None].
Proof.
  assert ([("zone_1", unit_square)] ≠ @nil (string * Zone.t)) as Hne by discriminate.
  split; [split; [exact Hne|]; split; [reflexivity|]; split; reflexivity|].
  split.
  - exact (proj1 (X21_data_check 31000 2000 (ws_onopen initialStore))
             open_render [("zone_1", unit_square)] ∅ [] Hne).
  - exact (proj2 (X21_data_check 31000 2000 (ws_onopen initialStore))
             eq_refl eq_refl eq_refl).
Defined.

Section Drawing.
Implicit Types (r : Radar.t) (e : RadarEvent).

#[local] Arguments withinRange : simpl never.

Lemma radarStep_invariant r e : drawingInvariant r → drawingInvariant (radarStep r e).
Proof.
  intros [Hrange Hthree]. destruct r as [creating pts waiting tmp name]. simpl in *.
  destruct e as [x y| |nm now zs| |text]; simpl.
  - unfold handleRadarPress. simpl. destruct creating; simpl; [|done].
    destruct (withinRange _) eqn:Hw; simpl; [|done].
    split; [|done]. apply Forall_app. split; [done|]. by repeat constructor.
  - unfold handleZoneButtonPress. cbn [Radar.isCreatingZone Radar.zonePoints].
    destruct creating; cbn [negb].
    + destruct (3 <=? length pts)%nat eqn:Hlen; simpl.
      * apply Nat.leb_le in Hlen. by split.
      * split; [done|]. intros; discriminate.
    + split; [constructor|done].
  - unfold submitName. simpl. destruct (handleNameSubmit _ _ _ _); simpl; [done|].
    split; [constructor|done].
  - unfold handleCancel. simpl. split; [constructor|done].
  - done.
Qed.

Lemma radarRun_invariant events : drawingInvariant (radarRun events).
Proof.
  unfold radarRun.
  assert (∀ r, drawingInvariant r → drawingInvariant (fold_left radarStep events r)) as Hrun.
  { induction events as [|e events IH]; intros r Hr; [done|].
    simpl. by apply IH, radarStep_invariant. }
  apply Hrun. split; [constructor|]. simpl. done.
Qed.

End Drawing.

(** X22: a zone drawn on the radar is well formed.  After any sequence
    of presses on the radar, presses of the zone button, submits, cancels
    and edits of the name, if the component waits for a name and is not
    drawing, a submit that is accepted creates a zone with at least three
    points, all of them within the range of the grid, and leaves the
    component with no points and not waiting. *)
Theorem X22_drawn_zone_is_well_formed (events : list RadarEvent) (name : string) (now : Z)
    (zs : list Zone.t) (zoneData : Zone.t) :
  Radar.isWaitingForName (radarRun events) = true →
  Radar.isCreatingZone (radarRun events) = false →
  (submitName name now zs (radarRun events)).2 = ZoneCreated zoneData →
  (3 ≤ length (Zone.points zoneData))%nat
  ∧ Forall (λ p, withinRange p = true) (Zone.points zoneData)
  ∧ Radar.zonePoints (submitName name now zs (radarRun events)).1 = []
  ∧ Radar.isWaitingForName (submitName name now zs (radarRun events)).1 = false.
Proof.
  intros Hw Hc Hsub. destruct (radarRun_invariant events) as [Hrange Hthree].
  unfold submitName in *.
  destruct (handleNameSubmit name now _ zs) as [title|z] eqn:Hname; simpl in *; [done|].
  injection Hsub as ->.
  apply handleNameSubmit_created in Hname. subst zoneData. simpl. auto.
Qed.

Lemma X22_drawn_zone_is_well_formed_witness :
  (Radar.isWaitingForName (radarRun drawing_triangle) = true
   ∧ Radar.isCreatingZone (radarRun drawing_triangle) = false
   ∧ (submitName "Hall" 1700000000000 [] (radarRun drawing_triangle)).2
     = ZoneCreated drawn_triangle)
  ∧ (3 ≤ length (Zone.points drawn_triangle))%nat
  ∧ Forall (λ p, withinRange p = true) (Zone.points drawn_triangle)
  ∧ Radar.zonePoints (submitName "Hall" 1700000000000 [] (radarRun drawing_triangle)).1 = []
  ∧ Radar.isWaitingForName
      (submitName "Hall" 1700000000000 [] (radarRun drawing_triangle)).1 = false.
Proof.
  assert ((submitName "Hall" 1700000000000 [] (radarRun drawing_triangle)).2
          = ZoneCreated drawn_triangle) as Hsub by (vm_compute; reflexivity).
  split; [split; [reflexivity|split; [reflexivity|exact Hsub]]|].
  exact (X22_drawn_zone_is_well_formed drawing_triangle "Hall" 1700000000000 []
           drawn_triangle eq_refl eq_refl Hsub).
Defined.

(** X23: the zone button clears the points whenever the component is
    not drawing, and leaves the wait for a name as it is.  So if its
    handler runs while the name is being asked for, a submit that is then
    accepted creates a zone with no points. *)
Theorem X23_button_during_naming_empties_zone (r : Radar.t) (name : string) (now : Z)
    (zs : list Zone.t) (zoneData : Zone.t) :
  Radar.isCreatingZone r = false →
  (submitName name now zs (handleZoneButtonPress r).1).2 = ZoneCreated zoneData →
  Zone.points zoneData = []
  ∧ Radar.isWaitingForName (handleZoneButtonPress r).1 = Radar.isWaitingForName r.
Proof.
  intros Hc Hsub. unfold handleZoneButtonPress in *. rewrite Hc in *. simpl in *.
  unfold submitName in Hsub. simpl in Hsub.
  destruct (handleNameSubmit name now [] zs) as [title|z] eqn:Hname; simpl in *; [done|].
  injection Hsub as ->. apply handleNameSubmit_created in Hname. by subst.
Qed.

Lemma X23_button_during_naming_empties_zone_witness :
  (Radar.isCreatingZone (radarRun drawing_triangle) = false
   ∧ Radar.isWaitingForName (radarRun drawing_triangle) = true
   ∧ (submitName "Hall" 1700000000000 []
        (handleZoneButtonPress (radarRun drawing_triangle)).1).2
     = ZoneCreated empty_hall)
  ∧ Zone.points empty_hall = []
  ∧ Radar.isWaitingForName (handleZoneButtonPress (radarRun drawing_triangle)).1
    = Radar.isWaitingForName (radarRun drawing_triangle).
Proof.
  assert ((submitName "Hall" 1700000000000 []
             (handleZoneButtonPress (radarRun drawing_triangle)).1).2
          = ZoneCreated empty_hall) as Hsub by (vm_compute; reflexivity).
  split; [split; [reflexivity|split; [reflexivity|exact Hsub]]|].
  exact (X23_button_during_naming_empties_zone (radarRun drawing_triangle) "Hall"
           1700000000000 [] empty_hall eq_refl Hsub).
Defined.

Section Slider.

Lemma slider_round_trip_at (k : nat) :
  (k ≤ 100)%nat →
  Math_round_number (number_of_Z (Z.of_nat k)) = number_of_Z (Z.of_nat k)
  ∧ Math_round_number (number_of_Z (Z.of_nat k) / 100 * 100)%float
    = number_of_Z (Z.of_nat k).
Proof.
  intros Hk.
  do 101 (destruct k as [|k]; [split; vm_compute; reflexivity|]).
  lia.
Qed.

End Slider.

(** X24: the sensitivity survives the round trip through the server.
    Releasing the slider at a whole position [k] between 0 and 100 shows
    [k] and stores [k / 100] as the sensitivity to save; when a settings
    message brings that value back, the slider shows [k] again and the
    stored sensitivity is unchanged. *)
Theorem X24_sensitivity_round_trip (k : nat) (enabled : bool) (frame_time_ms : number)
    (d : DeviceSettings.t) :
  (k ≤ 100)%nat →
  let d1 := handleSliderComplete (number_of_Z (Z.of_nat k)) d in
  let d2 := handleSettingsMessage enabled (DeviceSettings.sensitivity d1) frame_time_ms d1 in
  DeviceSettings.sliderValue d1 = number_of_Z (Z.of_nat k)
  ∧ DeviceSettings.sensitivity d1 = (number_of_Z (Z.of_nat k) / 100)%float
  ∧ DeviceSettings.sliderValue d2 = DeviceSettings.sliderValue d1
  ∧ DeviceSettings.sensitivity d2 = DeviceSettings.sensitivity d1.
Proof.
  intros Hk. destruct (slider_round_trip_at k Hk) as [Hround Hback].
  unfold handleSliderComplete, handleSettingsMessage. cbn [DeviceSettings.sliderValue
    DeviceSettings.sensitivity DeviceSettings.isSliding].
  rewrite Hround, Hback. done.
Qed.

Lemma X24_sensitivity_round_trip_witness :
  (57 ≤ 100)%nat
  ∧ DeviceSettings.sliderValue (handleSliderComplete 57 default_settings) = 57%float
  ∧ DeviceSettings.sensitivity (handleSliderComplete 57 default_settings)
    = (57 / 100)%float
  ∧ DeviceSettings.sliderValue
      (handleSettingsMessage true
         (DeviceSettings.sensitivity (handleSliderComplete 57 default_settings)) 100
         (handleSliderComplete 57 default_settings))
    = DeviceSettings.sliderValue (handleSliderComplete 57 default_settings)
  ∧ DeviceSettings.sensitivity
      (handleSettingsMessage true
         (DeviceSettings.sensitivity (handleSliderComplete 57 default_settings)) 100
         (handleSliderComplete 57 default_settings))
    = DeviceSettings.sensitivity (handleSliderComplete 57 default_settings).
Proof.
  assert (57 ≤ 100)%nat as Hk by lia.
  split; [exact Hk|].
  exact (X24_sensitivity_round_trip 57 true 100 default_settings Hk).
Defined.
